(** * irmago keyshare servers: account store, PIN controller, token registry
      and the MyIRMA console session layer.

    A shallow embedding of
      - [server/keyshare] database helpers (ExecCount, ExecUser, QueryScan,
        QueryUser, QueryIterate),
      - [server/keyshareserver/postgresdb.go],
      - [server/keyshare/myirmaserver/postgresdb.go],
      - [server/keyshare/myirmaserver/server.go],
    over an explicit model of the [irma] tables, of one open database
    transaction, of driver failures and of the in-memory session store.

    Go's [int] and [int64] and SQL's INT and BIGINT are [Z], and the SQL
    expressions are evaluated in exact integer arithmetic: the ranges of
    the machine types are not part of the model.  Time is unix seconds;
    a function that reads [time.Now()] takes the reading as an argument.
    Durations are in seconds. *)

From Stdlib Require Import ZArith List Ascii String Bool Lia.
From stdpp Require Import gmap strings.
Import ListNotations.

Local Open Scope string_scope.
Local Open Scope list_scope.
Local Open Scope Z_scope.

(** ** The [irma] schema

    One record per table, one field per column.  A nullable column is an
    [option].  A table is the list of its rows in scan order: the sources
    rely on no uniqueness constraint, so none is built into the model (a
    bag of rows); where a result needs one it is stated as a hypothesis. *)

Record UserRow := mkUser {
  users_id : Z;
  users_username : string;
  users_language : string;
  users_coredata : option (list Byte.byte);
  users_last_seen : Z;
  users_pin_counter : Z;
  users_pin_block_date : Z;
  users_delete_on : option Z }.

Record EmailRow := mkEmail {
  emails_user_id : Z;
  emails_email : string;
  emails_delete_on : option Z }.

Record VerificationTokenRow := mkVerificationToken {
  evt_token : string;
  evt_email : string;
  evt_user_id : Z;
  evt_expiry : Z }.

Record LoginTokenRow := mkLoginToken {
  elt_token : string;
  elt_email : string;
  elt_expiry : Z }.

Record LogRow := mkLog {
  log_time : Z;
  log_event : Z;
  log_param : option string;
  log_user_id : Z }.

Record Tables := mkTables {
  users : list UserRow;
  emails : list EmailRow;
  email_verification_tokens : list VerificationTokenRow;
  email_login_tokens : list LoginTokenRow;
  log_entry_records : list LogRow }.

(** ** Errors of the three packages *)

Inductive error :=
| ErrNoRows                         (* sql.ErrNoRows *)
| ErrUserNotFound                   (* keyshare.ErrUserNotFound *)
| ErrUserAlreadyExists              (* keyshareserver.ErrUserAlreadyExists *)
| ErrInvalidRecord                  (* keyshareserver.ErrInvalidRecord *)
| ErrEmailNotFound                  (* myirmaserver.ErrEmailNotFound *)
| ErrTokenNotFound                  (* myirmaserver.ErrTokenNotFound *)
| ErrInvalidEmail                   (* myirmaserver.ErrInvalidEmail *)
| ErrDriver (msg : string)          (* any error reported by database/sql *)
| Errorf (fmt : string) (arg : Z)   (* errors.Errorf(fmt, arg) *)
| NumError (msg : string)           (* *strconv.NumError *)
| Panic (msg : string).             (* a Go run-time panic *)

(** [error.Error()] *)
Definition Error_string (e : error) : string :=
  match e with
  | ErrNoRows => "sql: no rows in result set"
  | ErrUserNotFound => "Could not find specified user"
  | ErrUserAlreadyExists => "Cannot create user, username already taken"
  | ErrInvalidRecord => "Invalid record in database"
  | ErrEmailNotFound => "Email address not found"
  | ErrTokenNotFound => "Token not found"
  | ErrInvalidEmail => "Email not associated with account"
  | ErrDriver m => m
  | Errorf f _ => f
  | NumError m => m
  | Panic m => m
  end.

Inductive result (A : Type) :=
| Ok (a : A)
| Err (e : error).
Arguments Ok {A} a.
Arguments Err {A} e.

(** ** SQL statements that write

    Every data-modifying statement of the sources is a constructor; its
    arguments are the statement's parameters [$1], [$2], ... in order. *)

Inductive stmt :=
(* keyshareserver *)
| ReservePincheckUpdate (p1 p2 p3 p4 p5 : Z)
    (* UPDATE irma.users SET pin_counter = pin_counter+1,
         pin_block_date = $1+$2*2^GREATEST(0, pin_counter-$3)
       WHERE id=$4 AND pin_block_date<=$5 AND coredata IS NOT NULL
       RETURNING pin_counter, pin_block_date *)
| ClearPincheckUpdate (p1 : Z)
    (* UPDATE irma.users SET pin_counter=0, pin_block_date=0 WHERE id=$1 *)
| InsertVerificationToken (p1 p2 : string) (p3 p4 : Z)
    (* INSERT INTO irma.email_verification_tokens (token, email, user_id, expiry)
       VALUES ($1, $2, $3, $4) *)
(* myirmaserver *)
| DeleteVerificationToken (p1 : string)
    (* DELETE FROM irma.email_verification_tokens WHERE token = $1 *)
| RemoveUserUpdate (p1 p2 : Z)
    (* UPDATE irma.users SET coredata = NULL, delete_on = $2
       WHERE id = $1 AND coredata IS NOT NULL *)
| InsertLoginToken (p1 p2 : string) (p3 : Z)
    (* INSERT INTO irma.email_login_tokens (token, email, expiry)
       VALUES ($1, $2, $3) *)
| DeleteLoginToken (p1 : string)
    (* DELETE FROM irma.email_login_tokens WHERE token = $1 *)
| RestoreEmailUpdate (p1 : Z) (p2 : string)
    (* UPDATE irma.emails SET delete_on = NULL WHERE user_id = $1 AND email = $2 *)
| InsertEmail (p1 : Z) (p2 : string)
    (* INSERT INTO irma.emails (user_id, email) VALUES ($1, $2) *)
| RemoveEmailUpdate (p1 : Z) (p2 : string) (p3 : Z)
    (* UPDATE irma.emails SET delete_on = $3
       WHERE user_id = $1 AND email = $2 AND delete_on IS NULL *)
| SetSeenUpdate (p1 p2 : Z).
    (* UPDATE irma.users SET last_seen = $1 WHERE id = $2 *)

(** [x IS NOT NULL] *)
Definition is_not_null {A} (x : option A) : bool :=
  match x with Some _ => true | None => false end.

(** [x IS NULL] *)
Definition is_null {A} (x : option A) : bool := negb (is_not_null x).

(** [x >= y] on a nullable [x]: unknown, hence not selected, on NULL. *)
Definition null_geb (x : option Z) (y : Z) : bool :=
  match x with Some v => y <=? v | None => false end.

(** [UPDATE t SET ... WHERE cond]: rewrite the selected rows in place. *)
Definition update {A} (cond : A -> bool) (set : A -> A) (t : list A) : list A :=
  map (fun r => if cond r then set r else r) t.

(** [DELETE FROM t WHERE cond] *)
Definition delete_where {A} (cond : A -> bool) (t : list A) : list A :=
  List.filter (fun r => negb (cond r)) t.

(** Number of rows a [WHERE cond] selects: [RowsAffected()] of an
    UPDATE or DELETE. *)
Definition count {A} (cond : A -> bool) (t : list A) : Z :=
  Z.of_nat (length (List.filter cond t)).

(** The WHERE and SET clauses, shared by a statement's effect, its row
    count and its RETURNING rows. *)

Definition reserve_where (p4 p5 : Z) (r : UserRow) : bool :=
  (users_id r =? p4) && (users_pin_block_date r <=? p5)
  && is_not_null (users_coredata r).

Definition reserve_set (p1 p2 p3 : Z) (r : UserRow) : UserRow :=
  mkUser (users_id r) (users_username r) (users_language r) (users_coredata r)
         (users_last_seen r)
         (users_pin_counter r + 1)
         (p1 + p2 * 2 ^ Z.max 0 (users_pin_counter r - p3))
         (users_delete_on r).

Definition clear_set (r : UserRow) : UserRow :=
  mkUser (users_id r) (users_username r) (users_language r) (users_coredata r)
         (users_last_seen r) 0 0 (users_delete_on r).

Definition remove_user_where (p1 : Z) (r : UserRow) : bool :=
  (users_id r =? p1) && is_not_null (users_coredata r).

Definition remove_user_set (p2 : Z) (r : UserRow) : UserRow :=
  mkUser (users_id r) (users_username r) (users_language r) None
         (users_last_seen r) (users_pin_counter r) (users_pin_block_date r)
         (Some p2).

Definition set_seen_set (p1 : Z) (r : UserRow) : UserRow :=
  mkUser (users_id r) (users_username r) (users_language r) (users_coredata r)
         p1 (users_pin_counter r) (users_pin_block_date r) (users_delete_on r).

Definition email_is (p1 : Z) (p2 : string) (r : EmailRow) : bool :=
  (emails_user_id r =? p1) && String.eqb (emails_email r) p2.

Definition email_set_delete_on (d : option Z) (r : EmailRow) : EmailRow :=
  mkEmail (emails_user_id r) (emails_email r) d.

Definition remove_email_where (p1 : Z) (p2 : string) (r : EmailRow) : bool :=
  email_is p1 p2 r && is_null (emails_delete_on r).

Definition with_users (t : Tables) (us : list UserRow) : Tables :=
  mkTables us (emails t) (email_verification_tokens t) (email_login_tokens t)
           (log_entry_records t).

Definition with_emails (t : Tables) (es : list EmailRow) : Tables :=
  mkTables (users t) es (email_verification_tokens t) (email_login_tokens t)
           (log_entry_records t).

Definition with_verification_tokens (t : Tables) (vs : list VerificationTokenRow) : Tables :=
  mkTables (users t) (emails t) vs (email_login_tokens t) (log_entry_records t).

Definition with_login_tokens (t : Tables) (ls : list LoginTokenRow) : Tables :=
  mkTables (users t) (emails t) (email_verification_tokens t) ls
           (log_entry_records t).

(** The tables after a statement. *)
Definition exec_stmt (s : stmt) (t : Tables) : Tables :=
  match s with
  | ReservePincheckUpdate p1 p2 p3 p4 p5 =>
      with_users t (update (reserve_where p4 p5) (reserve_set p1 p2 p3) (users t))
  | ClearPincheckUpdate p1 =>
      with_users t (update (fun r => users_id r =? p1) clear_set (users t))
  | InsertVerificationToken p1 p2 p3 p4 =>
      with_verification_tokens t
        (email_verification_tokens t ++ [mkVerificationToken p1 p2 p3 p4])
  | DeleteVerificationToken p1 =>
      with_verification_tokens t
        (delete_where (fun r => String.eqb (evt_token r) p1)
                      (email_verification_tokens t))
  | RemoveUserUpdate p1 p2 =>
      with_users t (update (remove_user_where p1) (remove_user_set p2) (users t))
  | InsertLoginToken p1 p2 p3 =>
      with_login_tokens t (email_login_tokens t ++ [mkLoginToken p1 p2 p3])
  | DeleteLoginToken p1 =>
      with_login_tokens t
        (delete_where (fun r => String.eqb (elt_token r) p1) (email_login_tokens t))
  | RestoreEmailUpdate p1 p2 =>
      with_emails t (update (email_is p1 p2) (email_set_delete_on None) (emails t))
  | InsertEmail p1 p2 =>
      with_emails t (emails t ++ [mkEmail p1 p2 None])
  | RemoveEmailUpdate p1 p2 p3 =>
      with_emails t
        (update (remove_email_where p1 p2) (email_set_delete_on (Some p3)) (emails t))
  | SetSeenUpdate p1 p2 =>
      with_users t (update (fun r => users_id r =? p2) (set_seen_set p1) (users t))
  end.

(** [RowsAffected()] of a statement run on [t]. *)
Definition rows_affected (s : stmt) (t : Tables) : Z :=
  match s with
  | ReservePincheckUpdate _ _ _ p4 p5 => count (reserve_where p4 p5) (users t)
  | ClearPincheckUpdate p1 => count (fun r => users_id r =? p1) (users t)
  | InsertVerificationToken _ _ _ _ => 1
  | DeleteVerificationToken p1 =>
      count (fun r => String.eqb (evt_token r) p1) (email_verification_tokens t)
  | RemoveUserUpdate p1 _ => count (remove_user_where p1) (users t)
  | InsertLoginToken _ _ _ => 1
  | DeleteLoginToken p1 =>
      count (fun r => String.eqb (elt_token r) p1) (email_login_tokens t)
  | RestoreEmailUpdate p1 p2 => count (email_is p1 p2) (emails t)
  | InsertEmail _ _ => 1
  | RemoveEmailUpdate p1 p2 _ => count (remove_email_where p1 p2) (emails t)
  | SetSeenUpdate _ p2 => count (fun r => users_id r =? p2) (users t)
  end.

(** ** Console sessions

    [server.Error] values the console uses, and [Sessiondata] with the
    fields the handlers read and write.  The per-session mutex is not a
    field: every function below runs as one critical section. *)

Inductive ServerError :=
| ErrorInvalidProofs
| ErrorUserNotRegistered
| ErrorInternal
| ErrorInvalidRequest.

Record Sessiondata := mkSession {
  token : string;
  userID : option Z;
  expiry : Z;
  pendingError : option ServerError;
  pendingErrorMessage : string }.

(** ** What a handler writes to its [http.ResponseWriter] *)

#[local] Set Warnings "-register-all".
Inductive json :=
| JNull
| JBool (b : bool)
| JNumber (n : Z)
| JString (s : string)
| JArray (items : list json)
| JObject (members : list (string * json)).
#[local] Set Warnings "register-all".

Inductive wevent :=
| SetCookie (value : string) (maxage : Z)      (* s.setCookie(w, value, maxage) *)
| WriteHeader (status : Z)                     (* w.WriteHeader(status) *)
| WriteString (body : string)                  (* server.WriteString(w, body) *)
| WriteJson (body : json)                      (* server.WriteJson(w, v) *)
| WriteError (e : ServerError) (msg : string). (* server.WriteError(w, e, msg) *)

(** ** The world: database, open transaction, driver, logger, sessions

    [tabs] is the committed database.  [pend] holds the writes of the one
    open transaction, in order; a statement run on the transaction sees
    the committed tables with [pend] replayed on them and appends its own
    write, a statement run on the pool ([nil] transaction) reads and
    writes [tabs] directly.  [faults] schedules driver failures: every
    round trip to the database takes the head; on [Some msg] it fails
    with that message and has no effect.  [logged] is the logger's
    output.  [sessions] is the session store's map, [entropy] the
    tokens [common.NewSessionToken] will hand out and [written] what the
    request being served has written to its [http.ResponseWriter]. *)

Record World := mkWorld {
  tabs : Tables;
  pend : list stmt;
  faults : list (option string);
  logged : list string;
  sessions : gmap string Sessiondata;
  entropy : list string;
  written : list wevent }.

Definition set_tabs (w : World) (t : Tables) : World :=
  mkWorld t (pend w) (faults w) (logged w) (sessions w) (entropy w) (written w).
Definition set_pend (w : World) (p : list stmt) : World :=
  mkWorld (tabs w) p (faults w) (logged w) (sessions w) (entropy w) (written w).
Definition set_faults (w : World) (f : list (option string)) : World :=
  mkWorld (tabs w) (pend w) f (logged w) (sessions w) (entropy w) (written w).
Definition set_logged (w : World) (l : list string) : World :=
  mkWorld (tabs w) (pend w) (faults w) l (sessions w) (entropy w) (written w).
Definition set_sessions (w : World) (s : gmap string Sessiondata) : World :=
  mkWorld (tabs w) (pend w) (faults w) (logged w) s (entropy w) (written w).
Definition set_entropy (w : World) (e : list string) : World :=
  mkWorld (tabs w) (pend w) (faults w) (logged w) (sessions w) e (written w).
Definition set_written (w : World) (r : list wevent) : World :=
  mkWorld (tabs w) (pend w) (faults w) (logged w) (sessions w) (entropy w) r.

Definition M (A : Type) : Type := World -> result A * World.

Definition ret {A} (a : A) : M A := fun w => (Ok a, w).

Definition fail {A} (e : error) : M A := fun w => (Err e, w).

Definition bind {A B} (m : M A) (k : A -> M B) : M B :=
  fun w => match m w with
           | (Ok a, w') => k a w'
           | (Err e, w') => (Err e, w')
           end.

(** [v, err := m] where the caller inspects [err] itself.  A panic is
    not an error value: it unwinds through the caller. *)
Definition try {A B} (m : M A) (k : result A -> M B) : M B :=
  fun w => match m w with
           | (Err (Panic msg), w') => (Err (Panic msg), w')
           | (r, w') => k r w'
           end.

Declare Scope go_scope.
Delimit Scope go_scope with go.
Notation "'let*' x := m 'in' k" := (bind m (fun x => k))
  (at level 10, x pattern, m at level 100, k at level 200) : go_scope.
Notation "'let?' r := m 'in' k" := (try m (fun r => k))
  (at level 10, r name, m at level 100, k at level 200) : go_scope.
Local Open Scope go_scope.

(** [*sql.Tx] as the sources pass it: [nil], or the open transaction. *)
Inductive sqlTx := nilTx | openTx.

(** The tables a statement run on [tx] sees. *)
Definition replay (p : list stmt) (t : Tables) : Tables :=
  fold_left (fun t s => exec_stmt s t) p t.

Definition view (tx : sqlTx) (w : World) : Tables :=
  match tx with
  | nilTx => tabs w
  | openTx => replay (pend w) (tabs w)
  end.

(** One round trip: consume the driver's next scheduled outcome. *)
Definition roundtrip : M unit := fun w =>
  match faults w with
  | Some msg :: fs => (Err (ErrDriver msg), set_faults w fs)
  | None :: fs => (Ok tt, set_faults w fs)
  | [] => (Ok tt, w)
  end.

(** Apply a write on [tx]. *)
Definition write (tx : sqlTx) (s : stmt) (w : World) : World :=
  match tx with
  | nilTx => set_tabs w (exec_stmt s (tabs w))
  | openTx => set_pend w (pend w ++ [s])
  end.

(** [tx.Exec(query, args...)] or [db.Exec(query, args...)], then
    [RowsAffected()]. *)
Definition Exec (tx : sqlTx) (s : stmt) : M Z :=
  let* _ := roundtrip in
  fun w => (Ok (rows_affected s (view tx w)), write tx s w).

(** A SELECT list and WHERE clause: the rows it yields on given tables,
    or the error the database raises while evaluating it. *)
Definition select (A : Type) : Type := Tables -> result (list A).

(** [tx.Query(query, args...)] or [db.Query(query, args...)] with the rows
    read to the end; [s] is the query's write, if it is an
    UPDATE ... RETURNING. *)
Definition Query {A} (tx : sqlTx) (s : option stmt) (q : select A) : M (list A) :=
  let* _ := roundtrip in
  fun w => match q (view tx w) with
           | Ok rows => (Ok rows, match s with Some s => write tx s w | None => w end)
           | Err e => (Err e, w)
           end.

(** [server.LogError(err)] and the [Logger] calls: append to the log. *)
Definition Log (msg : string) : M unit := fun w =>
  (Ok tt, set_logged w (logged w ++ [msg])).

(** A write to the [http.ResponseWriter]. *)
Definition Write (e : wevent) : M unit := fun w =>
  (Ok tt, set_written w (written w ++ [e])).

(** [db.BeginTx(ctx, nil)], [tx.Commit()], [tx.Rollback()].  A round
    trip that fails leaves the transaction as it is, so the runs of the
    model include those in which a statement of a transaction fails and a
    later COMMIT of it goes through; PostgreSQL has aborted such a
    transaction and reports its COMMIT as failed, which is the schedule
    with a failure at the COMMIT as well. *)
Definition BeginTx : M sqlTx :=
  let* _ := roundtrip in
  fun w => (Ok openTx, set_pend w []).

Definition Commit : M unit :=
  let* _ := roundtrip in
  fun w => (Ok tt, set_pend (set_tabs w (view openTx w)) []).

Definition Rollback : M unit :=
  let* _ := roundtrip in
  fun w => (Ok tt, set_pend w []).

(** [db.Exec(query, args...)] of a statement that no transaction ever
    holds: [effect] is what it does to the tables, [affected] its
    [RowsAffected()]. *)
Definition ExecPool (effect : Tables -> Tables) (affected : Tables -> Z) : M Z :=
  let* _ := roundtrip in
  fun w => (Ok (affected (tabs w)), set_tabs w (effect (tabs w))).

Definition with_logs (t : Tables) (ls : list LogRow) : Tables :=
  mkTables (users t) (emails t) (email_verification_tokens t) (email_login_tokens t) ls.

(** [common.NewSessionToken()]: the next token of the entropy source. *)
Definition NewSessionToken : M string := fun w =>
  match entropy w with
  | [] => (Err (Panic "crypto/rand: no entropy"), w)
  | tok :: rest => (Ok tok, set_entropy w rest)
  end.

(** ** Go slices: [nil] is not the empty slice *)

Inductive slice (A : Type) :=
| nilSlice
| Slice (elems : list A).
Arguments nilSlice {A}.
Arguments Slice {A} elems.

Definition elems {A} (s : slice A) : list A :=
  match s with nilSlice => [] | Slice l => l end.

Definition append {A} (s : slice A) (x : A) : slice A := Slice (elems s ++ [x]).

Definition len {A} (s : slice A) : Z := Z.of_nat (length (elems s)).

(** ** Package keyshare: database helpers *)

Module keyshare.

(** [type Tx interface { Commit() error; Rollback() error }]: [None] is
    the nil interface, [Some tx] holds a [*sql.Tx]. *)
Definition Tx : Type := option sqlTx.

(** The type assertion of [tx] to [*sql.Tx]: it panics on the nil interface. *)
Definition assert_sqlTx (tx : Tx) : M sqlTx :=
  match tx with
  | Some p => ret p
  | None => fail (Panic "interface conversion: keyshare.Tx is nil, not *sql.Tx")
  end.

(** [func (db *DB) ExecCount(tx *sql.Tx, query string, args ...interface{})] *)
Definition ExecCount (tx : sqlTx) (query : stmt) : M Z := Exec tx query.

(** [func (db *DB) ExecUser] *)
Definition ExecUser (tx : sqlTx) (query : stmt) : M unit :=
  let* c := ExecCount tx query in
  if negb (c =? 1) then fail ErrUserNotFound else ret tt.

(** [func (db *DB) QueryScan]: the first row, [sql.ErrNoRows] on none. *)
Definition QueryScan {A} (tx : sqlTx) (query : select A) : M A :=
  let* res := Query tx None query in
  match res with
  | [] => fail ErrNoRows
  | row :: _ => ret row
  end.

(** [func (db *DB) QueryUser] *)
Definition QueryUser {A} (tx : sqlTx) (query : select A) : M A :=
  let? r := QueryScan tx query in
  match r with
  | Err ErrNoRows => fail ErrUserNotFound
  | Err e => fail e
  | Ok row => ret row
  end.

(** [func (db *DB) QueryIterate]: [f] is the row callback, acting on the
    variables it closes over ([S]). *)
Fixpoint iterate {A S} (f : A -> S -> result S) (rows : list A) (acc : S) : result S :=
  match rows with
  | [] => Ok acc
  | row :: rest =>
      match f row acc with
      | Ok acc' => iterate f rest acc'
      | Err e => Err e
      end
  end.

Definition QueryIterate {A S} (tx : sqlTx) (query : select A)
    (f : A -> S -> result S) (acc : S) : M S :=
  let* res := Query tx None query in
  match iterate f res acc with
  | Ok acc' => ret acc'
  | Err e => fail e
  end.

End keyshare.

(** ** Package keyshareserver: postgresdb.go *)

Module keyshareserver.

Definition MAX_PIN_TRIES : Z := 3.
Definition BACKOFF_START : Z := 30.
Definition EMAIL_TOKEN_VALIDITY : Z := 24.

(** [KeyshareUserData] with the row id next to it. *)
Record keysharePostgresUser := mkKeyshareUser {
  Username : string;
  Language : string;
  Coredata : list Byte.byte;
  id : Z }.

(** SELECT id, username, language, coredata FROM irma.users
    WHERE username = $1 AND coredata IS NOT NULL *)
Definition select_user (p1 : string) : select (Z * string * string * list Byte.byte) :=
  fun t => Ok (flat_map (fun r =>
    match users_coredata r with
    | Some ep => if String.eqb (users_username r) p1
                 then [(users_id r, users_username r, users_language r, ep)]
                 else []
    | None => []
    end) (users t)).

(** The rows of [ReservePincheckUpdate]'s RETURNING pin_counter, pin_block_date. *)
Definition reserve_returning (p1 p2 p3 p4 p5 : Z) : select (Z * Z) :=
  fun t => Ok (map (fun r => let r' := reserve_set p1 p2 p3 r in
                             (users_pin_counter r', users_pin_block_date r'))
                   (List.filter (reserve_where p4 p5) (users t))).

(** SELECT pin_block_date FROM irma.users WHERE id=$1 AND coredata IS NOT NULL *)
Definition select_pin_block_date (p1 : Z) : select Z :=
  fun t => Ok (map users_pin_block_date
                   (List.filter (fun r => (users_id r =? p1)
                                          && is_not_null (users_coredata r))
                                (users t))).

Section Packet.

(** [len(result.Coredata[:])], the size of the array type
    [keysharecore.EncryptedKeysharePacket]. *)
Variable EncryptedKeysharePacketLen : nat.

(** [func (db *keysharePostgresDatabase) User(username string)] *)
Definition User (username : string) : M keysharePostgresUser :=
  let* rows := Query nilTx None (select_user username) in
  match rows with
  | [] => fail ErrUserNotFound
  | (rid, rusername, rlanguage, ep) :: _ =>
      if negb (Nat.eqb (length ep) EncryptedKeysharePacketLen)
      then fail ErrInvalidRecord
      else ret (mkKeyshareUser rusername rlanguage ep rid)
  end.

End Packet.

(** [func (db *keysharePostgresDatabase) ReservePincheck(user KeyshareUser)].
    [t1], [t2] are the two readings of [time.Now().Unix()] that become
    [$1] and [$5], [t3] is the reading the wait time is computed from. *)
Definition ReservePincheck (t1 t2 t3 : Z) (userdata : keysharePostgresUser)
    : M (bool * Z * Z) :=
  let p1 := t1 - 1 - BACKOFF_START in
  let p2 := BACKOFF_START in
  let p3 := MAX_PIN_TRIES - 2 in
  let* uprows :=
    Query nilTx (Some (ReservePincheckUpdate p1 p2 p3 (id userdata) t2))
          (reserve_returning p1 p2 p3 (id userdata) t2) in
  match uprows with
  | [] =>
      let* pinrows := Query nilTx None (select_pin_block_date (id userdata)) in
      match pinrows with
      | [] => fail ErrUserNotFound
      | wait :: _ =>
          let wait := wait - t3 in
          let wait := if wait <? 0 then 0 else wait in
          ret (false, 0, wait)
      end
  | (tries, wait) :: _ =>
      let tries := MAX_PIN_TRIES - tries in
      let tries := if tries <? 0 then 0 else tries in
      let wait := wait - t3 in
      let wait := if wait <? 0 then 0 else wait in
      ret (true, tries, wait)
  end.

(** [func (db *keysharePostgresDatabase) ClearPincheck(user KeyshareUser)] *)
Definition ClearPincheck (userdata : keysharePostgresUser) : M unit :=
  let* c := Exec nilTx (ClearPincheckUpdate (id userdata)) in
  if c =? 0 then fail ErrUserNotFound else ret tt.

(** [func (db *keysharePostgresDatabase) AddEmailVerification]; [now] is
    [time.Now()] in unix seconds. *)
Definition AddEmailVerification (now : Z) (userdata : keysharePostgresUser)
    (emailAddress token : string) : M unit :=
  let* _ := Exec nilTx (InsertVerificationToken token emailAddress (id userdata)
                          (now + EMAIL_TOKEN_VALIDITY * 3600)) in
  ret tt.

(** The SET clause of [UpdateUser]. *)
Definition update_user_set (p1 p2 : string) (p3 : list Byte.byte) (r : UserRow) : UserRow :=
  mkUser (users_id r) p1 p2 (Some p3) (users_last_seen r) (users_pin_counter r)
         (users_pin_block_date r) (users_delete_on r).

(** [func (db *keysharePostgresDatabase) UpdateUser(user KeyshareUser)]:
    UPDATE irma.users SET username=$1, language=$2, coredata=$3 WHERE id=$4 *)
Definition UpdateUser (userdata : keysharePostgresUser) : M unit :=
  let* c := ExecPool
              (fun t => with_users t
                 (update (fun r => users_id r =? id userdata)
                         (update_user_set (Username userdata) (Language userdata)
                                          (Coredata userdata))
                         (users t)))
              (fun t => count (fun r => users_id r =? id userdata) (users t)) in
  if c =? 0 then fail ErrUserNotFound else ret tt.

(** [func (db *keysharePostgresDatabase) SetSeen(user KeyshareUser)] *)
Definition SetSeen (now : Z) (userdata : keysharePostgresUser) : M unit :=
  let* c := Exec nilTx (SetSeenUpdate now (id userdata)) in
  if c =? 0 then fail ErrUserNotFound else ret tt.

(** [func (db *keysharePostgresDatabase) AddLog(user, eventType, param)]:
    INSERT INTO irma.log_entry_records (time, event, param, user_id)
    VALUES ($1, $2, $3, $4).
    [param] is [None] for a nil [param], else what [json.Marshal(param)]
    returns: the encoding or an error. *)
Definition AddLog (now : Z) (userdata : keysharePostgresUser) (eventType : Z)
    (param : option (result string)) : M unit :=
  match param with
  | Some (Err err) => fail err
  | _ =>
      let encodedParamString :=
        match param with Some (Ok encodedParams) => Some encodedParams | _ => None end in
      let* _ := ExecPool
                  (fun t => with_logs t
                     (log_entry_records t
                      ++ [mkLog now eventType encodedParamString (id userdata)]))
                  (fun _ => 1) in
      ret tt
  end.

End keyshareserver.

(** ** Package myirmaserver: postgresdb.go *)

Module myirmaserver.

Definition EMAIL_TOKEN_VALIDITY : Z := 60.

Record UserEmail := mkUserEmail {
  Email : string;
  UserEmail_DeleteInProgress : bool }.

(** The struct type [UserInformation] (the name is taken by the method). *)
Record UserInformationData := mkUserInformation {
  Username : string;
  Emails : slice UserEmail;
  language : string;
  DeleteInProgress : bool }.

Record LoginCandidate := mkLoginCandidate {
  LoginCandidate_Username : string;
  LastActive : Z }.

Record LogEntry := mkLogEntry {
  Timestamp : Z;
  Event : Z;
  Param : option string }.

(** [delete_on >= $n OR delete_on IS NULL] *)
Definition active (delete_on : option Z) (now : Z) : bool :=
  null_geb delete_on now || is_null delete_on.

(** A scalar subquery: NULL on no row, an error on more than one. *)
Definition scalar {A} (rows : list A) : result (option A) :=
  match rows with
  | [] => Ok None
  | [x] => Ok (Some x)
  | _ => Err (ErrDriver "more than one row returned by a subquery used as an expression")
  end.

(** [x = sub] where [sub] may be NULL: unknown, hence not selected, on NULL. *)
Definition null_eqb (x : string) (sub : option string) : bool :=
  match sub with Some y => String.eqb x y | None => false end.

(** SELECT id FROM irma.users WHERE username = $1 *)
Definition select_user_id (p1 : string) : select Z :=
  fun t => Ok (map users_id
                   (List.filter (fun r => String.eqb (users_username r) p1) (users t))).

(** SELECT user_id, email FROM irma.email_verification_tokens
    WHERE token = $1 AND expiry >= $2 *)
Definition select_verification_token (p1 : string) (p2 : Z) : select (Z * string) :=
  fun t => Ok (map (fun r => (evt_user_id r, evt_email r))
                   (List.filter (fun r => String.eqb (evt_token r) p1 && (p2 <=? evt_expiry r))
                                (email_verification_tokens t))).

(** SELECT 1 FROM irma.emails
    WHERE email = $1 AND (delete_on >= $2 OR delete_on IS NULL) LIMIT 1 *)
Definition select_email_exists (p1 : string) (p2 : Z) : select Z :=
  fun t => Ok (firstn 1
                 (map (fun _ => 1)
                      (List.filter (fun r => String.eqb (emails_email r) p1
                                             && active (emails_delete_on r) p2)
                                   (emails t)))).

(** SELECT email FROM irma.email_login_tokens WHERE token = $1 AND expiry >= $2 *)
Definition select_login_token_email (p1 : string) (p2 : Z) (t : Tables) : list string :=
  map elt_email
      (List.filter (fun r => String.eqb (elt_token r) p1 && (p2 <=? elt_expiry r))
                   (email_login_tokens t)).

(** irma.users INNER JOIN irma.emails ON users.id = emails.user_id *)
Definition users_join_emails (t : Tables) : list (UserRow * EmailRow) :=
  flat_map (fun u => map (fun e => (u, e))
                         (List.filter (fun e => users_id u =? emails_user_id e) (emails t)))
           (users t).

(** SELECT username, last_seen FROM irma.users INNER JOIN irma.emails
      ON users.id = emails.user_id
    WHERE (emails.delete_on >= $2 OR emails.delete_on is NULL) AND
      emails.email = (SELECT email FROM irma.email_login_tokens
                      WHERE token = $1 AND expiry >= $2) *)
Definition select_candidates (p1 : string) (p2 : Z) : select (string * Z) :=
  fun t =>
    match scalar (select_login_token_email p1 p2 t) with
    | Err e => Err e
    | Ok sub =>
        Ok (map (fun ue => (users_username (fst ue), users_last_seen (fst ue)))
                (List.filter (fun ue => active (emails_delete_on (snd ue)) p2
                                        && null_eqb (emails_email (snd ue)) sub)
                             (users_join_emails t)))
    end.

(** SELECT users.id FROM irma.users INNER JOIN irma.emails
      ON users.id = emails.user_id
    WHERE username = $1 AND (emails.delete_on >= $3 OR emails.delete_on IS NULL) AND
      email = (SELECT email FROM irma.email_login_tokens
               WHERE token = $2 AND expiry >= $3) *)
Definition select_login_user (p1 p2 : string) (p3 : Z) : select Z :=
  fun t =>
    match scalar (select_login_token_email p2 p3 t) with
    | Err e => Err e
    | Ok sub =>
        Ok (map (fun ue => users_id (fst ue))
                (List.filter (fun ue => String.eqb (users_username (fst ue)) p1
                                        && active (emails_delete_on (snd ue)) p3
                                        && null_eqb (emails_email (snd ue)) sub)
                             (users_join_emails t)))
    end.

(** SELECT username, language, (coredata IS NULL) AS delete_in_progress
    FROM irma.users WHERE id = $1 *)
Definition select_user_information (p1 : Z) : select (string * string * bool) :=
  fun t => Ok (map (fun r => (users_username r, users_language r,
                              is_null (users_coredata r)))
                   (List.filter (fun r => users_id r =? p1) (users t))).

(** SELECT email, (delete_on IS NOT NULL) AS delete_in_progress
    FROM irma.emails
    WHERE user_id = $1 AND (delete_on >= $2 OR delete_on IS NULL) *)
Definition select_user_emails (p1 p2 : Z) : select (string * bool) :=
  fun t => Ok (map (fun r => (emails_email r, is_not_null (emails_delete_on r)))
                   (List.filter (fun r => (emails_user_id r =? p1)
                                          && active (emails_delete_on r) p2)
                                (emails t))).

(** ORDER BY time DESC: insertion into a list already in descending
    order, after the rows of equal time. *)
Fixpoint insert_desc (r : LogRow) (sorted : list LogRow) : list LogRow :=
  match sorted with
  | [] => [r]
  | x :: rest => if log_time x <? log_time r then r :: sorted
                 else x :: insert_desc r rest
  end.

Definition order_by_time_desc (rows : list LogRow) : list LogRow :=
  fold_left (fun acc r => insert_desc r acc) rows [].

(** SELECT time, event, param FROM irma.log_entry_records
    WHERE user_id = $1 ORDER BY time DESC OFFSET $2 LIMIT $3 *)
Definition select_logs (p1 p2 p3 : Z) : select (Z * Z * option string) :=
  fun t =>
    if p2 <? 0 then Err (ErrDriver "OFFSET must not be negative")
    else if p3 <? 0 then Err (ErrDriver "LIMIT must not be negative")
    else Ok (map (fun r => (log_time r, log_event r, log_param r))
                 (firstn (Z.to_nat p3)
                    (skipn (Z.to_nat p2)
                       (order_by_time_desc
                          (List.filter (fun r => log_user_id r =? p1)
                                       (log_entry_records t)))))).

(** [func (db *myirmaPostgresDB) UserID(username string)] *)
Definition UserID (username : string) : M Z :=
  keyshare.QueryUser nilTx (select_user_id username).

(** [func (db *myirmaPostgresDB) AddEmail(id int64, email string)] *)
Definition AddEmail (id : Z) (email : string) : M unit :=
  let* aff := keyshare.ExecCount nilTx (RestoreEmailUpdate id email) in
  if aff =? 1 then ret tt
  else
    let* _ := keyshare.ExecCount nilTx (InsertEmail id email) in
    ret tt.

(** [func (db *myirmaPostgresDB) VerifyEmailToken(tx keyshare.Tx, token string)] *)
Definition VerifyEmailToken (now : Z) (tx : keyshare.Tx) (token : string) : M Z :=
  let* tx := keyshare.assert_sqlTx tx in
  let? r := keyshare.QueryScan tx (select_verification_token token now) in
  match r with
  | Err ErrNoRows => fail ErrTokenNotFound
  | Err err => fail err
  | Ok (id, email) =>
      let* _ := AddEmail id email in
      let? d := keyshare.ExecCount tx (DeleteVerificationToken token) in
      match d with
      | Err err =>
          let* _ := Log (Error_string err) in
          ret id
      | Ok aff =>
          if negb (aff =? 1) then
            let* _ := Log (Error_string
                        (Errorf "Unexpected number of deleted records %d for token" aff)) in
            ret id
          else ret id
      end
  end.

(** [func (db *myirmaPostgresDB) RemoveUser(id int64, delay time.Duration)];
    [delay] in seconds. *)
Definition RemoveUser (now : Z) (id : Z) (delay : Z) : M unit :=
  keyshare.ExecUser nilTx (RemoveUserUpdate id (now + delay)).

(** [func (db *myirmaPostgresDB) AddEmailLoginToken] *)
Definition AddEmailLoginToken (now : Z) (tx : keyshare.Tx) (email token : string)
    : M unit :=
  let* tx := keyshare.assert_sqlTx tx in
  let? r := keyshare.QueryScan tx (select_email_exists email now) in
  match r with
  | Err ErrNoRows => fail ErrEmailNotFound
  | Err err => fail err
  | Ok _ =>
      let* aff := keyshare.ExecCount tx
                    (InsertLoginToken token email (now + EMAIL_TOKEN_VALIDITY * 60)) in
      if negb (aff =? 1)
      then fail (Errorf "Unexpected number of affected rows %d on token insert" aff)
      else ret tt
  end.

(** [func (db *myirmaPostgresDB) LoginTokenCandidates(token string)] *)
Definition LoginTokenCandidates (now : Z) (token : string) : M (slice LoginCandidate) :=
  let* candidates :=
    keyshare.QueryIterate nilTx (select_candidates token now)
      (fun row candidates =>
         Ok (append candidates (mkLoginCandidate (fst row) (snd row))))
      nilSlice in
  if len candidates =? 0 then fail ErrUserNotFound else ret candidates.

(** [func (db *myirmaPostgresDB) TryUserLoginToken(tx keyshare.Tx, token, username string)] *)
Definition TryUserLoginToken (now : Z) (tx : keyshare.Tx) (token username : string)
    : M Z :=
  let* tx := keyshare.assert_sqlTx tx in
  let* id := keyshare.QueryUser tx (select_login_user username token now) in
  let* aff := keyshare.ExecCount tx (DeleteLoginToken token) in
  if negb (aff =? 1)
  then fail (Errorf "Unexpected number of affected rows %d for token removal" aff)
  else ret id.

(** [func (db *myirmaPostgresDB) UserInformation(id int64)] *)
Definition UserInformation (now : Z) (id : Z) : M UserInformationData :=
  let* (username, lang, deleting) :=
    keyshare.QueryUser nilTx (select_user_information id) in
  let result := mkUserInformation username nilSlice lang deleting in
  keyshare.QueryIterate nilTx (select_user_emails id now)
    (fun row result =>
       Ok (mkUserInformation (Username result)
             (append (Emails result) (mkUserEmail (fst row) (snd row)))
             (language result) (DeleteInProgress result)))
    result.

(** [func (db *myirmaPostgresDB) Logs(id int64, offset, amount int)] *)
Definition Logs (id offset amount : Z) : M (slice LogEntry) :=
  keyshare.QueryIterate nilTx (select_logs id offset amount)
    (fun row result =>
       let '(time, event, param) := row in
       Ok (append result (mkLogEntry time event param)))
    nilSlice.

(** [func (db *myirmaPostgresDB) RemoveEmail(id int64, email string, delay time.Duration)];
    [delay] in seconds. *)
Definition RemoveEmail (now : Z) (id : Z) (email : string) (delay : Z) : M unit :=
  let* aff := keyshare.ExecCount nilTx (RemoveEmailUpdate id email (now + delay)) in
  if negb (aff =? 1)
  then fail (Errorf "Unexpected number of affected rows %d for email removal" aff)
  else ret tt.

(** [func (db *myirmaPostgresDB) SetSeen(tx keyshare.Tx, id int64)] *)
Definition SetSeen (now : Z) (tx : keyshare.Tx) (id : Z) : M unit :=
  let* tx := keyshare.assert_sqlTx tx in
  keyshare.ExecUser tx (SetSeenUpdate now id).

(** [func (db *myirmaPostgresDB) Tx(w, r, f)].  [f] returns the
    [server.Error] to report, [None] standing for [server.Error{}];
    [vars] are the variables of the caller that the closure [f] assigns. *)
Definition Tx {S} (vars : S)
    (f : keyshare.Tx -> S -> M (option ServerError * string * S))
    : M S :=
  let? b := BeginTx in
  match b with
  | Err err =>
      let* _ := Log "Error starting DB transaction" in
      let* _ := Write (WriteError ErrorInternal (Error_string err)) in
      ret vars
  | Ok tx =>
      let* (e, msg, vars) := f (Some tx) vars in
      match e with
      | Some e =>
          let? _ := Rollback in
          let* _ := Write (WriteError e msg) in
          ret vars
      | None =>
          let? c := Commit in
          match c with
          | Err err =>
              let* _ := Log "Error committing DB transaction" in
              let* _ := Write (WriteError ErrorInternal (Error_string err)) in
              ret vars
          | Ok _ => ret vars
          end
      end
  end.

(** *** The session store *)

Module store.

(** Modelled from the spec: the session store ([SessionStore] and its
    in-memory implementation are not among the sources).  [create]
    "mints a fresh random token, sets [expiry = now + lifetime], returns a
    session with nil [user_id]". *)
Definition create (now lifetime : Z) : M Sessiondata := fun w =>
  match entropy w with
  | [] => (Err (Panic "crypto/rand: no entropy"), w)
  | tok :: rest =>
      let session := mkSession tok None (now + lifetime) None "" in
      (Ok session, set_entropy (set_sessions w (<[tok := session]> (sessions w))) rest)
  end.

(** Modelled from the spec: the session store.  [get] "returns only if
    unexpired; on hit extends [expiry] to [now + lifetime]", and
    "returns nothing after [expiry]". *)
Definition get (now lifetime : Z) (tok : string) : M (option Sessiondata) := fun w =>
  match sessions w !! tok with
  | Some session =>
      if now <=? expiry session then
        let session := mkSession (token session) (userID session) (now + lifetime)
                                 (pendingError session) (pendingErrorMessage session) in
        (Ok (Some session), set_sessions w (<[tok := session]> (sessions w)))
      else (Ok None, w)
  | None => (Ok None, w)
  end.

(** Modelled from the spec: the session store.  [flush] "removes expired
    entries". *)
Definition flush (now : Z) : M unit := fun w =>
  (Ok tt, set_sessions w (filter (fun kv => now <= expiry (snd kv)) (sessions w))).

End store.

(** A write through a [*Sessiondata]: it changes the session object, which
    the store's map shares. *)
Definition assign (session : Sessiondata) (f : Sessiondata -> Sessiondata) : M unit :=
  fun w => (Ok tt, set_sessions w (alter f (token session) (sessions w))).

Definition set_userID (v : option Z) (s : Sessiondata) : Sessiondata :=
  mkSession (token s) v (expiry s) (pendingError s) (pendingErrorMessage s).
Definition set_expiry (v : Z) (s : Sessiondata) : Sessiondata :=
  mkSession (token s) (userID s) v (pendingError s) (pendingErrorMessage s).
Definition set_pendingError (e : option ServerError) (msg : string) (s : Sessiondata)
    : Sessiondata :=
  mkSession (token s) (userID s) (expiry s) e msg.

(** *** server.go *)

Record Configuration := mkConfiguration {
  SessionLifetime : Z }.

(** The part of [*http.Request] the handlers read: the value of the
    cookie named "session", if the request carries one. *)
Record Request := mkRequest {
  Cookie : option string }.

(** [server.Status] and [irma.ProofStatus] *)
Inductive Status :=
| StatusInitialized | StatusConnected | StatusCancelled | StatusDone | StatusTimeout.

Inductive ProofStatus :=
| ProofStatusUnset   (* the zero value, of a session that did not complete *)
| ProofStatusValid | ProofStatusInvalid | ProofStatusInvalidTimestamp
| ProofStatusUnmatchedRequest | ProofStatusMissingAttributes | ProofStatusExpired.

(** [server.SessionResult]: [Disclosed[i][j].RawValue], [None] where the
    pointer is nil. *)
Record SessionResult := mkSessionResult {
  result_Status : Status;
  result_ProofStatus : ProofStatus;
  Disclosed : list (list (option string)) }.

Definition is_done (s : Status) : bool :=
  match s with StatusDone => true | _ => false end.

Definition is_valid (p : ProofStatus) : bool :=
  match p with ProofStatusValid => true | _ => false end.

(** [*result.Disclosed[0][0].RawValue] *)
Definition first_disclosed (result : SessionResult) : M string :=
  match Disclosed result with
  | (Some v :: _) :: _ => ret v
  | (None :: _) :: _ => fail (Panic "invalid memory address or nil pointer dereference")
  | _ => fail (Panic "index out of range")
  end.

(** [*session.userID] *)
Definition deref_userID (session : Sessiondata) : M Z :=
  match userID session with
  | Some id => ret id
  | None => fail (Panic "invalid memory address or nil pointer dereference")
  end.

(** [func (s *Server) setCookie] *)
Definition setCookie (tok : string) (maxage : Z) : M unit :=
  Write (SetCookie tok maxage).

(** [func (s *Server) sessionFromCookie] *)
Definition sessionFromCookie (now : Z) (conf : Configuration) (r : Request)
    : M (option Sessiondata) :=
  match Cookie r with
  | None => ret None
  | Some value => store.get now (SessionLifetime conf) value
  end.

(** [func (s *Server) handleCheckSession] *)
Definition handleCheckSession (now : Z) (conf : Configuration) (r : Request) : M unit :=
  let* session := sessionFromCookie now conf r in
  match session with
  | None => Write (WriteString "expired")
  | Some session =>
      if is_null (userID session) then Write (WriteString "expired")
      else
        match pendingError session with
        | Some e =>
            let* _ := Write (WriteError e (pendingErrorMessage session)) in
            assign session (set_pendingError None "")
        | None =>
            if is_null (userID session) then Write (WriteString "expired")
            else Write (WriteString "ok")
        end
  end.

(** [func (s *Server) processTokenLogin] *)
Definition processTokenLogin (now : Z) (conf : Configuration) (tx : keyshare.Tx)
    (tok username : string) : M string :=
  let? r := TryUserLoginToken now tx tok username in
  match r with
  | Err ErrUserNotFound => fail ErrUserNotFound
  | Err err =>
      let* _ := Log "Could not login user using token" in
      fail err
  | Ok id =>
      let* session := store.create now (SessionLifetime conf) in
      let* _ := assign session (set_userID (Some id)) in
      let? seen := SetSeen now tx id in
      let* _ := match seen with
                | Err _ => Log "Could not update users last seen date/time"
                | Ok _ => ret tt
                end in
      ret (token session)
  end.

(** [func (s *Server) handleTokenLogin]; [body] is what [server.ParseBody]
    made of the request body. *)
Definition handleTokenLogin (now : Z) (conf : Configuration)
    (body : result (string * string)) : M unit :=
  match body with
  | Err err => Write (WriteError ErrorInvalidRequest (Error_string err))
  | Ok (tok, username) =>
      let* _ := Tx "" (fun tx _ =>
        let? r := processTokenLogin now conf tx tok username in
        match r with
        | Err ErrUserNotFound => ret (Some ErrorInvalidRequest, "Invalid login request", "")
        | Err err => ret (Some ErrorInternal, Error_string err, "")
        | Ok stoken =>
            let* _ := setCookie stoken (SessionLifetime conf) in
            let* _ := Write (WriteHeader 204) in
            ret (None, "", stoken)
        end) in
      ret tt
  end.

(** [func (s *Server) processLoginIrmaSessionResult] *)
Definition processLoginIrmaSessionResult (now : Z) (conf : Configuration)
    (sessiontoken : string) (result : SessionResult) : M unit :=
  let* session := store.get now (SessionLifetime conf) sessiontoken in
  match session with
  | None => Log "User session expired during IRMA session"
  | Some session =>
      if negb (is_done (result_Status result)) then ret tt
      else if negb (is_valid (result_ProofStatus result)) then
        let* _ := Log "received invalid login attribute" in
        assign session (set_pendingError (Some ErrorInvalidProofs) "")
      else
        let* username := first_disclosed result in
        let? r := UserID username in
        match r with
        | Err ErrUserNotFound =>
            assign session (set_pendingError (Some ErrorUserNotRegistered) "")
        | Err err =>
            let* _ := Log "Error during processing of login IRMA session result" in
            assign session (set_pendingError (Some ErrorInternal) (Error_string err))
        | Ok id =>
            let* _ := assign session (set_userID (Some id)) in
            let? seen := SetSeen now None id in
            match seen with
            | Err _ => Log "Could not update users last seen time/date"
            | Ok _ => ret tt
            end
        end
  end.

(** [func (s *Server) handleIrmaLogin]; [started] is the answer of
    [s.sessionserver.StartSession]: the QR to show, or an error.  The
    callback it registers is [processLoginIrmaSessionResult] at the new
    session's token. *)
Definition handleIrmaLogin (now : Z) (conf : Configuration) (started : result json)
    : M unit :=
  let* session := store.create now (SessionLifetime conf) in
  let sessiontoken := token session in
  match started with
  | Err err =>
      let* _ := Log "Error during startup of IRMA session for login" in
      Write (WriteError ErrorInternal (Error_string err))
  | Ok qr =>
      let* _ := setCookie sessiontoken (SessionLifetime conf) in
      Write (WriteJson qr)
  end.

(** [func (s *Server) handleVerifyEmail]; [body] is what [server.ParseBody]
    made of the request body. *)
Definition handleVerifyEmail (now : Z) (conf : Configuration) (body : result string)
    : M unit :=
  match body with
  | Err err => Write (WriteError ErrorInvalidRequest (Error_string err))
  | Ok tok =>
      let* id := Tx 0 (fun tx _ =>
        let? r := VerifyEmailToken now tx tok in
        match r with
        | Err ErrTokenNotFound =>
            let* _ := Log "Unknown email verification token" in
            ret (Some ErrorInvalidRequest, "Unknown email verification token", 0)
        | Err _ =>
            let* _ := Log "Could not verify email token" in
            ret (Some ErrorInvalidRequest, "could not verify email token", 0)
        | Ok id =>
            let* session := store.create now (SessionLifetime conf) in
            let* _ := assign session (set_userID (Some id)) in
            let* _ := setCookie (token session) (SessionLifetime conf) in
            let* _ := Write (WriteHeader 204) in
            ret (None, "", id)
        end) in
      let? seen := SetSeen now None id in
      match seen with
      | Err _ => Log "Could not update users last seen time/date"
      | Ok _ => ret tt
      end
  end.

(** [func (s *Server) logoutUser] *)
Definition logoutUser (now : Z) (conf : Configuration) (r : Request) : M unit :=
  let* session := sessionFromCookie now conf r in
  let* _ := match session with
            | Some session => assign session (set_userID None)
            | None => ret tt
            end in
  setCookie "" (-1).

(** [func (s *Server) handleLogout] *)
Definition handleLogout (now : Z) (conf : Configuration) (r : Request) : M unit :=
  let* _ := logoutUser now conf r in
  Write (WriteHeader 204).

(** [json.Marshal] on a slice: a nil slice is encoded as [null], any
    other slice as an array. *)
Definition marshal_slice {A} (f : A -> json) (s : slice A) : json :=
  match s with
  | nilSlice => JNull
  | Slice l => JArray (map f l)
  end.

(** Modelled from the spec: the JSON member names of [UserEmail] (the
    struct declaration and its tags are not among the sources). *)
Definition marshal_UserEmail (e : UserEmail) : json :=
  JObject [("email", JString (Email e));
           ("delete_in_progress", JBool (UserEmail_DeleteInProgress e))].

(** Modelled from the spec: the JSON member names of [UserInformation]
    (the struct declaration and its tags are not among the sources);
    [language] is unexported and is not encoded. *)
Definition marshal_UserInformation (u : UserInformationData) : json :=
  JObject [("username", JString (Username u));
           ("emails", marshal_slice marshal_UserEmail (Emails u));
           ("delete_in_progress", JBool (DeleteInProgress u))].

(** Modelled from the spec: the JSON member names of [LogEntry] (the
    struct declaration and its tags are not among the sources). *)
Definition marshal_LogEntry (e : LogEntry) : json :=
  JObject [("timestamp", JNumber (Timestamp e));
           ("event", JNumber (Event e));
           ("param", match Param e with Some p => JString p | None => JNull end)].

(** [func (s *Server) handleUserInfo]; [session] is the value the
    middleware stored in the request context. *)
Definition handleUserInfo (now : Z) (conf : Configuration) (session : Sessiondata)
    : M unit :=
  let* id := deref_userID session in
  let? r := UserInformation now id in
  match r with
  | Err err =>
      let* _ := Log "Problem fetching user information from database" in
      Write (WriteError ErrorInternal (Error_string err))
  | Ok userinfo =>
      let* _ := assign session (set_expiry (now + SessionLifetime conf)) in
      let* _ := setCookie (token session) (SessionLifetime conf) in
      let userinfo :=
        match Emails userinfo with
        | nilSlice => mkUserInformation (Username userinfo) (Slice [])
                        (language userinfo) (DeleteInProgress userinfo)
        | _ => userinfo
        end in
      Write (WriteJson (marshal_UserInformation userinfo))
  end.

(** [strconv.Atoi] on a decimal numeral with an optional sign, in the
    range of a 64-bit [int]. *)
Fixpoint digits (s : string) (acc : Z) : option Z :=
  match s with
  | EmptyString => Some acc
  | String c rest =>
      let d := Z.of_N (Ascii.N_of_ascii c) - 48 in
      if (0 <=? d) && (d <=? 9) then digits rest (10 * acc + d) else None
  end.

Definition Atoi (s : string) : result Z :=
  let unsigned (sign : Z) (body : string) : result Z :=
    match body with
    | EmptyString => Err (NumError "strconv.Atoi: invalid syntax")
    | _ => match digits body 0 with
           | None => Err (NumError "strconv.Atoi: invalid syntax")
           | Some n =>
               let v := sign * n in
               if (- 2 ^ 63 <=? v) && (v <? 2 ^ 63) then Ok v
               else Err (NumError "strconv.Atoi: value out of range")
           end
    end in
  match s with
  | String "-"%char body => unsigned (-1) body
  | String "+"%char body => unsigned 1 body
  | _ => unsigned 1 s
  end.

(** [func (s *Server) handleGetLogs]; [offsetS] is [chi.URLParam(r, "offset")]. *)
Definition handleGetLogs (now : Z) (conf : Configuration) (offsetS : string)
    (session : Sessiondata) : M unit :=
  match Atoi offsetS with
  | Err err =>
      let* _ := Log "Malformed offset" in
      Write (WriteError ErrorInvalidRequest (Error_string err))
  | Ok offset =>
      let* id := deref_userID session in
      let? r := Logs id offset 11 in
      match r with
      | Err err =>
          let* _ := Log "Could not load log entries" in
          Write (WriteError ErrorInternal (Error_string err))
      | Ok entries =>
          let* _ := assign session (set_expiry (now + SessionLifetime conf)) in
          let* _ := setCookie (token session) (SessionLifetime conf) in
          let entries := match entries with nilSlice => Slice [] | _ => entries end in
          Write (WriteJson (marshal_slice marshal_LogEntry entries))
      end
  end.

(** [func (s *Server) sessionMiddleware]: [next] is the handler behind it. *)
Definition sessionMiddleware (now : Z) (conf : Configuration)
    (next : Sessiondata -> M unit) (r : Request) : M unit :=
  let* session := sessionFromCookie now conf r in
  match session with
  | None =>
      let* _ := Log "Malformed request: user not logged in" in
      Write (WriteError ErrorInvalidRequest "not logged in")
  | Some session =>
      if is_null (userID session) then
        let* _ := Log "Malformed request: user not logged in" in
        Write (WriteError ErrorInvalidRequest "not logged in")
      else next session
  end.

(** Modelled from the spec: the JSON member names of [LoginCandidate] (the
    struct declaration and its tags are not among the sources). *)
Definition marshal_LoginCandidate (c : LoginCandidate) : json :=
  JObject [("username", JString (LoginCandidate_Username c));
           ("last_seen", JNumber (LastActive c))].

(** [func (s *Server) handleGetCandidates]; [body] is what
    [server.ParseBody] made of the request body. *)
Definition handleGetCandidates (now : Z) (body : result string) : M unit :=
  match body with
  | Err err => Write (WriteError ErrorInvalidRequest (Error_string err))
  | Ok tok =>
      let? r := LoginTokenCandidates now tok in
      match r with
      | Err ErrUserNotFound => Write (WriteError ErrorInvalidRequest "token invalid")
      | Err err =>
          let* _ := Log "Could not retrieve candidates for token" in
          Write (WriteError ErrorInternal (Error_string err))
      | Ok candidates => Write (WriteJson (marshal_slice marshal_LoginCandidate candidates))
      end
  end.

(** [func (s *Server) processAddEmailIrmaSessionResult] *)
Definition processAddEmailIrmaSessionResult (now : Z) (conf : Configuration)
    (sessiontoken : string) (result : SessionResult) : M unit :=
  let* session := store.get now (SessionLifetime conf) sessiontoken in
  match session with
  | None => Log "User session expired during IRMA session"
  | Some session =>
      match userID session with
      | None => Log "Unexpected logged out session during email address add"
      | Some id =>
          if negb (is_done (result_Status result)) then ret tt
          else if negb (is_valid (result_ProofStatus result)) then
            let* _ := Log "received invalid email attribute" in
            assign session (set_pendingError (Some ErrorInvalidProofs) "")
          else
            let* email := first_disclosed result in
            let? r := AddEmail id email in
            match r with
            | Err err =>
                let* _ := Log "Could not add email address to user" in
                assign session (set_pendingError (Some ErrorInternal) (Error_string err))
            | Ok _ => ret tt
            end
      end
  end.


(** *** Handlers that send mail *)

(** The part of the e-mail configuration the handlers read:
    [conf.EmailServer] and [conf.DeleteDelay] (in days). *)
Record EmailConfiguration := mkEmailConfiguration {
  EmailServer : string;
  DeleteDelay : Z }.

(** What a handler hands to [conf.SendEmail]: the template data, the
    recipients and the language. *)
Record Mail := mkMail {
  mail_data : list (string * string);
  mail_to : list string;
  mail_lang : string }.

(** The templates and subject lines of [conf.SendEmail]'s first two
    arguments: which notice is sent. *)
Inductive Notice := DeleteAccountNotice | DeleteEmailNotice | LoginEmailNotice.

Section Mailer.

(** [s.conf.SendEmail(templates, subjects, data, emails, lang)], whose
    implementation is not among the sources. *)
Variable SendEmail : Notice -> Mail -> M unit.

(** [s.conf.TranslateString(s.conf.LoginEmailBaseURL, lang)] *)
Variable LoginEmailBaseURL : string -> string.

Variable econf : EmailConfiguration.

(** [func (s *Server) sendDeleteEmails] *)
Definition sendDeleteEmails (now : Z) (session : Sessiondata) : M unit :=
  let* id := deref_userID session in
  let? r := UserInformation now id in
  match r with
  | Err err =>
      let* _ := Log "Could not fetch user information" in
      fail err
  | Ok userData =>
      let emails := map Email (elems (Emails userData)) in
      SendEmail DeleteAccountNotice
        (mkMail [("Username", Username userData)] emails (language userData))
  end.

(** [func (s *Server) handleDeleteUser]; [r] is the request, [session] the
    value the middleware stored in its context. *)
Definition handleDeleteUser (now : Z) (conf : Configuration) (r : Request)
    (session : Sessiondata) : M unit :=
  let? sent :=
    if negb (String.eqb (EmailServer econf) "")
    then sendDeleteEmails now session
    else ret tt in
  match sent with
  | Err err => Write (WriteError ErrorInternal (Error_string err))
  | Ok _ =>
      let* id := deref_userID session in
      let? removed := RemoveUser now id (24 * 3600 * DeleteDelay econf) in
      match removed with
      | Err err =>
          let* _ := Log "Problem removing user" in
          Write (WriteError ErrorInternal (Error_string err))
      | Ok _ =>
          let* _ := logoutUser now conf r in
          Write (WriteHeader 204)
      end
  end.

(** [func (s *Server) processRemoveEmail] *)
Definition processRemoveEmail (now : Z) (session : Sessiondata) (email : string)
    : M unit :=
  let* id := deref_userID session in
  let? r := UserInformation now id in
  match r with
  | Err err =>
      let* _ := Log "Error checking whether email address can be removed" in
      fail err
  | Ok info =>
      let validEmail :=
        fold_left (fun validEmail emailL =>
                     if String.eqb email (Email emailL) then true else validEmail)
                  (elems (Emails info)) false in
      if negb validEmail then
        let* _ := Log "Malformed request: invalid email address to delete" in
        fail ErrInvalidEmail
      else
        let* _ :=
          if negb (String.eqb (EmailServer econf) "")
          then SendEmail DeleteEmailNotice
                 (mkMail [("Username", Username info)] [email] (language info))
          else ret tt in
        let? removed := RemoveEmail now id email (24 * 3600 * DeleteDelay econf) in
        match removed with
        | Err err =>
            let* _ := Log "Error removing user email address" in
            fail err
        | Ok _ => ret tt
        end
  end.

(** [func (s *Server) handleRemoveEmail]; [body] is what [server.ParseBody]
    made of the request body. *)
Definition handleRemoveEmail (now : Z) (conf : Configuration) (body : result string)
    (session : Sessiondata) : M unit :=
  match body with
  | Err err => Write (WriteError ErrorInvalidRequest (Error_string err))
  | Ok email =>
      let? r := processRemoveEmail now session email in
      match r with
      | Err ErrInvalidEmail =>
          Write (WriteError ErrorInvalidRequest "Not a valid email address for user")
      | Err err => Write (WriteError ErrorInternal (Error_string err))
      | Ok _ =>
          let* _ := assign session (set_expiry (now + SessionLifetime conf)) in
          let* _ := setCookie (token session) (SessionLifetime conf) in
          Write (WriteHeader 204)
      end
  end.

(** [func (s *Server) sendLoginEmail]; [request] is the pair of
    [request.Email] and [request.Language]. *)
Definition sendLoginEmail (now : Z) (tx : keyshare.Tx) (request : string * string)
    : M unit :=
  let* tok := NewSessionToken in
  let? r := AddEmailLoginToken now tx (fst request) tok in
  match r with
  | Err ErrEmailNotFound => fail ErrEmailNotFound
  | Err err =>
      let* _ := Log "Error adding login token to database" in
      fail err
  | Ok _ =>
      let baseURL := LoginEmailBaseURL (snd request) in
      SendEmail LoginEmailNotice
        (mkMail [("TokenURL", (baseURL ++ tok)%string)] [fst request] (snd request))
  end.

(** [func (s *Server) handleEmailLogin]; [body] is what [server.ParseBody]
    made of the request body. *)
Definition handleEmailLogin (now : Z) (body : result (string * string)) : M unit :=
  if String.eqb (EmailServer econf) "" then
    Write (WriteError ErrorInternal "not enabled in configuration")
  else
    match body with
    | Err err => Write (WriteError ErrorInvalidRequest (Error_string err))
    | Ok request =>
        let* _ := Tx tt (fun tx _ =>
          let? r := sendLoginEmail now tx request in
          match r with
          | Err ErrEmailNotFound => ret (Some ErrorUserNotRegistered, "", tt)
          | Err err => ret (Some ErrorInternal, Error_string err, tt)
          | Ok _ =>
              let* _ := Write (WriteHeader 204) in
              ret (None, "", tt)
          end) in
        ret tt
    end.

End Mailer.

End myirmaserver.

(** * Specification vocabulary *)

Section PinVocabulary.

Import keyshareserver.

(** [row] is the only row of [users] whose id is [uid]. *)
Definition only_row (uid : Z) (pre : list UserRow) (row : UserRow) (post : list UserRow)
    (t : Tables) : Prop :=
  users t = pre ++ row :: post /\ users_id row = uid /\
  Forall (fun r => users_id r <> uid) pre /\
  Forall (fun r => users_id r <> uid) post.

Definition clamp (x : Z) : Z := if x <? 0 then 0 else x.

(** The row after an allowed attempt at [now]. *)
Definition attempted (now : Z) (row : UserRow) : UserRow :=
  mkUser (users_id row) (users_username row) (users_language row)
         (users_coredata row) (users_last_seen row)
         (users_pin_counter row + 1)
         ((now - 1 - 30) + 30 * 2 ^ Z.max 0 (users_pin_counter row - 1))
         (users_delete_on row).

(** Scenario S1: three attempts at [t = 1000], a fourth at [t = 1005],
    a clear, and an attempt at [t = 1040]. *)
Definition lockout_scenario (u : keysharePostgresUser) (w : World) :=
  let (r1, w1) := ReservePincheck 1000 1000 1000 u w in
  let (r2, w2) := ReservePincheck 1000 1000 1000 u w1 in
  let (r3, w3) := ReservePincheck 1000 1000 1000 u w2 in
  let (r4, w4) := ReservePincheck 1005 1005 1005 u w3 in
  let (r5, w5) := ClearPincheck u w4 in
  let (r6, _) := ReservePincheck 1040 1040 1040 u w5 in
  (r1, r2, r3, r4, r5, r6).

End PinVocabulary.

(** * Sample data *)

Module sample.

Definition conf := myirmaserver.mkConfiguration 300.

(** A fresh account: counter 0, never blocked. *)
Definition fresh : UserRow := mkUser 7 "u" "en" (Some []) 0 0 0 None.

(** The same account after [RemoveUser]. *)
Definition deleted : UserRow := mkUser 7 "u" "en" None 0 0 0 (Some 2000).

Definition handle : keyshareserver.keysharePostgresUser :=
  keyshareserver.mkKeyshareUser "u" "en" [] 7.

Definition world_of (t : Tables) : World := mkWorld t [] [] [] ∅ [] [].

Definition fresh_world : World := world_of (mkTables [fresh] [] [] [] []).

Definition deleted_world : World := world_of (mkTables [deleted] [] [] [] []).

(** An anonymous console session under token "tokA", as [handleIrmaLogin]
    leaves it. *)
Definition login_world : World :=
  mkWorld (mkTables [fresh] [] [] [] []) [] [] [] ∅ ["tokA"] [].

Definition invalid_disclosure : myirmaserver.SessionResult :=
  myirmaserver.mkSessionResult myirmaserver.StatusDone
    myirmaserver.ProofStatusInvalid [].

Definition timed_out_disclosure : myirmaserver.SessionResult :=
  myirmaserver.mkSessionResult myirmaserver.StatusTimeout
    myirmaserver.ProofStatusUnset [].

Definition valid_disclosure : myirmaserver.SessionResult :=
  myirmaserver.mkSessionResult myirmaserver.StatusDone
    myirmaserver.ProofStatusValid [[Some "u"]].

Definition cookie : myirmaserver.Request := myirmaserver.mkRequest (Some "tokA").

(** [login_world] after [handleIrmaLogin] at [t = 10]. *)
Definition anonymous_world : World :=
  snd (myirmaserver.handleIrmaLogin 10 conf (Ok JNull) login_world).

(** A session of user 7, as the middleware hands it to a handler. *)
Definition session7 : Sessiondata := mkSession "tokA" (Some 7) 310 None "".

(** User 7 with the address "e@x" bound and active. *)
Definition email_world : World :=
  world_of (mkTables [fresh] [mkEmail 7 "e@x" None] [] [] []).

(** User 7 holds the verification token "tok1" for the address "a@x";
    [fs] is what the driver will do. *)
Definition verification_world (fs : list (option string)) : World :=
  mkWorld (mkTables [fresh] [] [mkVerificationToken "tok1" "a@x" 7 86500] [] [])
          [] fs [] ∅ ["tokA"] [].

(** The driver fails on the fourth round trip: in [VerifyEmailToken],
    after the SELECT and the UPDATE and INSERT of [AddEmail], on the
    DELETE of the token. *)
Definition delete_fails : list (option string) :=
  [None; None; None; Some "context canceled"].

(** The driver fails on the sixth round trip: in [handleVerifyEmail],
    on the COMMIT. *)
Definition commit_fails : list (option string) :=
  [None; None; None; None; None; Some "connection reset"].

(** Scenario S3: bob (id 1) and carol (id 2) are both bound to
    "shared@x", and the login token "tok2" was mailed to that address. *)
Definition shared_world : World :=
  world_of (mkTables [mkUser 1 "bob" "en" (Some []) 0 0 0 None;
                      mkUser 2 "carol" "en" (Some []) 0 0 0 None]
                     [mkEmail 1 "shared@x" None; mkEmail 2 "shared@x" None]
                     [] [mkLoginToken "tok2" "shared@x" 3700] []).

Definition console_world : World :=
  mkWorld (mkTables [fresh] [] [] [] []) [] [] []
          (<["tokA" := session7]> ∅) [] [].

End sample.

Section ConsoleVocabulary.

Import myirmaserver.

(** Scenario S6: an IRMA login is started at [t = 10], the disclosure
    callback fires at [t = 20] with an invalid proof, and the client polls
    /checksession at [t = 30] and [t = 40].  The components are: the
    session after the callback, the first response, the session after it,
    the second response. *)
Definition pending_error_scenario
    : option Sessiondata * list wevent * option Sessiondata * list wevent :=
  let w1 := snd (handleIrmaLogin 10 sample.conf (Ok JNull) sample.login_world) in
  let w2 := snd (processLoginIrmaSessionResult 20 sample.conf "tokA"
                   sample.invalid_disclosure w1) in
  let w3 := snd (handleCheckSession 30 sample.conf sample.cookie (set_written w2 [])) in
  let w4 := snd (handleCheckSession 40 sample.conf sample.cookie (set_written w3 [])) in
  (sessions w2 !! "tokA", written w3, sessions w3 !! "tokA", written w4).

(** The member [k] of a JSON object. *)
Definition json_member (k : string) (j : json) : option json :=
  match j with
  | JObject members =>
      match List.find (fun m => String.eqb (fst m) k) members with
      | Some m => Some (snd m)
      | None => None
      end
  | _ => None
  end.

Definition is_array (j : json) : bool :=
  match j with JArray _ => true | _ => false end.

(** A response event of GET /user carries no null list: a JSON body has
    an array under "emails". *)
Definition user_info_event_ok (e : wevent) : bool :=
  match e with
  | WriteJson j =>
      match json_member "emails" j with
      | Some l => is_array l
      | None => false
      end
  | _ => true
  end.

(** A response event of GET /user/logs/{offset} carries no null list: a
    JSON body is an array. *)
Definition logs_event_ok (e : wevent) : bool :=
  match e with
  | WriteJson j => is_array j
  | _ => true
  end.

End ConsoleVocabulary.

(** The driver will carry out the next round trip. *)
Definition next_ok (w : World) : bool :=
  match faults w with
  | Some _ :: _ => false
  | _ => true
  end.

Section TokenVocabulary.

Import myirmaserver.

(** Scenario S2 with the transaction rolled back: a transaction is begun
    at [t = 100], "tok1" is verified in it, and it is rolled back.  The
    components are: the result of the verification, the writes the
    transaction holds after it, the committed [emails] after it, and the
    committed [emails] and tokens after the rollback. *)
Definition rollback_scenario :=
  let w1 := snd (BeginTx (sample.verification_world [])) in
  let r := VerifyEmailToken 100 (Some openTx) "tok1" w1 in
  let w3 := snd (Rollback (snd r)) in
  (fst r, pend (snd r), emails (tabs (snd r)),
   emails (tabs w3), email_verification_tokens (tabs w3)).

(** POST /verify with "tok1" at [t = 100] where the COMMIT fails.  The
    components are: the response, and the committed [emails] and tokens
    afterwards. *)
Definition failed_commit_scenario :=
  let w1 := snd (handleVerifyEmail 100 sample.conf (Ok "tok1")
                   (sample.verification_world sample.commit_fails)) in
  (written w1, emails (tabs w1), email_verification_tokens (tabs w1)).

End TokenVocabulary.

(** The number of rows of [irma.emails] for the pair [(uid, mail)]. *)
Definition rows_for (uid : Z) (mail : string) (t : Tables) : Z :=
  count (email_is uid mail) (emails t).

(** No pair [(user_id, email)] has more than one row. *)
Definition no_duplicate_emails (t : Tables) : Prop :=
  forall uid mail, rows_for uid mail t <= 1.

(** Every row of [(uid, mail)] is active with no removal scheduled. *)
Definition binding_active (uid : Z) (mail : string) (t : Tables) : Prop :=
  Forall (fun r => email_is uid mail r = true -> emails_delete_on r = None) (emails t).

(** * Vocabulary of the further properties *)

(** The log entry [Logs] makes of a row of its query. *)
Definition entry_of_row (row : Z * Z * option string) : myirmaserver.LogEntry :=
  let '(time, event, param) := row in myirmaserver.mkLogEntry time event param.


(** Some row binds [mail] to [uid] with no removal scheduled. *)
Definition has_active_binding (uid : Z) (mail : string) (t : Tables) : bool :=
  existsb (fun e => email_is uid mail e && is_null (emails_delete_on e)) (emails t).

(** A list of times is in non-increasing order. *)
Fixpoint descending (l : list Z) : Prop :=
  match l with
  | [] => True
  | x :: rest => Forall (fun y => y <= x) rest /\ descending rest
  end.

(** The entry [UserInformation] makes of a row of [irma.emails]. *)
Definition user_email_of_row (r : EmailRow) : myirmaserver.UserEmail :=
  myirmaserver.mkUserEmail (emails_email r) (is_not_null (emails_delete_on r)).

(** The rows of [irma.emails] that bind an address to [uid] at [now]. *)
Definition active_rows (uid now : Z) (t : Tables) : list EmailRow :=
  List.filter (fun r => (emails_user_id r =? uid)
                        && myirmaserver.active (emails_delete_on r) now)
              (emails t).

(** User 7 at [t = 1000] with one address past its removal date and one
    in its grace period. *)
Definition grace_world : World :=
  sample.world_of (mkTables [sample.fresh]
                     [mkEmail 7 "old@x" (Some 999); mkEmail 7 "e@x" (Some 2000)]
                     [] [] []).

(** User 7 with three log entries, in the order they were written. *)
Definition log_world : World :=
  sample.world_of (mkTables [sample.fresh] [] [] []
                     [mkLog 10 1 None 7; mkLog 30 2 None 7; mkLog 20 1 None 7]).

(** ** Vocabulary of the further properties of the handlers *)

(** [m] leaves the database as it finds it: the committed tables and the
    writes the open transaction holds. *)
Definition keeps_database {A} (m : M A) : Prop :=
  forall w, tabs (snd (m w)) = tabs w /\ pend (snd (m w)) = pend w.

(** [m] is a read of the database: it does not panic, and it changes
    nothing of the world but what the driver will do next. *)
Definition database_read {A} (m : M A) : Prop :=
  forall w, (forall msg, fst (m w) <> Err (Panic msg))
            /\ exists fs, snd (m w) = set_faults w fs.

(** The session the request [r] is logged in with at [now]: its cookie
    names a session of the store that has not expired and has a user. *)
Definition logged_in (now : Z) (r : myirmaserver.Request) (w : World)
    : option Sessiondata :=
  match myirmaserver.Cookie r with
  | None => None
  | Some tok =>
      match sessions w !! tok with
      | Some s => if (now <=? expiry s) && is_not_null (userID s) then Some s else None
      | None => None
      end
  end.

(** Every session of the store is filed under its own token, as
    [store.create] files it. *)
Definition store_ok (w : World) : Prop :=
  forall tok s, sessions w !! tok = Some s -> token s = tok.


(** [sample.console_world] after the disclosure callback of POST
    /email/add has reported an invalid proof at [t = 20]. *)
Definition flagged_world : World :=
  snd (myirmaserver.processAddEmailIrmaSessionResult 20 sample.conf "tokA"
         sample.invalid_disclosure sample.console_world).

(** [sample.shared_world] with a token left in the entropy source. *)
Definition token_login_world : World :=
  mkWorld (tabs sample.shared_world) [] [] [] ∅ ["tokS"] [].

(** A mailer whose server is down, and one that hands every mail over
    and records it in the log. *)
Definition mailer_down : myirmaserver.Notice -> myirmaserver.Mail -> M unit :=
  fun _ _ => fail (ErrDriver "dial tcp: connection refused").

Definition mailer_up : myirmaserver.Notice -> myirmaserver.Mail -> M unit :=
  fun _ m => Log (String.concat "," (myirmaserver.mail_to m)).

Definition mail_on : myirmaserver.EmailConfiguration :=
  myirmaserver.mkEmailConfiguration "smtp.example.com:25" 30.

Definition mail_off : myirmaserver.EmailConfiguration :=
  myirmaserver.mkEmailConfiguration "" 30.

(** The rows of [irma.users] of the accounts other than [uid]. *)
Definition other_accounts (uid : Z) (t : Tables) : list UserRow :=
  List.filter (fun r => negb (users_id r =? uid)) (users t).

(** From [t] to [t'] no row of [irma.users] was added or removed, and
    the rows of the accounts other than [uid] are as they were. *)
Definition touches_only (uid : Z) (t t' : Tables) : Prop :=
  other_accounts uid t' = other_accounts uid t
  /\ map users_id (users t') = map users_id (users t).

(** A statement that does not write to [irma.users]. *)
Definition spares_users (s : stmt) : bool :=
  match s with
  | ReservePincheckUpdate _ _ _ _ _ | ClearPincheckUpdate _
  | RemoveUserUpdate _ _ | SetSeenUpdate _ _ => false
  | _ => true
  end.

(** [m] leaves the accounts alone: it does not panic, it leaves
    [irma.users] and the entropy source as they are, it adds to the open
    transaction only statements that do not write to [irma.users], and it
    only adds to the response. *)
Definition leaves_users {A} (m : M A) : Prop :=
  forall w,
    (forall msg, fst (m w) <> Err (Panic msg))
    /\ users (tabs (snd (m w))) = users (tabs w)
    /\ (forallb spares_users (pend w) = true ->
        forallb spares_users (pend (snd (m w))) = true)
    /\ entropy (snd (m w)) = entropy w
    /\ exists evs, written (snd (m w)) = written w ++ evs.

(** * Properties *)

(** ** Round trips on a healthy connection *)

Lemma roundtrip_ok (w : World) : faults w = [] -> roundtrip w = (Ok tt, w).
Proof. intros H. unfold roundtrip. now rewrite H. Qed.

Lemma Query_ok {A} (s : option stmt) (q : select A) (w : World) :
  faults w = [] ->
  Query nilTx s q w =
    match q (tabs w) with
    | Ok rows => (Ok rows,
                  match s with
                  | Some s => set_tabs w (exec_stmt s (tabs w))
                  | None => w
                  end)
    | Err e => (Err e, w)
    end.
Proof.
  intros H. unfold Query, bind. rewrite (roundtrip_ok w H). reflexivity.
Qed.

Lemma Exec_ok (s : stmt) (w : World) :
  faults w = [] ->
  Exec nilTx s w = (Ok (rows_affected s (tabs w)), set_tabs w (exec_stmt s (tabs w))).
Proof.
  intros H. unfold Exec, bind. rewrite (roundtrip_ok w H). reflexivity.
Qed.

(** ** Tables with one row per key *)

Section OneRow.

Context {A : Type} (cond : A -> bool) (set : A -> A).

Lemma filter_none (t : list A) :
  Forall (fun r => cond r = false) t -> List.filter cond t = [].
Proof.
  induction 1 as [|r t Hr _ IH]; simpl; [reflexivity|]. now rewrite Hr.
Qed.

Lemma update_none (t : list A) :
  Forall (fun r => cond r = false) t -> update cond set t = t.
Proof.
  induction 1 as [|r t Hr _ IH]; simpl; [reflexivity|].
  rewrite Hr. f_equal. exact IH.
Qed.

Lemma filter_one (pre post : list A) (row : A) :
  Forall (fun r => cond r = false) pre ->
  Forall (fun r => cond r = false) post ->
  cond row = true ->
  List.filter cond (pre ++ row :: post) = [row].
Proof.
  intros Hpre Hpost Hrow. rewrite List.filter_app. simpl. rewrite Hrow.
  now rewrite (filter_none pre Hpre), (filter_none post Hpost).
Qed.

Lemma update_one (pre post : list A) (row : A) :
  Forall (fun r => cond r = false) pre ->
  Forall (fun r => cond r = false) post ->
  cond row = true ->
  update cond set (pre ++ row :: post) = pre ++ set row :: post.
Proof.
  intros Hpre Hpost Hrow. unfold update. rewrite List.map_app. simpl.
  rewrite Hrow. fold (update cond set pre) (update cond set post).
  now rewrite (update_none pre Hpre), (update_none post Hpost).
Qed.

End OneRow.

Lemma Forall_weaken_cond {A} (P : A -> Prop) (cond : A -> bool) (t : list A) :
  (forall r, P r -> cond r = false) -> Forall P t -> Forall (fun r => cond r = false) t.
Proof.
  intros H. induction 1 as [|r t Hr _ IH]; constructor; [now apply H|exact IH].
Qed.

(** ** The PIN controller *)

Section Pin.

Import keyshareserver.

Lemma other_id_reserve uid p5 (r : UserRow) :
  users_id r <> uid -> reserve_where uid p5 r = false.
Proof.
  intros H. unfold reserve_where.
  destruct (Z.eqb_spec (users_id r) uid); [contradiction|reflexivity].
Qed.

Lemma other_id_eqb uid (r : UserRow) :
  users_id r <> uid -> (users_id r =? uid) = false.
Proof. intros H. now apply Z.eqb_neq. Qed.

Lemma other_id_pin uid (r : UserRow) :
  users_id r <> uid ->
  (users_id r =? uid) && is_not_null (users_coredata r) = false.
Proof. intros H. now rewrite other_id_eqb. Qed.

Lemma clamp_max (x : Z) : clamp x = Z.max 0 x.
Proof. unfold clamp. destruct (Z.ltb_spec x 0); lia. Qed.

Lemma ReservePincheck_allowed_eq w now u pre row post :
  faults w = [] ->
  only_row (id u) pre row post (tabs w) ->
  users_pin_block_date row <= now ->
  is_not_null (users_coredata row) = true ->
  ReservePincheck now now now u w =
    (Ok (true,
         Z.max 0 (3 - (users_pin_counter row + 1)),
         Z.max 0 (users_pin_block_date (attempted now row) - now)),
     set_tabs w (with_users (tabs w) (pre ++ attempted now row :: post))).
Proof.
  intros Hf (Hu & Hid & Hpre & Hpost) Hpbd Hcd.
  assert (Hrow : reserve_where (id u) now row = true).
  { unfold reserve_where. rewrite Hid, Z.eqb_refl.
    destruct (Z.leb_spec (users_pin_block_date row) now); [|lia].
    now rewrite Hcd. }
  pose proof (Forall_weaken_cond _ _ pre (other_id_reserve (id u) now) Hpre) as Hpre'.
  pose proof (Forall_weaken_cond _ _ post (other_id_reserve (id u) now) Hpost) as Hpost'.
  unfold ReservePincheck, bind. rewrite (Query_ok _ _ w Hf).
  unfold reserve_returning, exec_stmt. rewrite Hu.
  rewrite (filter_one _ pre post row Hpre' Hpost' Hrow).
  rewrite (update_one _ _ pre post row Hpre' Hpost' Hrow).
  cbn [map]. unfold ret. cbn [users_pin_counter users_pin_block_date reserve_set].
  repeat match goal with
         | |- context [if ?x <? 0 then 0 else ?x] =>
             change (if x <? 0 then 0 else x) with (clamp x)
         end.
  rewrite !clamp_max.
  reflexivity.
Qed.

Lemma with_users_same (t : Tables) : with_users t (users t) = t.
Proof. now destruct t. Qed.

Lemma set_tabs_same (w : World) : set_tabs w (tabs w) = w.
Proof. now destruct w. Qed.

Lemma only_row_attempted uid pre row post t now :
  only_row uid pre row post t ->
  only_row uid pre (attempted now row) post
           (with_users t (pre ++ attempted now row :: post)).
Proof. intros (Hu & Hid & Hpre & Hpost). now repeat split. Qed.

Lemma only_row_cleared uid pre row post t :
  only_row uid pre row post t ->
  only_row uid pre (clear_set row) post
           (with_users t (pre ++ clear_set row :: post)).
Proof. intros (Hu & Hid & Hpre & Hpost). now repeat split. Qed.

(** A refused attempt leaves the database as it was and goes on to read
    the block date. *)
Lemma ReservePincheck_refused_eq w now u :
  faults w = [] ->
  Forall (fun r => reserve_where (id u) now r = false) (users (tabs w)) ->
  ReservePincheck now now now u w =
    match select_pin_block_date (id u) (tabs w) with
    | Ok (wait :: _) => (Ok (false, 0, Z.max 0 (wait - now)), w)
    | Ok [] => (Err ErrUserNotFound, w)
    | Err e => (Err e, w)
    end.
Proof.
  intros Hf Hall.
  unfold ReservePincheck, bind. rewrite (Query_ok _ _ w Hf).
  unfold reserve_returning, exec_stmt.
  rewrite (filter_none _ _ Hall), (update_none _ _ _ Hall).
  rewrite with_users_same, set_tabs_same. cbn [map].
  rewrite (Query_ok _ _ w Hf).
  destruct (select_pin_block_date (id u) (tabs w)) as [[|wait rest]|e];
    try reflexivity.
  unfold ret.
  change (if wait - now <? 0 then 0 else wait - now) with (clamp (wait - now)).
  now rewrite clamp_max.
Qed.

Lemma ReservePincheck_blocked_eq w now u pre row post :
  faults w = [] ->
  only_row (id u) pre row post (tabs w) ->
  now < users_pin_block_date row ->
  is_not_null (users_coredata row) = true ->
  ReservePincheck now now now u w =
    (Ok (false, 0, Z.max 0 (users_pin_block_date row - now)), w).
Proof.
  intros Hf (Hu & Hid & Hpre & Hpost) Hpbd Hcd.
  rewrite (ReservePincheck_refused_eq w now u Hf).
  - unfold select_pin_block_date. rewrite Hu.
    rewrite (filter_one _ pre post row); try reflexivity.
    + eapply Forall_weaken_cond; [apply other_id_pin|exact Hpre].
    + eapply Forall_weaken_cond; [apply other_id_pin|exact Hpost].
    + now rewrite Hid, Z.eqb_refl, Hcd.
  - rewrite Hu. apply Forall_app. split; [|constructor].
    + eapply Forall_weaken_cond; [apply other_id_reserve|exact Hpre].
    + unfold reserve_where. rewrite Hid, Z.eqb_refl.
      destruct (Z.leb_spec (users_pin_block_date row) now); [lia|reflexivity].
    + eapply Forall_weaken_cond; [apply other_id_reserve|exact Hpost].
Qed.

Lemma ReservePincheck_soft_deleted_eq w now u pre row post :
  faults w = [] ->
  only_row (id u) pre row post (tabs w) ->
  is_null (users_coredata row) = true ->
  ReservePincheck now now now u w = (Err ErrUserNotFound, w).
Proof.
  intros Hf (Hu & Hid & Hpre & Hpost) Hcd.
  assert (Hnn : is_not_null (users_coredata row) = false).
  { unfold is_null in Hcd. now destruct (is_not_null (users_coredata row)). }
  rewrite (ReservePincheck_refused_eq w now u Hf).
  - unfold select_pin_block_date. rewrite Hu.
    rewrite filter_none; [reflexivity|].
    apply Forall_app. split; [|constructor].
    + eapply Forall_weaken_cond; [apply other_id_pin|exact Hpre].
    + now rewrite Hnn, andb_false_r.
    + eapply Forall_weaken_cond; [apply other_id_pin|exact Hpost].
  - rewrite Hu. apply Forall_app. split; [|constructor].
    + eapply Forall_weaken_cond; [apply other_id_reserve|exact Hpre].
    + unfold reserve_where. now rewrite Hnn, andb_false_r.
    + eapply Forall_weaken_cond; [apply other_id_reserve|exact Hpost].
Qed.

Lemma ClearPincheck_eq w u pre row post :
  faults w = [] ->
  only_row (id u) pre row post (tabs w) ->
  ClearPincheck u w =
    (Ok tt, set_tabs w (with_users (tabs w) (pre ++ clear_set row :: post))).
Proof.
  intros Hf (Hu & Hid & Hpre & Hpost).
  unfold ClearPincheck, bind. rewrite (Exec_ok _ w Hf).
  unfold rows_affected, exec_stmt, count. rewrite Hu.
  rewrite (filter_one _ pre post row), (update_one _ _ pre post row);
    try (eapply Forall_weaken_cond; [apply other_id_eqb|assumption]);
    try (now rewrite Hid, Z.eqb_refl).
  reflexivity.
Qed.

(** C1.  A [ReservePincheck] on an existing user that is neither blocked
    nor soft-deleted, with stored failure counter [c], sets [pin_counter]
    to [c+1] and [pin_block_date] to
    [(now - 1 - 30) + 30 * 2^max(0, c - 1)] in one UPDATE and returns
    allowed, [max(0, 3 - (c+1))] tries and a wait of
    [max(0, new pin_block_date - now)].  Hence, from counter 0, three
    calls at 1000 return (true, 2, 0), (true, 1, 0), (true, 0, 29), a
    fourth at 1005 is refused with (false, 0, 24), and after
    [ClearPincheck] a call at 1040 returns (true, 2, 0). *)
Theorem ReservePincheck_allowed_and_lockout w u pre row post :
  faults w = [] ->
  only_row (id u) pre row post (tabs w) ->
  is_not_null (users_coredata row) = true ->
  (forall now,
     users_pin_block_date row <= now ->
     let c := users_pin_counter row in
     let block := (now - 1 - 30) + 30 * 2 ^ Z.max 0 (c - 1) in
     ReservePincheck now now now u w =
       (Ok (true, Z.max 0 (3 - (c + 1)), Z.max 0 (block - now)),
        set_tabs w
          (with_users (tabs w)
             (pre ++ mkUser (users_id row) (users_username row) (users_language row)
                            (users_coredata row) (users_last_seen row)
                            (c + 1) block (users_delete_on row) :: post))))
  /\
  (users_pin_counter row = 0 ->
   users_pin_block_date row <= 1000 ->
   lockout_scenario u w =
     (Ok (true, 2, 0), Ok (true, 1, 0), Ok (true, 0, 29),
      Ok (false, 0, 24), Ok tt, Ok (true, 2, 0))).
Proof.
  intros Hf Hrow Hcd. split.
  - intros now Hpbd. cbv zeta.
    exact (ReservePincheck_allowed_eq w now u pre row post Hf Hrow Hpbd Hcd).
  - intros Hc Hpbd. unfold lockout_scenario.
    (* first attempt *)
    rewrite (ReservePincheck_allowed_eq w 1000 u pre row post Hf Hrow Hpbd Hcd).
    set (row1 := attempted 1000 row).
    set (w1 := set_tabs w _).
    assert (Hrow1 : only_row (id u) pre row1 post (tabs w1))
      by (apply only_row_attempted; exact Hrow).
    assert (Hcd1 : is_not_null (users_coredata row1) = true) by exact Hcd.
    assert (Hpbd1 : users_pin_block_date row1 = 999)
      by (unfold row1, attempted; cbn; rewrite Hc; reflexivity).
    assert (Hc1 : users_pin_counter row1 = 1)
      by (unfold row1, attempted; cbn; rewrite Hc; reflexivity).
    (* second attempt *)
    rewrite (ReservePincheck_allowed_eq w1 1000 u pre row1 post Hf Hrow1
               ltac:(lia) Hcd1).
    set (row2 := attempted 1000 row1).
    set (w2 := set_tabs w1 _).
    assert (Hrow2 : only_row (id u) pre row2 post (tabs w2))
      by (apply only_row_attempted; exact Hrow1).
    assert (Hpbd2 : users_pin_block_date row2 = 999)
      by (unfold row2, row1, attempted; cbn; rewrite Hc; reflexivity).
    assert (Hc2 : users_pin_counter row2 = 2)
      by (unfold row2, row1, attempted; cbn; rewrite Hc; reflexivity).
    (* third attempt: the block starts *)
    rewrite (ReservePincheck_allowed_eq w2 1000 u pre row2 post Hf Hrow2
               ltac:(lia) Hcd).
    set (row3 := attempted 1000 row2).
    set (w3 := set_tabs w2 _).
    assert (Hrow3 : only_row (id u) pre row3 post (tabs w3))
      by (apply only_row_attempted; exact Hrow2).
    assert (Hpbd3 : users_pin_block_date row3 = 1029)
      by (unfold row3, row2, row1, attempted; cbn; rewrite Hc; reflexivity).
    (* fourth attempt, refused *)
    rewrite (ReservePincheck_blocked_eq w3 1005 u pre row3 post Hf Hrow3
               ltac:(lia) Hcd).
    (* clear, then a fresh attempt *)
    rewrite (ClearPincheck_eq w3 u pre row3 post Hf Hrow3).
    set (w5 := set_tabs w3 _).
    assert (Hrow5 : only_row (id u) pre (clear_set row3) post (tabs w5))
      by (apply only_row_cleared; exact Hrow3).
    rewrite (ReservePincheck_allowed_eq w5 1040 u pre (clear_set row3) post Hf Hrow5
               ltac:(cbn; lia) Hcd).
    rewrite Hpbd3. unfold row3, row2, row1.
    cbn [users_pin_counter users_pin_block_date clear_set attempted].
    rewrite Hc. reflexivity.
Qed.

(** The fresh account of the samples: its first attempt, and scenario S1. *)
Lemma ReservePincheck_allowed_and_lockout_witness :
  ReservePincheck 1000 1000 1000 sample.handle sample.fresh_world =
    (Ok (true, 2, 0),
     sample.world_of (mkTables [mkUser 7 "u" "en" (Some []) 0 1 999 None] [] [] [] []))
  /\ lockout_scenario sample.handle sample.fresh_world =
       (Ok (true, 2, 0), Ok (true, 1, 0), Ok (true, 0, 29),
        Ok (false, 0, 24), Ok tt, Ok (true, 2, 0)).
Proof.
  assert (Hf : faults sample.fresh_world = []) by reflexivity.
  assert (Hrow : only_row (id sample.handle) [] sample.fresh []
                          (tabs sample.fresh_world)).
  { split; [reflexivity|]. split; [reflexivity|]. split; constructor. }
  assert (Hcd : is_not_null (users_coredata sample.fresh) = true) by reflexivity.
  destruct (ReservePincheck_allowed_and_lockout
              sample.fresh_world sample.handle [] sample.fresh [] Hf Hrow Hcd)
    as [Hcall Hscenario].
  split.
  - rewrite (Hcall 1000); [reflexivity|]. simpl. lia.
  - apply Hscenario; [reflexivity|]. simpl. lia.
Defined.

(** The claim C3 read on the code: a refusal for a blocked row and for a
    soft-deleted row alike returns [(false, 0, max(0, pin_block_date - now))]
    and no error.  It fails on a soft-deleted row. *)
Lemma ReservePincheck_refusal_counterexample :
  ~ (forall w now u pre row post,
       faults w = [] ->
       only_row (id u) pre row post (tabs w) ->
       now < users_pin_block_date row \/ is_null (users_coredata row) = true ->
       fst (ReservePincheck now now now u w) =
         Ok (false, 0, Z.max 0 (users_pin_block_date row - now))).
Proof.
  intros claim.
  specialize (claim sample.deleted_world 1000 sample.handle [] sample.deleted []).
  assert (Hrow : only_row (id sample.handle) [] sample.deleted []
                          (tabs sample.deleted_world)).
  { split; [reflexivity|]. split; [reflexivity|]. split; constructor. }
  specialize (claim eq_refl Hrow (or_intror eq_refl)).
  vm_compute in claim. discriminate claim.
Qed.

(** C3, amended.  On a row that exists: a currently blocked row that is
    not soft-deleted is refused with
    [(false, 0, max(0, pin_block_date - now))], no error, nothing written;
    a soft-deleted row makes the call fail with [ErrUserNotFound],
    nothing written. *)
Theorem ReservePincheck_refusal w now u pre row post :
  faults w = [] ->
  only_row (id u) pre row post (tabs w) ->
  (now < users_pin_block_date row ->
   is_not_null (users_coredata row) = true ->
   ReservePincheck now now now u w =
     (Ok (false, 0, Z.max 0 (users_pin_block_date row - now)), w))
  /\
  (is_null (users_coredata row) = true ->
   ReservePincheck now now now u w = (Err ErrUserNotFound, w)).
Proof.
  intros Hf Hrow. split.
  - intros Hpbd Hcd. now apply (ReservePincheck_blocked_eq w now u pre row post).
  - intros Hcd. now apply (ReservePincheck_soft_deleted_eq w now u pre row post).
Qed.

(** A blocked account at [t = 1005], and the soft-deleted account. *)
Lemma ReservePincheck_refusal_witness :
  ReservePincheck 1005 1005 1005 sample.handle
      (sample.world_of (mkTables [mkUser 7 "u" "en" (Some []) 0 3 1029 None] [] [] [] []))
    = (Ok (false, 0, 24),
       sample.world_of (mkTables [mkUser 7 "u" "en" (Some []) 0 3 1029 None] [] [] [] []))
  /\ ReservePincheck 1000 1000 1000 sample.handle sample.deleted_world
    = (Err ErrUserNotFound, sample.deleted_world).
Proof.
  split.
  - apply (ReservePincheck_refusal _ 1005 sample.handle []
             (mkUser 7 "u" "en" (Some []) 0 3 1029 None) []).
    + reflexivity.
    + split; [reflexivity|]. split; [reflexivity|]. split; constructor.
    + simpl. lia.
    + reflexivity.
  - apply (ReservePincheck_refusal _ 1000 sample.handle [] sample.deleted []).
    + reflexivity.
    + split; [reflexivity|]. split; [reflexivity|]. split; constructor.
    + reflexivity.
Defined.

End Pin.

(** ** The console session layer *)

Section Console.

Import myirmaserver.

Lemma get_hit now l tok s w :
  sessions w !! tok = Some s ->
  now <= expiry s ->
  store.get now l tok w =
    (Ok (Some (set_expiry (now + l) s)),
     set_sessions w (<[tok := set_expiry (now + l) s]> (sessions w))).
Proof.
  intros H He. unfold store.get. rewrite H.
  destruct (Z.leb_spec now (expiry s)); [reflexivity|lia].
Qed.

Lemma get_miss now l tok w :
  match sessions w !! tok with
  | Some s => expiry s < now
  | None => True
  end ->
  store.get now l tok w = (Ok None, w).
Proof.
  unfold store.get. destruct (sessions w !! tok) as [s|]; [|reflexivity].
  intros He. destruct (Z.leb_spec now (expiry s)); [lia|reflexivity].
Qed.

(** What [handleCheckSession] does on any anonymous session, whatever its
    pending error: it answers "expired" and leaves the slot as it is. *)
Lemma handleCheckSession_anonymous now conf tok s w :
  sessions w !! tok = Some s ->
  now <= expiry s ->
  userID s = None ->
  handleCheckSession now conf (mkRequest (Some tok)) w =
    (Ok tt,
     set_written
       (set_sessions w (<[tok := set_expiry (now + SessionLifetime conf) s]> (sessions w)))
       (written w ++ [WriteString "expired"])).
Proof.
  intros H He Hu. unfold handleCheckSession, sessionFromCookie, bind. cbn [Cookie].
  rewrite (get_hit now _ tok s w H He). cbn [userID set_expiry]. rewrite Hu.
  reflexivity.
Qed.

(** C2, the code at the failing input (scenario S6).  After the callback
    has parked [ErrorInvalidProofs] in the anonymous session, the first
    /checksession answers "expired" and the error stays in the slot; so
    does the second. *)
Theorem handleCheckSession_drops_pending_error :
  pending_error_scenario =
    (Some (mkSession "tokA" None 320 (Some ErrorInvalidProofs) ""),
     [WriteString "expired"],
     Some (mkSession "tokA" None 330 (Some ErrorInvalidProofs) ""),
     [WriteString "expired"]).
Proof. vm_compute. reflexivity. Qed.

Lemma assign_lookup (s : Sessiondata) (f : Sessiondata -> Sessiondata) (w : World) :
  sessions w !! token s = Some s ->
  sessions (snd (assign s f w)) !! token s = Some (f s).
Proof.
  intros H. unfold assign. cbn [snd set_sessions sessions].
  now rewrite lookup_alter_eq, H.
Qed.

Lemma UserID_none (name : string) (w : World) :
  faults w = [] ->
  select_user_id name (tabs w) = Ok [] ->
  UserID name w = (Err ErrUserNotFound, w).
Proof.
  intros Hf Hq. unfold UserID, keyshare.QueryUser, keyshare.QueryScan, try, bind.
  rewrite (Query_ok _ _ w Hf), Hq. reflexivity.
Qed.

Lemma UserID_some (name : string) (uid : Z) (ids : list Z) (w : World) :
  faults w = [] ->
  select_user_id name (tabs w) = Ok (uid :: ids) ->
  UserID name w = (Ok uid, w).
Proof.
  intros Hf Hq. unfold UserID, keyshare.QueryUser, keyshare.QueryScan, try, bind.
  rewrite (Query_ok _ _ w Hf), Hq. reflexivity.
Qed.

Lemma UserID_driver_error (name msg : string) (fs : list (option string)) (w : World) :
  faults w = Some msg :: fs ->
  UserID name w = (Err (ErrDriver msg), set_faults w fs).
Proof.
  intros Hf. unfold UserID, keyshare.QueryUser, keyshare.QueryScan, try, bind,
    Query, bind, roundtrip.
  now rewrite Hf.
Qed.

(** The claim C9 read on the code: whenever the disclosure is not both
    completed and valid, the callback leaves an error in the session's
    pending slot.  A timed-out disclosure leaves none. *)
Lemma processLoginIrmaSessionResult_counterexample :
  ~ (forall now conf tok res w s,
       sessions w !! tok = Some s ->
       token s = tok ->
       now <= expiry s ->
       is_done (result_Status res) && is_valid (result_ProofStatus res) = false ->
       exists s' e,
         sessions (snd (processLoginIrmaSessionResult now conf tok res w)) !! tok
           = Some s' /\ pendingError s' = Some e).
Proof.
  intros claim.
  destruct (claim 20 sample.conf "tokA" sample.timed_out_disclosure
              (snd (handleIrmaLogin 10 sample.conf (Ok JNull) sample.login_world))
              (mkSession "tokA" None 310 None ""))
    as (s' & e & Hs & He).
  - vm_compute. reflexivity.
  - reflexivity.
  - simpl. lia.
  - reflexivity.
  - vm_compute in Hs. injection Hs as <-. discriminate He.
Qed.

(** C9, amended.  For a session that is in the store and unexpired, the
    IRMA-login callback
    - leaves the session as [get] returned it when the disclosure did not
      complete (status other than done);
    - parks [ErrorInvalidProofs] when it completed with a proof that is
      not valid;
    - on a completed and valid disclosure resolves the disclosed username:
      no such user parks [ErrorUserNotRegistered], a database error parks
      [ErrorInternal] with the error's text, and a resolved id is stored
      in [userID];
    and the three error kinds are distinct.  For a session that is absent
    or expired it only writes a log line. *)
Theorem processLoginIrmaSessionResult_outcomes now conf tok res w :
  let after := snd (processLoginIrmaSessionResult now conf tok res w) in
  (forall s,
     sessions w !! tok = Some s ->
     token s = tok ->
     now <= expiry s ->
     let s' := set_expiry (now + SessionLifetime conf) s in
     (is_done (result_Status res) = false ->
      sessions after !! tok = Some s') /\
     (is_done (result_Status res) = true ->
      is_valid (result_ProofStatus res) = false ->
      sessions after !! tok = Some (set_pendingError (Some ErrorInvalidProofs) "" s')) /\
     (forall username attrs others,
        is_done (result_Status res) = true ->
        is_valid (result_ProofStatus res) = true ->
        Disclosed res = (Some username :: attrs) :: others ->
        (faults w = [] ->
         select_user_id username (tabs w) = Ok [] ->
         sessions after !! tok =
           Some (set_pendingError (Some ErrorUserNotRegistered) "" s')) /\
        (forall msg fs,
           faults w = Some msg :: fs ->
           sessions after !! tok =
             Some (set_pendingError (Some ErrorInternal) msg s')) /\
        (forall uid ids,
           faults w = [] ->
           select_user_id username (tabs w) = Ok (uid :: ids) ->
           sessions after !! tok = Some (set_userID (Some uid) s'))))
  /\ ErrorInvalidProofs <> ErrorUserNotRegistered
  /\ ErrorInvalidProofs <> ErrorInternal
  /\ ErrorUserNotRegistered <> ErrorInternal
  /\ (match sessions w !! tok with
      | Some s => expiry s < now
      | None => True
      end ->
      processLoginIrmaSessionResult now conf tok res w =
        (Ok tt, set_logged w (logged w ++ ["User session expired during IRMA session"]))).
Proof.
  cbv zeta. split; [|repeat split; try discriminate].
  - intros s Hs Htok He.
    set (s' := set_expiry (now + SessionLifetime conf) s).
    set (w1 := set_sessions w (<[tok := s']> (sessions w))).
    assert (Hget : store.get now (SessionLifetime conf) tok w = (Ok (Some s'), w1))
      by (apply get_hit; assumption).
    assert (Hs1 : forall w', sessions w' = sessions w1 ->
                             sessions w' !! token s' = Some s').
    { intros w' ->. cbn [token s' set_expiry]. rewrite Htok.
      unfold w1. cbn [sessions set_sessions]. apply lookup_insert_eq. }
    assert (Htok' : token s' = tok) by exact Htok.
    split; [|split].
    + intros Hd. unfold processLoginIrmaSessionResult, bind. rewrite Hget, Hd.
      cbn. apply lookup_insert_eq.
    + intros Hd Hv. unfold processLoginIrmaSessionResult, bind.
      rewrite Hget, Hd, Hv. cbn [negb Log fst snd].
      rewrite <- Htok' at 1. apply assign_lookup. now apply Hs1.
    + intros username attrs others Hd Hv Hdis.
      unfold processLoginIrmaSessionResult, bind. rewrite Hget, Hd, Hv.
      cbn [negb]. unfold first_disclosed. rewrite Hdis.
      change (ret username w1) with (Ok username, w1).
      split; [|split].
      * intros Hf Hq. unfold try.
        rewrite (UserID_none username w1 Hf Hq).
        rewrite <- Htok' at 1. apply assign_lookup. now apply Hs1.
      * intros msg fs Hf. unfold try.
        rewrite (UserID_driver_error username msg fs w1 Hf).
        cbn [Log fst snd Error_string].
        rewrite <- Htok' at 1. apply assign_lookup. now apply Hs1.
      * intros uid ids Hf Hq. unfold try.
        rewrite (UserID_some username uid ids w1 Hf Hq).
        cbn. rewrite Htok. rewrite lookup_alter_eq, lookup_insert_eq.
        reflexivity.
  - intros Hmiss. unfold processLoginIrmaSessionResult, bind.
    rewrite (get_miss now _ tok w Hmiss). reflexivity.
Qed.

(** The anonymous session of the samples: a valid disclosure of "u" logs
    user 7 in, a timed-out disclosure changes nothing but the deadline. *)
Lemma processLoginIrmaSessionResult_outcomes_witness :
  sessions (snd (processLoginIrmaSessionResult 20 sample.conf "tokA"
                   sample.valid_disclosure sample.anonymous_world)) !! "tokA"
    = Some (mkSession "tokA" (Some 7) 320 None "")
  /\ sessions (snd (processLoginIrmaSessionResult 20 sample.conf "tokA"
                      sample.timed_out_disclosure sample.anonymous_world)) !! "tokA"
    = Some (mkSession "tokA" None 320 None "").
Proof.
  assert (Hs : sessions sample.anonymous_world !! "tokA"
               = Some (mkSession "tokA" None 310 None ""))
    by (vm_compute; reflexivity).
  assert (He : 20 <= expiry (mkSession "tokA" None 310 None "")) by (simpl; lia).
  split.
  - destruct (processLoginIrmaSessionResult_outcomes 20 sample.conf "tokA"
                sample.valid_disclosure sample.anonymous_world) as [H _].
    destruct (H _ Hs eq_refl He) as (_ & _ & H3).
    destruct (H3 "u" [] [] eq_refl eq_refl eq_refl) as (_ & _ & H4).
    exact (H4 7 [] eq_refl eq_refl).
  - destruct (processLoginIrmaSessionResult_outcomes 20 sample.conf "tokA"
                sample.timed_out_disclosure sample.anonymous_world) as [H _].
    destruct (H _ Hs eq_refl He) as (H1 & _).
    exact (H1 eq_refl).
Defined.

(** *** Reads leave the response alone *)

Lemma roundtrip_written (w : World) : written (snd (roundtrip w)) = written w.
Proof. unfold roundtrip. destruct (faults w) as [|[msg|] fs]; reflexivity. Qed.

Lemma Query_read_written {A} (q : select A) (w : World) :
  written (snd (Query nilTx None q w)) = written w.
Proof.
  unfold Query, bind. pose proof (roundtrip_written w) as H.
  destruct (roundtrip w) as [[[]|e] w']; cbn [snd] in *; [|exact H].
  destruct (q (view nilTx w')); exact H.
Qed.

Lemma QueryUser_written {A} (q : select A) (w : World) :
  written (snd (keyshare.QueryUser nilTx q w)) = written w.
Proof.
  unfold keyshare.QueryUser, keyshare.QueryScan, try, bind.
  pose proof (Query_read_written q w) as H.
  destruct (Query nilTx None q w) as [[[|row rows]|e] w']; cbn [snd] in *;
    try exact H.
  destruct e; exact H.
Qed.

Lemma QueryIterate_written {A S} (q : select A) (f : A -> S -> result S) (acc : S)
    (w : World) :
  written (snd (keyshare.QueryIterate nilTx q f acc w)) = written w.
Proof.
  unfold keyshare.QueryIterate, bind.
  pose proof (Query_read_written q w) as H.
  destruct (Query nilTx None q w) as [[rows|e] w']; cbn [snd] in *; [|exact H].
  destruct (keyshare.iterate f rows acc); exact H.
Qed.

Lemma UserInformation_written now uid (w : World) :
  written (snd (UserInformation now uid w)) = written w.
Proof.
  unfold UserInformation, bind.
  pose proof (QueryUser_written (select_user_information uid) w) as H.
  destruct (keyshare.QueryUser nilTx (select_user_information uid) w)
    as [[[[un lang] dip]|e] w']; cbn [snd] in *; [|exact H].
  now rewrite QueryIterate_written.
Qed.

Lemma Logs_written uid offset amount (w : World) :
  written (snd (Logs uid offset amount w)) = written w.
Proof. unfold Logs. apply QueryIterate_written. Qed.

(** *** What the database layer returns on an empty result *)

Lemma UserInformation_no_emails now uid un lang dip rest (w : World) :
  faults w = [] ->
  select_user_information uid (tabs w) = Ok ((un, lang, dip) :: rest) ->
  select_user_emails uid now (tabs w) = Ok [] ->
  UserInformation now uid w = (Ok (mkUserInformation un nilSlice lang dip), w).
Proof.
  intros Hf Hu He.
  unfold UserInformation, keyshare.QueryUser, keyshare.QueryScan,
    keyshare.QueryIterate, try, bind.
  rewrite (Query_ok _ _ w Hf), Hu. cbn. rewrite (Query_ok _ _ w Hf), He.
  reflexivity.
Qed.

Lemma Logs_no_entries uid offset amount (w : World) :
  faults w = [] ->
  select_logs uid offset amount (tabs w) = Ok [] ->
  Logs uid offset amount w = (Ok nilSlice, w).
Proof.
  intros Hf Hq. unfold Logs, keyshare.QueryIterate, bind.
  rewrite (Query_ok _ _ w Hf), Hq. reflexivity.
Qed.

(** C10.  GET /user and GET /user/logs/{offset} never send a null list:
    whatever the handlers add to the response, a JSON body of GET /user
    has an array under "emails" and a JSON body of GET /user/logs is an
    array.  For a user without active e-mail addresses, and for a log
    window without entries, where the database layer returns a nil
    slice, the body carries the empty array. *)
Theorem handlers_never_send_null_list now conf session w :
  (exists sent,
     written (snd (handleUserInfo now conf session w)) = written w ++ sent
     /\ forallb user_info_event_ok sent = true)
  /\
  (forall offsetS,
   exists sent,
     written (snd (handleGetLogs now conf offsetS session w)) = written w ++ sent
     /\ forallb logs_event_ok sent = true)
  /\
  (forall uid un lang dip rest,
     faults w = [] ->
     userID session = Some uid ->
     select_user_information uid (tabs w) = Ok ((un, lang, dip) :: rest) ->
     select_user_emails uid now (tabs w) = Ok [] ->
     written (snd (handleUserInfo now conf session w)) =
       written w ++
         [SetCookie (token session) (SessionLifetime conf);
          WriteJson (JObject [("username", JString un);
                              ("emails", JArray []);
                              ("delete_in_progress", JBool dip)])])
  /\
  (forall uid offsetS offset,
     faults w = [] ->
     userID session = Some uid ->
     Atoi offsetS = Ok offset ->
     select_logs uid offset 11 (tabs w) = Ok [] ->
     written (snd (handleGetLogs now conf offsetS session w)) =
       written w ++
         [SetCookie (token session) (SessionLifetime conf); WriteJson (JArray [])]).
Proof.
  repeat split.
  - unfold handleUserInfo, deref_userID, bind, try.
    destruct (userID session) as [uid|];
      [|exists []; split; [now rewrite app_nil_r|reflexivity]].
    cbn [ret]. pose proof (UserInformation_written now uid w) as Hw.
    destruct (UserInformation now uid w) as [[info|e] w']; cbn [snd] in Hw.
    + exists [SetCookie (token session) (SessionLifetime conf);
              WriteJson (marshal_UserInformation
                (match Emails info with
                 | nilSlice => mkUserInformation (Username info) (Slice [])
                                 (language info) (DeleteInProgress info)
                 | Slice _ => info
                 end))].
      split.
      * cbn. rewrite Hw, <- app_assoc. reflexivity.
      * destruct info as [un [|es] lang dip]; reflexivity.
    + assert (Hsent : exists sent,
                written (snd ((let* _ := Log "Problem fetching user information from database" in
                               Write (WriteError ErrorInternal (Error_string e))) w'))
                  = written w ++ sent /\ forallb user_info_event_ok sent = true).
      { exists [WriteError ErrorInternal (Error_string e)]. cbn. now rewrite Hw. }
      destruct e; try exact Hsent.
      exists []. cbn [snd]. rewrite Hw, app_nil_r. now split.
  - intros offsetS. unfold handleGetLogs.
    destruct (Atoi offsetS) as [offset|e].
    2:{ exists [WriteError ErrorInvalidRequest (Error_string e)]. now split. }
    unfold deref_userID, bind, try.
    destruct (userID session) as [uid|];
      [|exists []; split; [now rewrite app_nil_r|reflexivity]].
    cbn [ret]. pose proof (Logs_written uid offset 11 w) as Hw.
    destruct (Logs uid offset 11 w) as [[entries|e] w']; cbn [snd] in Hw.
    + exists [SetCookie (token session) (SessionLifetime conf);
              WriteJson (marshal_slice marshal_LogEntry
                (match entries with nilSlice => Slice [] | Slice _ => entries end))].
      split.
      * cbn. rewrite Hw, <- app_assoc. reflexivity.
      * destruct entries; reflexivity.
    + assert (Hsent : exists sent,
                written (snd ((let* _ := Log "Could not load log entries" in
                               Write (WriteError ErrorInternal (Error_string e))) w'))
                  = written w ++ sent /\ forallb logs_event_ok sent = true).
      { exists [WriteError ErrorInternal (Error_string e)]. cbn. now rewrite Hw. }
      destruct e; try exact Hsent.
      exists []. cbn [snd]. rewrite Hw, app_nil_r. now split.
  - intros uid un lang dip rest Hf Hu Hq He.
    unfold handleUserInfo, deref_userID, bind, try. rewrite Hu. cbn [ret].
    rewrite (UserInformation_no_emails now uid un lang dip rest w Hf Hq He).
    cbn. now rewrite <- app_assoc.
  - intros uid offsetS offset Hf Hu Ha Hq.
    unfold handleGetLogs. rewrite Ha.
    unfold deref_userID, bind, try. rewrite Hu. cbn [ret].
    rewrite (Logs_no_entries uid offset 11 w Hf Hq).
    cbn. now rewrite <- app_assoc.
Qed.

(** User 7 of the samples has no e-mail address and no log entry. *)
Lemma handlers_never_send_null_list_witness :
  written (snd (handleUserInfo 20 sample.conf sample.session7 sample.console_world))
    = [SetCookie "tokA" 300;
       WriteJson (JObject [("username", JString "u"); ("emails", JArray []);
                           ("delete_in_progress", JBool false)])]
  /\ written (snd (handleGetLogs 20 sample.conf "0" sample.session7 sample.console_world))
    = [SetCookie "tokA" 300; WriteJson (JArray [])].
Proof.
  destruct (handlers_never_send_null_list 20 sample.conf sample.session7
              sample.console_world) as (_ & _ & Hinfo & Hlogs).
  split.
  - exact (Hinfo 7 "u" "en" false [] eq_refl eq_refl eq_refl eq_refl).
  - exact (Hlogs 7 "0" 0 eq_refl eq_refl eq_refl eq_refl).
Defined.

End Console.

(** ** E-mail bindings *)

Section Emails.

Import myirmaserver.

Lemma count_nonneg {A} (cond : A -> bool) (t : list A) : 0 <= count cond t.
Proof. unfold count. lia. Qed.

Lemma count_cons {A} (cond : A -> bool) (r : A) (t : list A) :
  count cond (r :: t) = (if cond r then 1 else 0) + count cond t.
Proof. unfold count. simpl. destruct (cond r); simpl length; lia. Qed.

Lemma count_app {A} (cond : A -> bool) (t1 t2 : list A) :
  count cond (t1 ++ t2) = count cond t1 + count cond t2.
Proof. unfold count. rewrite List.filter_app, List.length_app. lia. Qed.

Lemma count_zero {A} (cond : A -> bool) (t : list A) :
  count cond t = 0 -> Forall (fun r => cond r = false) t.
Proof.
  induction t as [|r t IH]; [constructor|].
  rewrite count_cons. pose proof (count_nonneg cond t).
  destruct (cond r) eqn:Hr; [lia|]. intros H0. constructor; [exact Hr|].
  apply IH. lia.
Qed.

(** An UPDATE that leaves the key columns alone selects the same rows
    afterwards. *)
Lemma count_update {A} (cond c : A -> bool) (set : A -> A) (t : list A) :
  (forall r, cond (set r) = cond r) ->
  count cond (update c set t) = count cond t.
Proof.
  intros Hkey. induction t as [|r t IH]; [reflexivity|].
  unfold update in *. cbn [map]. rewrite !count_cons, IH.
  destruct (c r); [now rewrite Hkey|reflexivity].
Qed.

Lemma email_is_set_delete_on uid mail d (r : EmailRow) :
  email_is uid mail (email_set_delete_on d r) = email_is uid mail r.
Proof. reflexivity. Qed.

Lemma email_is_eq uid mail uid' mail' (r : EmailRow) :
  email_is uid mail r = true -> email_is uid' mail' r = true ->
  uid' = uid /\ mail' = mail.
Proof.
  unfold email_is. intros H H'.
  apply andb_true_iff in H as [H1 H2]. apply andb_true_iff in H' as [H1' H2'].
  apply Z.eqb_eq in H1, H1'. apply String.eqb_eq in H2, H2'.
  split; congruence.
Qed.

Lemma email_is_self uid mail d : email_is uid mail (mkEmail uid mail d) = true.
Proof.
  unfold email_is. cbn [emails_user_id emails_email].
  now rewrite Z.eqb_refl, String.eqb_refl.
Qed.

(** [AddEmail] on a healthy connection: restore if exactly one row
    matches, insert otherwise. *)
Lemma AddEmail_eq uid mail (w : World) :
  faults w = [] ->
  AddEmail uid mail w =
    (Ok tt,
     if count (email_is uid mail) (emails (tabs w)) =? 1
     then set_tabs w (exec_stmt (RestoreEmailUpdate uid mail) (tabs w))
     else set_tabs w (exec_stmt (InsertEmail uid mail)
                        (exec_stmt (RestoreEmailUpdate uid mail) (tabs w)))).
Proof.
  intros Hf. unfold AddEmail, keyshare.ExecCount, bind.
  rewrite (Exec_ok _ w Hf). cbn [rows_affected].
  destruct (count (email_is uid mail) (emails (tabs w)) =? 1); [reflexivity|].
  rewrite Exec_ok by exact Hf. reflexivity.
Qed.

(** A statement on the pool either fails in the driver and changes
    nothing, or takes effect and reports its row count. *)
Lemma Exec_cases (s : stmt) (w : World) :
  (exists msg, fst (Exec nilTx s w) = Err (ErrDriver msg)
               /\ tabs (snd (Exec nilTx s w)) = tabs w)
  \/ (fst (Exec nilTx s w) = Ok (rows_affected s (tabs w))
      /\ tabs (snd (Exec nilTx s w)) = exec_stmt s (tabs w)).
Proof.
  unfold Exec, bind, roundtrip.
  destruct (faults w) as [|[msg|] fs]; cbn.
  - right. now split.
  - left. exists msg. now split.
  - right. now split.
Qed.

(** Whatever the driver does, [AddEmail] leaves the tables alone, restores,
    or restores nothing and inserts. *)
Lemma AddEmail_tabs uid mail (w : World) :
  let t := tabs w in
  let t' := tabs (snd (AddEmail uid mail w)) in
  t' = t
  \/ t' = exec_stmt (RestoreEmailUpdate uid mail) t
  \/ (count (email_is uid mail) (emails t) <> 1 /\
      t' = exec_stmt (InsertEmail uid mail) (exec_stmt (RestoreEmailUpdate uid mail) t)).
Proof.
  cbv zeta. unfold AddEmail, keyshare.ExecCount, bind.
  destruct (Exec_cases (RestoreEmailUpdate uid mail) w) as [(msg & Hr & Ht)|[Hr Ht]];
    destruct (Exec nilTx (RestoreEmailUpdate uid mail) w) as [r w1];
    cbn [fst snd] in Hr, Ht; subst r.
  - left. exact Ht.
  - cbn [rows_affected].
    destruct (Z.eqb_spec (count (email_is uid mail) (emails (tabs w))) 1) as [E|E].
    + right; left. exact Ht.
    + destruct (Exec_cases (InsertEmail uid mail) w1) as [(msg & Hr' & Ht')|[Hr' Ht']];
        destruct (Exec nilTx (InsertEmail uid mail) w1) as [r' w2];
        cbn [fst snd] in Hr', Ht'; subst r'; unfold ret; cbn [snd].
      * right; left. now rewrite Ht', Ht.
      * right; right. split; [exact E|]. now rewrite Ht', Ht.
Qed.

Lemma count_le {A} (c1 c2 : A -> bool) (t : list A) :
  (forall r, c1 r = true -> c2 r = true) -> count c1 t <= count c2 t.
Proof.
  intros H. induction t as [|r t IH]; [reflexivity|].
  rewrite !count_cons. destruct (c1 r) eqn:H1; [rewrite (H r H1); lia|].
  destruct (c2 r); lia.
Qed.

Lemma count_eq_all {A} (c n : A -> bool) (t : list A) :
  count (fun r => c r && n r) t = count c t ->
  Forall (fun r => c r = true -> n r = true) t.
Proof.
  induction t as [|r t IH]; [constructor|].
  rewrite !count_cons.
  assert (Hle : count (fun r => c r && n r) t <= count c t).
  { apply count_le. intros x Hx. now apply andb_true_iff in Hx as [Hx _]. }
  destruct (c r) eqn:Hc; cbn [andb]; intros Heq.
  - destruct (n r) eqn:Hn; [|lia].
    constructor; [intros _; exact Hn|]. apply IH. lia.
  - constructor; [intros H; congruence|]. apply IH. lia.
Qed.

Lemma restore_clears uid mail (t : list EmailRow) :
  Forall (fun r => email_is uid mail r = true -> emails_delete_on r = None)
         (update (email_is uid mail) (email_set_delete_on None) t).
Proof.
  induction t as [|r t IH]; [constructor|]. cbn [update map]. constructor; [|exact IH].
  destruct (email_is uid mail r) eqn:Hr; [reflexivity|]. intros H. congruence.
Qed.

Lemma restore_same uid mail (t : list EmailRow) :
  Forall (fun r => email_is uid mail r = true -> emails_delete_on r = None) t ->
  update (email_is uid mail) (email_set_delete_on None) t = t.
Proof.
  induction 1 as [|r t Hr _ IH]; [reflexivity|]. cbn [update map].
  fold (update (email_is uid mail) (email_set_delete_on None) t). rewrite IH.
  destruct (email_is uid mail r); [|reflexivity].
  destruct r as [u e d]. cbn in *. now rewrite (Hr eq_refl).
Qed.

Lemma restore_remove_same uid mail d (t : list EmailRow) :
  Forall (fun r => email_is uid mail r = true -> is_null (emails_delete_on r) = true) t ->
  update (email_is uid mail) (email_set_delete_on None)
         (update (remove_email_where uid mail) (email_set_delete_on (Some d)) t) = t.
Proof.
  induction 1 as [|r t Hr _ IH]; [reflexivity|]. cbn [update map].
  fold (update (remove_email_where uid mail) (email_set_delete_on (Some d)) t).
  fold (update (email_is uid mail) (email_set_delete_on None)
               (update (remove_email_where uid mail) (email_set_delete_on (Some d)) t)).
  rewrite IH. f_equal. unfold remove_email_where.
  destruct (email_is uid mail r) eqn:Hc; cbn [andb].
  - rewrite (Hr eq_refl). rewrite email_is_set_delete_on, Hc.
    destruct r as [u e [x|]]; [discriminate (Hr eq_refl)|reflexivity].
  - now rewrite Hc.
Qed.

Lemma with_emails_same (t : Tables) : with_emails t (emails t) = t.
Proof. now destruct t. Qed.

Lemma RemoveEmail_ok now uid mail delay (w w1 : World) :
  faults w = [] ->
  RemoveEmail now uid mail delay w = (Ok tt, w1) ->
  count (remove_email_where uid mail) (emails (tabs w)) = 1
  /\ w1 = set_tabs w (exec_stmt (RemoveEmailUpdate uid mail (now + delay)) (tabs w)).
Proof.
  intros Hf. unfold RemoveEmail, keyshare.ExecCount, bind.
  rewrite (Exec_ok _ w Hf). cbn [rows_affected].
  destruct (Z.eqb_spec (count (remove_email_where uid mail) (emails (tabs w))) 1)
    as [E|E]; cbn [negb]; [|discriminate].
  intros [= <-]. now split.
Qed.

(** [RemoveEmail] changes no key column. *)
Lemma RemoveEmail_rows now uid mail delay (w : World) uid' mail' :
  count (email_is uid' mail') (emails (tabs (snd (RemoveEmail now uid mail delay w))))
  = count (email_is uid' mail') (emails (tabs w)).
Proof.
  unfold RemoveEmail, keyshare.ExecCount, bind.
  destruct (Exec_cases (RemoveEmailUpdate uid mail (now + delay)) w)
    as [(msg & Hr & Ht)|[Hr Ht]];
    destruct (Exec nilTx (RemoveEmailUpdate uid mail (now + delay)) w) as [r w1];
    cbn [fst snd] in Hr, Ht; subst r; cbn [snd].
  - now rewrite Ht.
  - assert (Hw1 : count (email_is uid' mail') (emails (tabs w1))
                  = count (email_is uid' mail') (emails (tabs w))).
    { rewrite Ht. cbn [exec_stmt emails with_emails].
      now rewrite count_update by (intros r; apply email_is_set_delete_on). }
    destruct (negb _); exact Hw1.
Qed.

(** C7.  [AddEmail(u, e)] never gives a pair a second row, whatever the
    driver does, and neither does [RemoveEmail].  On a healthy connection,
    where [(u, e)] has at most one row: it succeeds and leaves exactly one row for [(u, e)], with
    [delete_on] NULL; if the binding was already active nothing changes;
    and after a successful [RemoveEmail(u, e, delay)] it clears
    [delete_on] on the existing row, which gives back the tables as they
    were before the removal. *)
Theorem AddEmail_idempotent_and_restoring uid mail (w : World) :
  (no_duplicate_emails (tabs w) ->
   no_duplicate_emails (tabs (snd (AddEmail uid mail w)))
   /\ forall now delay,
        no_duplicate_emails (tabs (snd (RemoveEmail now uid mail delay w))))
  /\
  (faults w = [] ->
   rows_for uid mail (tabs w) <= 1 ->
   fst (AddEmail uid mail w) = Ok tt
   /\ rows_for uid mail (tabs (snd (AddEmail uid mail w))) = 1
   /\ binding_active uid mail (tabs (snd (AddEmail uid mail w)))
   /\ (rows_for uid mail (tabs w) = 1 ->
       binding_active uid mail (tabs w) ->
       AddEmail uid mail w = (Ok tt, w))
   /\ (forall now delay w1,
         RemoveEmail now uid mail delay w = (Ok tt, w1) ->
         rows_for uid mail (tabs w1) = 1
         /\ AddEmail uid mail w1 = (Ok tt, w))).
Proof.
  split.
  - intros Hinv. split; [|intros now delay uid' mail'; unfold rows_for;
      rewrite RemoveEmail_rows; apply Hinv].
    intros uid' mail'. unfold rows_for.
    destruct (AddEmail_tabs uid mail w) as [->|[->|[Hne ->]]].
    + apply Hinv.
    + cbn [exec_stmt emails with_emails].
      rewrite count_update by (intros r; apply email_is_set_delete_on). apply Hinv.
    + cbn [exec_stmt emails with_emails].
      rewrite count_app, count_update by (intros r; apply email_is_set_delete_on).
      rewrite count_cons. change (count (email_is uid' mail') []) with 0.
      destruct (email_is uid' mail' (mkEmail uid mail None)) eqn:Hnew.
      * pose proof (email_is_self uid mail None) as Hself.
        destruct (email_is_eq _ _ _ _ _ Hself Hnew) as [-> ->].
        pose proof (Hinv uid mail) as H1. unfold rows_for in H1.
        pose proof (count_nonneg (email_is uid mail) (emails (tabs w))). lia.
      * pose proof (Hinv uid' mail') as H1. unfold rows_for in H1. lia.
  - intros Hf Hle. unfold rows_for, binding_active in *.
    rewrite (AddEmail_eq uid mail w Hf). cbn [fst snd].
    pose proof (count_nonneg (email_is uid mail) (emails (tabs w))) as H0.
    split; [reflexivity|]. split; [|split; [|split]].
    + destruct (Z.eqb_spec (count (email_is uid mail) (emails (tabs w))) 1) as [E|E];
        cbn [tabs set_tabs exec_stmt emails with_emails].
      * now rewrite count_update by (intros r; apply email_is_set_delete_on).
      * rewrite count_app, count_update by (intros r; apply email_is_set_delete_on).
        rewrite count_cons. change (count (email_is uid mail) []) with 0.
        rewrite email_is_self. lia.
    + destruct (count (email_is uid mail) (emails (tabs w)) =? 1);
        cbn [tabs set_tabs exec_stmt emails with_emails].
      * apply restore_clears.
      * apply Forall_app. split; [apply restore_clears|].
        constructor; [reflexivity|constructor].
    + intros E Hact. rewrite E. cbn [Z.eqb Pos.eqb exec_stmt].
      rewrite (restore_same uid mail _ Hact), with_emails_same, set_tabs_same.
      reflexivity.
    + intros now delay w1 Hrem.
      destruct (RemoveEmail_ok now uid mail delay w w1 Hf Hrem) as [Hone ->].
      assert (Hcnt : count (email_is uid mail) (emails (tabs w)) = 1).
      { pose proof (count_le (remove_email_where uid mail) (email_is uid mail)
                      (emails (tabs w))) as Hl.
        unfold remove_email_where in Hl at 1.
        specialize (Hl (fun r Hr => proj1 (proj1 (andb_true_iff _ _) Hr))).
        lia. }
      assert (Hcnt1 : count (email_is uid mail)
                 (emails (tabs (set_tabs w
                    (exec_stmt (RemoveEmailUpdate uid mail (now + delay)) (tabs w))))) = 1).
      { cbn [tabs set_tabs exec_stmt emails with_emails].
        now rewrite count_update by (intros r; apply email_is_set_delete_on). }
      split; [exact Hcnt1|].
      rewrite AddEmail_eq by exact Hf. rewrite Hcnt1. cbn [Z.eqb Pos.eqb].
      cbn [tabs set_tabs exec_stmt emails with_emails].
      rewrite restore_remove_same.
      * destruct w as [[us es vs ls lg] p f l s e wr]. reflexivity.
      * apply count_eq_all. unfold remove_email_where in Hone. lia.
Qed.

(** Adding "e@x" again changes nothing; adding it after its removal gives
    back the tables. *)
Lemma AddEmail_idempotent_and_restoring_witness :
  AddEmail 7 "e@x" sample.email_world = (Ok tt, sample.email_world)
  /\ AddEmail 7 "e@x" (snd (RemoveEmail 1000 7 "e@x" 86400 sample.email_world))
     = (Ok tt, sample.email_world).
Proof.
  destruct (AddEmail_idempotent_and_restoring 7 "e@x" sample.email_world)
    as [_ H].
  destruct (H eq_refl ltac:(vm_compute; discriminate)) as (_ & _ & _ & Hsame & Hrestore).
  split.
  - apply Hsame; [reflexivity|].
    constructor; [reflexivity|constructor].
  - exact (proj2 (Hrestore 1000 86400 _ eq_refl)).
Defined.

End Emails.

(** ** Tokens and transactions *)

Section Tokens.

Import myirmaserver.

Lemma view_set_faults tx (w : World) fs : view tx (set_faults w fs) = view tx w.
Proof. now destruct tx. Qed.

Lemma view_set_logged tx (w : World) l : view tx (set_logged w l) = view tx w.
Proof. now destruct tx. Qed.

Lemma view_write tx s (w : World) : view tx (write tx s w) = exec_stmt s (view tx w).
Proof.
  destruct tx; cbn; [reflexivity|].
  unfold replay. now rewrite fold_left_app.
Qed.

(** A round trip fails in the driver, or passes and touches nothing the
    statements see. *)
Lemma roundtrip_cases (w : World) :
  (exists msg w', roundtrip w = (Err (ErrDriver msg), w'))
  \/ (exists w', roundtrip w = (Ok tt, w')
                 /\ (forall tx, view tx w' = view tx w)
                 /\ logged w' = logged w
                 /\ (forall tx s, view tx (write tx s w') = exec_stmt s (view tx w))).
Proof.
  unfold roundtrip. destruct (faults w) as [|[msg|] fs].
  - right. exists w. split; [reflexivity|]. split; [reflexivity|].
    split; [reflexivity|]. intros tx s. apply view_write.
  - left. eauto.
  - right. exists (set_faults w fs).
    split; [reflexivity|]. split; [intros tx; apply view_set_faults|].
    split; [reflexivity|]. intros tx s. now rewrite view_write, view_set_faults.
Qed.

Lemma roundtrip_next_ok (w : World) :
  next_ok w = true -> exists w', roundtrip w = (Ok tt, w') /\ forall tx, view tx w' = view tx w.
Proof.
  unfold next_ok, roundtrip. destruct (faults w) as [|[msg|] fs]; [|discriminate|]; intros _.
  - now exists w.
  - exists (set_faults w fs). split; [reflexivity|]. intros tx. apply view_set_faults.
Qed.

(** A statement either fails in the driver or is carried out. *)
Lemma ExecCount_cases tx s (w : World) d w' :
  keyshare.ExecCount tx s w = (d, w') ->
  (exists msg, d = Err (ErrDriver msg))
  \/ (d = Ok (rows_affected s (view tx w))
      /\ view tx w' = exec_stmt s (view tx w)
      /\ logged w' = logged w).
Proof.
  unfold keyshare.ExecCount, Exec, bind.
  destruct (roundtrip_cases w) as [(msg & w0 & ->)|(w0 & -> & Hv & Hl & Hw)].
  - intros [= <- <-]. left. eauto.
  - intros [= <- <-]. right. rewrite Hv. repeat split.
    + apply Hw.
    + destruct tx; exact Hl.
Qed.

Lemma delete_where_gone {A} (cond : A -> bool) (t : list A) :
  Forall (fun r => cond r = false) (delete_where cond t).
Proof.
  unfold delete_where. induction t as [|r t IH]; [constructor|]. cbn [List.filter].
  destruct (cond r) eqn:Hr; cbn [negb]; [exact IH|]. now constructor.
Qed.

(** C8.  In [VerifyEmailToken], once the token has been found and the
    e-mail address added, a DELETE of the token row that fails or reports a
    row count other than 1 is logged, and the call still returns the
    resolved user id with no error. *)
Theorem VerifyEmailToken_delete_problem_is_logged now tx tok w uid mail w1 w2 d w3 :
  keyshare.QueryScan tx (select_verification_token tok now) w = (Ok (uid, mail), w1) ->
  AddEmail uid mail w1 = (Ok tt, w2) ->
  keyshare.ExecCount tx (DeleteVerificationToken tok) w2 = (d, w3) ->
  d <> Ok 1 ->
  exists problem,
    VerifyEmailToken now (Some tx) tok w
      = (Ok uid, set_logged w3 (logged w3 ++ [problem])).
Proof.
  intros Hq Ha Hd Hne.
  unfold VerifyEmailToken, bind, try. cbn [keyshare.assert_sqlTx ret].
  rewrite Hq, Ha, Hd.
  destruct (ExecCount_cases tx _ w2 d w3 Hd) as [(msg & ->)|(-> & _ & _)].
  - exists msg. reflexivity.
  - destruct (Z.eqb_spec (rows_affected (DeleteVerificationToken tok) (view tx w2)) 1)
      as [E|E]; [now rewrite E in Hne|].
    cbn [negb]. eexists. reflexivity.
Qed.

(** The DELETE of "tok1" fails in the driver: the call logs it and
    returns user 7. *)
Lemma VerifyEmailToken_delete_problem_is_logged_witness :
  fst (VerifyEmailToken 100 (Some openTx) "tok1"
         (sample.verification_world sample.delete_fails)) = Ok 7
  /\ logged (snd (VerifyEmailToken 100 (Some openTx) "tok1"
                    (sample.verification_world sample.delete_fails)))
     = ["context canceled"].
Proof.
  set (w := sample.verification_world sample.delete_fails).
  set (q := keyshare.QueryScan openTx (select_verification_token "tok1" 100) w).
  set (a := AddEmail 7 "a@x" (snd q)).
  set (x := keyshare.ExecCount openTx (DeleteVerificationToken "tok1") (snd a)).
  destruct (VerifyEmailToken_delete_problem_is_logged 100 openTx "tok1" w 7 "a@x"
              (snd q) (snd a) (fst x) (snd x)) as [problem H].
  - vm_compute. reflexivity.
  - vm_compute. reflexivity.
  - vm_compute. reflexivity.
  - vm_compute. discriminate.
  - split; vm_compute; reflexivity.
Defined.

(** *** Redeeming a token that is not there *)

Lemma VerifyEmailToken_no_token now tx tok (w : World) :
  Forall (fun r => String.eqb (evt_token r) tok = false)
         (email_verification_tokens (view tx w)) ->
  next_ok w = true ->
  fst (VerifyEmailToken now (Some tx) tok w) = Err ErrTokenNotFound.
Proof.
  intros Hgone Hok.
  unfold VerifyEmailToken, keyshare.QueryScan, Query, bind, try.
  cbn [keyshare.assert_sqlTx ret].
  destruct (roundtrip_next_ok w Hok) as (w0 & -> & Hv). rewrite Hv.
  unfold select_verification_token. rewrite filter_none; [reflexivity|].
  eapply Forall_weaken_cond; [|exact Hgone].
  intros r Hr. cbn beta. now rewrite Hr.
Qed.

Lemma TryUserLoginToken_no_token now tx tok name (w : World) :
  Forall (fun r => String.eqb (elt_token r) tok = false)
         (email_login_tokens (view tx w)) ->
  next_ok w = true ->
  fst (TryUserLoginToken now (Some tx) tok name w) = Err ErrUserNotFound.
Proof.
  intros Hgone Hok.
  unfold TryUserLoginToken, keyshare.QueryUser, keyshare.QueryScan, Query, bind, try.
  cbn [keyshare.assert_sqlTx ret].
  destruct (roundtrip_next_ok w Hok) as (w0 & -> & Hv). rewrite Hv.
  unfold select_login_user, select_login_token_email.
  rewrite (filter_none _ (email_login_tokens (view tx w))).
  - cbn [map scalar]. rewrite filter_none; [reflexivity|].
    apply Forall_forall. intros ue _. cbn [null_eqb]. apply andb_false_r.
  - eapply Forall_weaken_cond; [|exact Hgone].
    intros r Hr. cbn beta. now rewrite Hr.
Qed.

Lemma Commit_view (w w' : World) :
  Commit w = (Ok tt, w') -> forall tx, view tx w' = view openTx w.
Proof.
  unfold Commit, bind.
  destruct (roundtrip_cases w) as [(msg & w0 & ->)|(w0 & -> & Hv & _)];
    [discriminate|].
  intros [= <-] tx. rewrite <- (Hv openTx). now destruct tx.
Qed.

(** *** What a statement on the pool does to the transaction's view *)

Lemma exec_stmt_with_emails (s : stmt) (t : Tables) (es : list EmailRow) :
  exists es', exec_stmt s (with_emails t es) = with_emails (exec_stmt s t) es'.
Proof. destruct s; eexists; reflexivity. Qed.

Lemma replay_with_emails (p : list stmt) (t : Tables) (es : list EmailRow) :
  exists es', replay p (with_emails t es) = with_emails (replay p t) es'.
Proof.
  revert t es. induction p as [|s p IH]; intros t es; [now exists es|].
  cbn [replay fold_left]. destruct (exec_stmt_with_emails s t es) as [es1 ->].
  apply IH.
Qed.

Lemma Exec_pool_pend (s : stmt) (w : World) : pend (snd (Exec nilTx s w)) = pend w.
Proof.
  unfold Exec, bind, roundtrip. destruct (faults w) as [|[msg|] fs]; reflexivity.
Qed.

Lemma AddEmail_pend uid mail (w : World) : pend (snd (AddEmail uid mail w)) = pend w.
Proof.
  unfold AddEmail, keyshare.ExecCount, bind.
  pose proof (Exec_pool_pend (RestoreEmailUpdate uid mail) w) as H1.
  destruct (Exec nilTx (RestoreEmailUpdate uid mail) w) as [[aff|e] w1];
    cbn [snd] in *; [|exact H1].
  destruct (aff =? 1); [exact H1|].
  pose proof (Exec_pool_pend (InsertEmail uid mail) w1) as H2.
  destruct (Exec nilTx (InsertEmail uid mail) w1) as [[n|e] w2];
    unfold ret; cbn [snd] in *; congruence.
Qed.

(** [AddEmail] does not touch the tokens a transaction sees. *)
Lemma AddEmail_view_tokens uid mail (w : World) :
  email_verification_tokens (view openTx (snd (AddEmail uid mail w)))
  = email_verification_tokens (view openTx w).
Proof.
  cbn [view]. rewrite AddEmail_pend.
  assert (H : exists es, tabs (snd (AddEmail uid mail w)) = with_emails (tabs w) es).
  { destruct (AddEmail_tabs uid mail w) as [->|[->|[_ ->]]].
    - exists (emails (tabs w)). now rewrite with_emails_same.
    - eexists. reflexivity.
    - eexists. reflexivity. }
  destruct H as [es ->].
  destruct (replay_with_emails (pend w) (tabs w) es) as [es' ->]. reflexivity.
Qed.

Lemma roundtrip_view (w : World) tx : view tx (snd (roundtrip w)) = view tx w.
Proof.
  unfold roundtrip. destruct (faults w) as [|[msg|] fs]; cbn [snd];
    try reflexivity; apply view_set_faults.
Qed.

Lemma QueryScan_view {A} tx (q : select A) (w : World) tx' :
  view tx' (snd (keyshare.QueryScan tx q w)) = view tx' w.
Proof.
  unfold keyshare.QueryScan, Query, bind.
  pose proof (roundtrip_view w tx') as H.
  destruct (roundtrip w) as [[[]|e] w0]; cbn [snd] in *; [|exact H].
  destruct (q (view tx w0)) as [[|row rows]|e]; exact H.
Qed.

Lemma ExecCount_failed_view tx s (w w' : World) e tx' :
  keyshare.ExecCount tx s w = (Err e, w') -> view tx' w' = view tx' w.
Proof.
  unfold keyshare.ExecCount, Exec, bind.
  pose proof (roundtrip_view w tx') as H.
  destruct (roundtrip w) as [[[]|e0] w0]; cbn [snd] in *; [discriminate|].
  now intros [= _ <-].
Qed.

(** A successful [TryUserLoginToken] has carried out its DELETE. *)
Lemma TryUserLoginToken_ok now tx tok name (w w' : World) uid :
  TryUserLoginToken now (Some tx) tok name w = (Ok uid, w') ->
  Forall (fun r => String.eqb (elt_token r) tok = false)
         (email_login_tokens (view tx w')).
Proof.
  unfold TryUserLoginToken, bind. cbn [keyshare.assert_sqlTx ret].
  destruct (keyshare.QueryUser tx (select_login_user name tok now) w) as [[id|e] w1];
    [|discriminate].
  destruct (keyshare.ExecCount tx (DeleteLoginToken tok) w1) as [d w2] eqn:Hd.
  destruct (ExecCount_cases tx _ w1 d w2 Hd) as [(msg & ->)|(-> & Hv & _)];
    [discriminate|].
  destruct (negb _); [discriminate|]. intros [= _ <-].
  rewrite Hv. cbn [exec_stmt email_login_tokens with_login_tokens].
  apply delete_where_gone.
Qed.

(** The claim C5 read on the code: a successful [VerifyEmailToken] has
    deleted the row of the token.  It fails when the driver fails on the
    DELETE of the token: the call returns the user's id, and the row is
    still in the table, in the committed table and in what the
    transaction sees, so that whatever ends the transaction the token is
    there to be redeemed again. *)
Lemma VerifyEmailToken_single_use_counterexample :
  ~ (forall now tok w uid w1,
       VerifyEmailToken now (Some openTx) tok w = (Ok uid, w1) ->
       Forall (fun r => String.eqb (evt_token r) tok = false)
              (email_verification_tokens (tabs w1))
       \/ Forall (fun r => String.eqb (evt_token r) tok = false)
                 (email_verification_tokens (view openTx w1))).
Proof.
  intros claim.
  set (w := sample.verification_world sample.delete_fails).
  set (r1 := VerifyEmailToken 100 (Some openTx) "tok1" w).
  assert (H1 : VerifyEmailToken 100 (Some openTx) "tok1" w = (Ok 7, snd r1))
    by (vm_compute; reflexivity).
  destruct (claim 100 "tok1" w 7 (snd r1) H1) as [H|H];
    vm_compute in H; inversion H as [|r l Hr _]; discriminate Hr.
Qed.

(** The run behind it, to the end: the DELETE of "tok1" fails, the
    transaction is rolled back, and in the next transaction the same
    token is redeemed a second time. *)
Example VerifyEmailToken_redeemed_twice :
  let r1 := VerifyEmailToken 100 (Some openTx) "tok1"
              (sample.verification_world sample.delete_fails) in
  let w2 := snd (BeginTx (snd (Rollback (snd r1)))) in
  fst r1 = Ok 7
  /\ fst (Rollback (snd r1)) = Ok tt
  /\ fst (VerifyEmailToken 200 (Some openTx) "tok1" w2) = Ok 7.
Proof. vm_compute. repeat split. Qed.

(** C5, amended.  A [VerifyEmailToken] that found the token, added the
    e-mail address and had its DELETE of the token carried out returns the
    user id, and from then on the same token is not found, in the same
    transaction and after its commit; one whose DELETE failed in the
    database returns the user id as well and leaves the tokens the
    transaction sees as they were.  A successful [TryUserLoginToken]
    has deleted the login token (a failed delete or a row count other than
    1 is an error), so that repeating the call in the same transaction or
    after its commit fails with [ErrUserNotFound]. *)
Theorem tokens_single_use now tok (w : World) :
  (forall uid mail w1 w2 n w3,
     keyshare.QueryScan openTx (select_verification_token tok now) w
       = (Ok (uid, mail), w1) ->
     AddEmail uid mail w1 = (Ok tt, w2) ->
     keyshare.ExecCount openTx (DeleteVerificationToken tok) w2 = (Ok n, w3) ->
     let w' := snd (VerifyEmailToken now (Some openTx) tok w) in
     fst (VerifyEmailToken now (Some openTx) tok w) = Ok uid
     /\ (forall now',
           next_ok w' = true ->
           fst (VerifyEmailToken now' (Some openTx) tok w') = Err ErrTokenNotFound)
     /\ (forall w'' tx now',
           Commit w' = (Ok tt, w'') ->
           next_ok w'' = true ->
           fst (VerifyEmailToken now' (Some tx) tok w'') = Err ErrTokenNotFound))
  /\
  (forall uid mail w1 w2 e w3,
     keyshare.QueryScan openTx (select_verification_token tok now) w
       = (Ok (uid, mail), w1) ->
     AddEmail uid mail w1 = (Ok tt, w2) ->
     keyshare.ExecCount openTx (DeleteVerificationToken tok) w2 = (Err e, w3) ->
     let w' := snd (VerifyEmailToken now (Some openTx) tok w) in
     fst (VerifyEmailToken now (Some openTx) tok w) = Ok uid
     /\ email_verification_tokens (view openTx w')
        = email_verification_tokens (view openTx w))
  /\
  (forall name uid w',
     TryUserLoginToken now (Some openTx) tok name w = (Ok uid, w') ->
     (forall now' name',
        next_ok w' = true ->
        fst (TryUserLoginToken now' (Some openTx) tok name' w') = Err ErrUserNotFound)
     /\ (forall w'' tx now' name',
           Commit w' = (Ok tt, w'') ->
           next_ok w'' = true ->
           fst (TryUserLoginToken now' (Some tx) tok name' w'') = Err ErrUserNotFound)).
Proof.
  split; [|split].
  - intros uid mail w1 w2 n w3 Hq Ha Hd. cbv zeta.
    assert (Hrun : fst (VerifyEmailToken now (Some openTx) tok w) = Ok uid
                   /\ view openTx (snd (VerifyEmailToken now (Some openTx) tok w))
                      = view openTx w3
                   /\ faults (snd (VerifyEmailToken now (Some openTx) tok w))
                      = faults w3).
    { unfold VerifyEmailToken, bind, try. cbn [keyshare.assert_sqlTx ret].
      rewrite Hq, Ha, Hd. destruct (negb (n =? 1)); now repeat split. }
    destruct Hrun as (Hfst & Hview & Hfaults).
    destruct (ExecCount_cases openTx _ w2 _ w3 Hd) as [(msg & [=])|(_ & Hv & _)].
    assert (Hgone : Forall (fun r => String.eqb (evt_token r) tok = false)
              (email_verification_tokens
                 (view openTx (snd (VerifyEmailToken now (Some openTx) tok w))))).
    { rewrite Hview, Hv.
      cbn [exec_stmt email_verification_tokens with_verification_tokens].
      apply delete_where_gone. }
    split; [exact Hfst|]. split.
    + intros now' Hok. now apply VerifyEmailToken_no_token.
    + intros w'' tx now' Hc Hok. apply VerifyEmailToken_no_token; [|exact Hok].
      now rewrite (Commit_view _ _ Hc tx).
  - intros uid mail w1 w2 e w3 Hq Ha Hd. cbv zeta.
    destruct (ExecCount_cases openTx _ w2 _ w3 Hd) as [(msg & [= ->])|([=] & _)].
    assert (Hrun : VerifyEmailToken now (Some openTx) tok w
                   = (Ok uid, set_logged w3 (logged w3 ++ [msg]))).
    { unfold VerifyEmailToken, bind, try. cbn [keyshare.assert_sqlTx ret].
      now rewrite Hq, Ha, Hd. }
    rewrite Hrun. cbn [fst snd]. split; [reflexivity|].
    rewrite view_set_logged, (ExecCount_failed_view _ _ _ _ _ openTx Hd).
    replace w2 with (snd (AddEmail uid mail w1)) by now rewrite Ha.
    rewrite AddEmail_view_tokens.
    replace w1 with (snd (keyshare.QueryScan openTx
                            (select_verification_token tok now) w)) by now rewrite Hq.
    now rewrite QueryScan_view.
  - intros name uid w' Hrun.
    pose proof (TryUserLoginToken_ok now openTx tok name w w' uid Hrun) as Hgone.
    split.
    + intros now' name' Hok. now apply TryUserLoginToken_no_token.
    + intros w'' tx now' name' Hc Hok. apply TryUserLoginToken_no_token; [|exact Hok].
      now rewrite (Commit_view _ _ Hc tx).
Qed.

(** Scenarios S2 and S3: each token is redeemed once. *)
Lemma tokens_single_use_witness :
  (fst (VerifyEmailToken 100 (Some openTx) "tok1" (sample.verification_world [])) = Ok 7
   /\ fst (VerifyEmailToken 200 (Some openTx) "tok1"
             (snd (VerifyEmailToken 100 (Some openTx) "tok1"
                     (sample.verification_world []))))
      = Err ErrTokenNotFound)
  /\ fst (TryUserLoginToken 200 (Some openTx) "tok2" "bob"
            (snd (TryUserLoginToken 100 (Some openTx) "tok2" "bob" sample.shared_world)))
     = Err ErrUserNotFound.
Proof.
  split.
  - set (w := sample.verification_world []).
    set (q := keyshare.QueryScan openTx (select_verification_token "tok1" 100) w).
    set (a := AddEmail 7 "a@x" (snd q)).
    set (x := keyshare.ExecCount openTx (DeleteVerificationToken "tok1") (snd a)).
    destruct (tokens_single_use 100 "tok1" w) as (H & _ & _).
    destruct (H 7 "a@x" (snd q) (snd a) 1 (snd x)) as (H1 & H2 & _).
    + vm_compute. reflexivity.
    + vm_compute. reflexivity.
    + vm_compute. reflexivity.
    + split; [exact H1|]. apply H2. vm_compute. reflexivity.
  - destruct (tokens_single_use 100 "tok2" sample.shared_world) as (_ & _ & H).
    destruct (H "bob" 1 (snd (TryUserLoginToken 100 (Some openTx) "tok2" "bob"
                                sample.shared_world))) as [H1 _].
    + vm_compute. reflexivity.
    + apply H1. vm_compute. reflexivity.
Defined.

(** C6, the code at the failing input.  [VerifyEmailToken] writes the
    e-mail binding through the pool, not through the transaction it is
    given: after the call the transaction holds the DELETE of the token
    only and the binding is already committed, so a rollback undoes the
    consumption of the token and keeps the binding; and in POST /verify a
    failed COMMIT answers with an error, keeps the binding and leaves the
    token redeemable. *)
Theorem VerifyEmailToken_binds_outside_transaction :
  rollback_scenario =
    (Ok 7,
     [DeleteVerificationToken "tok1"],
     [mkEmail 7 "a@x" None],
     [mkEmail 7 "a@x" None],
     [mkVerificationToken "tok1" "a@x" 7 86500])
  /\ failed_commit_scenario =
    ([SetCookie "tokA" 300; WriteHeader 204;
      WriteError ErrorInternal "connection reset"],
     [mkEmail 7 "a@x" None],
     [mkVerificationToken "tok1" "a@x" 7 86500]).
Proof. split; vm_compute; reflexivity. Qed.

End Tokens.

(** ** Soft deletion and lookups by username *)

Section SoftDelete.

Import myirmaserver.

Lemma select_user_removed name uid d (t : Tables) :
  Forall (fun r => String.eqb (users_username r) name = true -> users_id r = uid)
         (users t) ->
  keyshareserver.select_user name (exec_stmt (RemoveUserUpdate uid d) t) = Ok [].
Proof.
  unfold keyshareserver.select_user. cbn [exec_stmt users with_users]. intros H. f_equal.
  induction H as [|r us Hr _ IH]; [reflexivity|].
  cbn [update map flat_map]. fold (update (remove_user_where uid) (remove_user_set d) us).
  rewrite IH, app_nil_r. unfold remove_user_where.
  destruct (Z.eqb_spec (users_id r) uid) as [E|E]; cbn [andb].
  - destruct (users_coredata r) eqn:Hc; cbn [is_not_null]; [reflexivity|].
    now rewrite Hc.
  - destruct (users_coredata r); [|reflexivity].
    destruct (String.eqb (users_username r) name); [|reflexivity].
    elim E. now apply Hr.
Qed.

Lemma select_user_id_removed name uid d (t : Tables) :
  select_user_id name (exec_stmt (RemoveUserUpdate uid d) t) = select_user_id name t.
Proof.
  unfold select_user_id. cbn [exec_stmt users with_users]. f_equal.
  induction (users t) as [|r us IH]; [reflexivity|].
  cbn [update map List.filter].
  fold (update (remove_user_where uid) (remove_user_set d) us).
  destruct (remove_user_where uid r); cbn [users_username remove_user_set];
    destruct (String.eqb (users_username r) name); cbn [map]; now rewrite IH.
Qed.

Lemma RemoveUser_ok now uid delay (w w' : World) :
  faults w = [] ->
  RemoveUser now uid delay w = (Ok tt, w') ->
  w' = set_tabs w (exec_stmt (RemoveUserUpdate uid (now + delay)) (tabs w)).
Proof.
  intros Hf. unfold RemoveUser, keyshare.ExecUser, keyshare.ExecCount, bind.
  rewrite (Exec_ok _ w Hf). destruct (negb _); [discriminate|]. now intros [= <-].
Qed.

(** The claim C4 read on the code: after [RemoveUser] has soft-deleted the
    account, [UserID] of its username reports that there is no such user.
    It resolves the row. *)
Lemma UserID_soft_deleted_counterexample :
  ~ (forall now uid delay name w w',
       faults w = [] ->
       Forall (fun r => users_id r = uid -> users_username r = name) (users (tabs w)) ->
       RemoveUser now uid delay w = (Ok tt, w') ->
       fst (UserID name w') = Err ErrUserNotFound).
Proof.
  intros claim.
  specialize (claim 1000 7 1000 "u" sample.fresh_world sample.deleted_world eq_refl).
  assert (H : Forall (fun r => users_id r = 7 -> users_username r = "u")
                     (users (tabs sample.fresh_world)))
    by (constructor; [reflexivity|constructor]).
  specialize (claim H eq_refl). vm_compute in claim. discriminate claim.
Qed.

(** C4, amended.  After [RemoveUser] has soft-deleted the one account that
    holds a username, [User(username)] of the keyshare store ignores the
    row and returns [ErrUserNotFound]; [UserID(username)] of the MyIRMA
    store selects by username alone and still returns the row's id. *)
Theorem lookups_after_RemoveUser packet now uid delay name (w w' : World) :
  faults w = [] ->
  Forall (fun r => String.eqb (users_username r) name = true -> users_id r = uid)
         (users (tabs w)) ->
  RemoveUser now uid delay w = (Ok tt, w') ->
  keyshareserver.User packet name w' = (Err ErrUserNotFound, w')
  /\ (forall x xs,
        select_user_id name (tabs w) = Ok (x :: xs) ->
        UserID name w' = (Ok uid, w')).
Proof.
  intros Hf Hname Hrem.
  pose proof (RemoveUser_ok now uid delay w w' Hf Hrem) as ->.
  split.
  - unfold keyshareserver.User, bind. rewrite Query_ok by exact Hf.
    cbn [tabs set_tabs].
    now rewrite (select_user_removed name uid (now + delay) _ Hname).
  - intros x xs Hsel.
    assert (Hx : x = uid).
    { unfold select_user_id in Hsel. injection Hsel as Hsel.
      induction Hname as [|r us Hr _ IH]; [discriminate|].
      cbn [List.filter] in Hsel.
      destruct (String.eqb (users_username r) name) eqn:E.
      - cbn [map] in Hsel. injection Hsel as <- _. now apply Hr.
      - now apply IH. }
    subst x. apply (UserID_some name uid xs); [exact Hf|].
    cbn [tabs set_tabs]. now rewrite select_user_id_removed.
Qed.

(** The account of the samples after its removal. *)
Lemma lookups_after_RemoveUser_witness :
  keyshareserver.User 0 "u" sample.deleted_world = (Err ErrUserNotFound, sample.deleted_world)
  /\ UserID "u" sample.deleted_world = (Ok 7, sample.deleted_world).
Proof.
  destruct (lookups_after_RemoveUser 0%nat 1000 7 1000 "u"
              sample.fresh_world sample.deleted_world) as [H1 H2].
  - reflexivity.
  - constructor; [reflexivity|constructor].
  - reflexivity.
  - split; [exact H1|]. exact (H2 7 [] eq_refl).
Defined.

End SoftDelete.

(** ** Further scenarios of the specification, run on the model *)

Section Scenarios.

Import myirmaserver.

(** S3: both owners of the address are candidates of the login token. *)
Example login_candidates :
  fst (LoginTokenCandidates 100 "tok2" sample.shared_world)
    = Ok (Slice [mkLoginCandidate "bob" 0; mkLoginCandidate "carol" 0]).
Proof. reflexivity. Qed.

(** S3: the token logs bob in, and the session it mints is his. *)
Example token_login :
  let w := snd (handleTokenLogin 100 sample.conf (Ok ("tok2", "bob"))
                  (set_entropy sample.shared_world ["tokB"])) in
  written w = [SetCookie "tokB" 300; WriteHeader 204]
  /\ sessions w !! "tokB" = Some (mkSession "tokB" (Some 1) 400 None "")
  /\ email_login_tokens (tabs w) = [].
Proof. vm_compute. repeat split. Qed.

(** S5: a second [RemoveUser] finds no row to update. *)
Example remove_user_twice :
  RemoveUser 1000 7 1000 sample.fresh_world = (Ok tt, sample.deleted_world)
  /\ fst (RemoveUser 1000 7 1000 sample.deleted_world) = Err ErrUserNotFound.
Proof. split; reflexivity. Qed.

(** The login e-mail is refused for an address nobody holds. *)
Example login_token_unknown_address :
  fst (AddEmailLoginToken 100 (Some openTx) "nobody@x" "tok3" sample.shared_world)
    = Err ErrEmailNotFound.
Proof. reflexivity. Qed.

(** The sweeper drops a session once its deadline has passed, and a
    request with its cookie is then not logged in. *)
Example flushed_session :
  let w := snd (store.flush 311 sample.console_world) in
  sessions w !! "tokA" = None
  /\ written (snd (sessionMiddleware 311 sample.conf
                     (handleUserInfo 311 sample.conf) sample.cookie w))
     = [WriteError ErrorInvalidRequest "not logged in"].
Proof. vm_compute. split; reflexivity. Qed.

(** /logout makes the session anonymous and clears the cookie. *)
Example logged_out :
  let w := snd (handleLogout 20 sample.conf sample.cookie sample.console_world) in
  written w = [SetCookie "" (-1); WriteHeader 204]
  /\ sessions w !! "tokA" = Some (mkSession "tokA" None 320 None "").
Proof. vm_compute. split; reflexivity. Qed.

(** The verification token of S2 is what [AddEmailVerification] stores. *)
Example verification_token_added :
  tabs (snd (keyshareserver.AddEmailVerification 100 sample.handle "a@x" "tok1"
               sample.fresh_world))
    = tabs (sample.verification_world []).
Proof. reflexivity. Qed.

End Scenarios.

(** * Further properties of the code *)

(** ** The PIN controller, continued *)

Section PinMore.

Import keyshareserver.



(** After an allowed attempt at [now] on counter [c] the account is
    blocked until [deadline = now - 31 + 30 * 2^max(0, c - 1)]: an attempt
    before the deadline is refused with the time left and changes
    nothing, an attempt from the deadline on is allowed.  For [c <= 1] the
    deadline is already past, for [c >= 2] it is at least 29 seconds
    ahead. *)
Theorem ReservePincheck_block_window w u pre row post now :
  faults w = [] ->
  only_row (id u) pre row post (tabs w) ->
  is_not_null (users_coredata row) = true ->
  users_pin_block_date row <= now ->
  let c := users_pin_counter row in
  let deadline := now - 31 + 30 * 2 ^ Z.max 0 (c - 1) in
  let w1 := snd (ReservePincheck now now now u w) in
  (forall now', now' < deadline ->
     ReservePincheck now' now' now' u w1 = (Ok (false, 0, deadline - now'), w1))
  /\ (forall now', deadline <= now' ->
        exists tries wait,
          fst (ReservePincheck now' now' now' u w1) = Ok (true, tries, wait))
  /\ (c <= 1 -> deadline = now - 1)
  /\ (2 <= c -> now + 29 <= deadline).
Proof.
  intros Hf Hrow Hcd Hpbd. cbv zeta.
  rewrite (ReservePincheck_allowed_eq w now u pre row post Hf Hrow Hpbd Hcd).
  cbn [snd].
  pose proof (only_row_attempted _ _ _ _ (tabs w) now Hrow) as Hrow1.
  set (w1 := set_tabs w _) in *.
  assert (Hd : users_pin_block_date (attempted now row)
               = now - 31 + 30 * 2 ^ Z.max 0 (users_pin_counter row - 1))
    by (cbn; lia).
  split; [|split; [|split]].
  - intros now' Hlt.
    rewrite (ReservePincheck_blocked_eq w1 now' u pre (attempted now row) post Hf Hrow1)
      by (try exact Hcd; lia).
    rewrite Hd. do 3 f_equal. lia.
  - intros now' Hge.
    rewrite (ReservePincheck_allowed_eq w1 now' u pre (attempted now row) post Hf Hrow1)
      by (try exact Hcd; lia).
    eauto.
  - intros Hc. rewrite Z.max_l by lia. change (2 ^ 0) with 1. lia.
  - intros Hc. rewrite Z.max_r by lia.
    assert (2 ^ 1 <= 2 ^ (users_pin_counter row - 1))
      by (apply Z.pow_le_mono_r; lia).
    change (2 ^ 1) with 2 in *. lia.
Qed.

(** The third failed attempt of scenario S1 blocks until 1029. *)
Lemma ReservePincheck_block_window_witness :
  let w := sample.world_of
             (mkTables [mkUser 7 "u" "en" (Some []) 0 2 999 None] [] [] [] []) in
  let w1 := snd (ReservePincheck 1000 1000 1000 sample.handle w) in
  ReservePincheck 1028 1028 1028 sample.handle w1 = (Ok (false, 0, 1), w1).
Proof.
  cbv zeta.
  destruct (ReservePincheck_block_window
              (sample.world_of
                 (mkTables [mkUser 7 "u" "en" (Some []) 0 2 999 None] [] [] [] []))
              sample.handle [] (mkUser 7 "u" "en" (Some []) 0 2 999 None) [] 1000)
    as (H & _).
  - reflexivity.
  - split; [reflexivity|]. split; [reflexivity|]. split; constructor.
  - reflexivity.
  - simpl. lia.
  - apply (H 1028). reflexivity.
Defined.

(** Both PIN operations report [ErrUserNotFound] for a handle whose row
    is gone, and change nothing. *)
Theorem pin_operations_without_row w u now :
  faults w = [] ->
  Forall (fun r => users_id r <> id u) (users (tabs w)) ->
  ReservePincheck now now now u w = (Err ErrUserNotFound, w)
  /\ ClearPincheck u w = (Err ErrUserNotFound, w).
Proof.
  intros Hf Hnone. split.
  - rewrite (ReservePincheck_refused_eq w now u Hf).
    + unfold select_pin_block_date. rewrite filter_none; [reflexivity|].
      eapply Forall_weaken_cond; [apply other_id_pin|exact Hnone].
    + eapply Forall_weaken_cond; [apply other_id_reserve|exact Hnone].
  - unfold ClearPincheck, bind. rewrite (Exec_ok _ w Hf).
    unfold rows_affected, exec_stmt, count.
    pose proof (Forall_weaken_cond _ _ _ (other_id_eqb (id u)) Hnone) as Hn.
    rewrite (filter_none _ _ Hn), (update_none _ _ _ Hn).
    now rewrite with_users_same, set_tabs_same.
Qed.

Lemma pin_operations_without_row_witness :
  ReservePincheck 1000 1000 1000 sample.handle (sample.world_of (mkTables [] [] [] [] []))
    = (Err ErrUserNotFound, sample.world_of (mkTables [] [] [] [] [])).
Proof.
  apply (pin_operations_without_row _ sample.handle 1000); [reflexivity|constructor].
Defined.

End PinMore.

(** ** The keyshare store, continued *)

Section KeyshareStore.

Import keyshareserver.

Lemma ExecPool_ok effect affected (w : World) :
  faults w = [] ->
  ExecPool effect affected w = (Ok (affected (tabs w)), set_tabs w (effect (tabs w))).
Proof.
  intros Hf. unfold ExecPool, bind. now rewrite (roundtrip_ok w Hf).
Qed.

Lemma Query_tx_ok {A} tx (q : select A) (w : World) :
  faults w = [] ->
  Query tx None q w =
    match q (view tx w) with
    | Ok rows => (Ok rows, w)
    | Err e => (Err e, w)
    end.
Proof.
  intros Hf. unfold Query, bind. now rewrite (roundtrip_ok w Hf).
Qed.

Lemma Exec_tx_ok tx s (w : World) :
  faults w = [] ->
  Exec tx s w = (Ok (rows_affected s (view tx w)), write tx s w).
Proof.
  intros Hf. unfold Exec, bind. now rewrite (roundtrip_ok w Hf).
Qed.

(** A row callback that appends one element per row. *)
Lemma iterate_append {A B} (g : A -> B) (rows : list A) (acc : slice B) :
  keyshare.iterate (fun row acc => Ok (append acc (g row))) rows acc
  = Ok (match rows with
        | [] => acc
        | _ => Slice (elems acc ++ map g rows)
        end).
Proof.
  revert acc. induction rows as [|row rows IH]; intros acc; [reflexivity|].
  cbn [keyshare.iterate]. rewrite IH. unfold append. cbn [elems map].
  destruct rows; [reflexivity|]. now rewrite <- app_assoc.
Qed.

Lemma select_user_skip name (pre : list UserRow) :
  Forall (fun r => users_username r <> name) pre ->
  flat_map (fun r =>
    match users_coredata r with
    | Some ep => if String.eqb (users_username r) name
                 then [(users_id r, users_username r, users_language r, ep)]
                 else []
    | None => []
    end) pre = [].
Proof.
  induction 1 as [|r pre Hr _ IH]; [reflexivity|]. cbn [flat_map]. rewrite IH.
  destruct (users_coredata r); [|reflexivity].
  now rewrite (proj2 (String.eqb_neq _ _) Hr).
Qed.

(** [UpdateUser] followed by [User] gives back the handle: the row of the
    handle's id, soft-deleted or not, takes the handle's username,
    language and blob and is what a lookup of that username finds, given
    that no earlier row holds the username.  For a handle whose row is
    gone [UpdateUser] reports [ErrUserNotFound] and changes nothing. *)
Theorem UpdateUser_then_User packet (w : World) u :
  faults w = [] ->
  (forall pre row post,
     only_row (id u) pre row post (tabs w) ->
     Forall (fun r => users_username r <> Username u) pre ->
     length (Coredata u) = packet ->
     UpdateUser u w =
       (Ok tt,
        set_tabs w (with_users (tabs w)
          (pre ++ update_user_set (Username u) (Language u) (Coredata u) row :: post)))
     /\ User packet (Username u) (snd (UpdateUser u w)) = (Ok u, snd (UpdateUser u w)))
  /\ (Forall (fun r => users_id r <> id u) (users (tabs w)) ->
      UpdateUser u w = (Err ErrUserNotFound, w)).
Proof.
  intros Hf. split.
  - intros pre row post (Hu & Hid & Hpre & Hpost) Hname Hlen.
    assert (Hupd : UpdateUser u w =
              (Ok tt,
               set_tabs w (with_users (tabs w)
                 (pre ++ update_user_set (Username u) (Language u) (Coredata u) row
                      :: post)))).
    { unfold UpdateUser, bind. rewrite (ExecPool_ok _ _ w Hf). unfold count. rewrite Hu.
      rewrite (filter_one _ pre post row), (update_one _ _ pre post row);
        try (eapply Forall_weaken_cond; [apply other_id_eqb|assumption]);
        try (now rewrite Hid, Z.eqb_refl).
      reflexivity. }
    split; [exact Hupd|]. rewrite Hupd. cbn [snd].
    unfold User, bind. rewrite Query_ok by exact Hf.
    unfold select_user. cbn [tabs set_tabs users with_users].
    rewrite flat_map_app, (select_user_skip _ pre Hname). cbn [app flat_map].
    cbn [users_coredata users_username users_id users_language update_user_set].
    rewrite String.eqb_refl. cbn [app]. rewrite Hid, Hlen, Nat.eqb_refl. cbn [negb].
    unfold ret. now destruct u.
  - intros Hnone. unfold UpdateUser, bind. rewrite (ExecPool_ok _ _ w Hf).
    pose proof (Forall_weaken_cond _ _ _ (other_id_eqb (id u)) Hnone) as Hn.
    unfold count. rewrite (filter_none _ _ Hn), (update_none _ _ _ Hn).
    now rewrite with_users_same, set_tabs_same.
Qed.

(** The soft-deleted account of the samples gets a blob again and is
    found. *)
Lemma UpdateUser_then_User_witness :
  User 0 "u" (snd (UpdateUser sample.handle sample.deleted_world))
    = (Ok sample.handle, snd (UpdateUser sample.handle sample.deleted_world)).
Proof.
  destruct (UpdateUser_then_User 0%nat sample.deleted_world sample.handle eq_refl)
    as [H _].
  apply (H [] sample.deleted []).
  - split; [reflexivity|]. split; [reflexivity|]. split; constructor.
  - constructor.
  - reflexivity.
Defined.

End KeyshareStore.

(** ** What the keyshare store writes and the MyIRMA store reads *)

Section AcrossStores.

Lemma insert_desc_Forall (P : LogRow -> Prop) r (s : list LogRow) :
  P r -> Forall P s -> Forall P (myirmaserver.insert_desc r s).
Proof.
  intros Hr. induction 1 as [|x s Hx Hs IH]; cbn [myirmaserver.insert_desc].
  - repeat constructor. exact Hr.
  - destruct (log_time x <? log_time r); repeat constructor; assumption.
Qed.

Lemma order_by_time_desc_Forall (P : LogRow -> Prop) (rows : list LogRow) :
  Forall P rows -> Forall P (myirmaserver.order_by_time_desc rows).
Proof.
  unfold myirmaserver.order_by_time_desc.
  assert (H : forall acc, Forall P acc -> Forall P rows ->
                Forall P (fold_left (fun acc r => myirmaserver.insert_desc r acc) rows acc)).
  { induction rows as [|r rows IH]; intros acc Hacc Hrows; [exact Hacc|].
    cbn [fold_left]. inversion Hrows; subst.
    apply IH; [now apply insert_desc_Forall|assumption]. }
  intros Hrows. apply H; [constructor|exact Hrows].
Qed.

Lemma insert_desc_latest r (s : list LogRow) :
  Forall (fun x => log_time x < log_time r) s ->
  myirmaserver.insert_desc r s = r :: s.
Proof.
  destruct 1 as [|x s Hx _]; [reflexivity|]. cbn [myirmaserver.insert_desc].
  now rewrite (proj2 (Z.ltb_lt _ _) Hx).
Qed.

Lemma filter_Forall {A} (P : A -> Prop) (c : A -> bool) (t : list A) :
  Forall (fun r => c r = true -> P r) t -> Forall P (List.filter c t).
Proof.
  induction 1 as [|r t Hr _ IH]; [constructor|]. cbn [List.filter].
  destruct (c r) eqn:E; [constructor; [now apply Hr|exact IH]|exact IH].
Qed.

Lemma iterate_logs (rows : list (Z * Z * option string)) acc :
  keyshare.iterate
    (fun row result =>
       let '(time, event, param) := row in
       Ok (append result (myirmaserver.mkLogEntry time event param)))
    rows acc
  = Ok (match rows with
        | [] => acc
        | _ => Slice (elems acc ++ map entry_of_row rows)
        end).
Proof.
  revert acc. induction rows as [|[[t e] p] rows IH]; intros acc; [reflexivity|].
  cbn [keyshare.iterate]. rewrite IH. unfold append. cbn [elems map entry_of_row].
  destruct rows; [reflexivity|]. now rewrite <- app_assoc.
Qed.

(** An event the keyshare server logs for a user, later than the user's
    other entries, is the first entry of the first page of the user's log
    in MyIRMA. *)
Theorem AddLog_then_Logs (w : World) u now event param amount :
  faults w = [] ->
  Forall (fun r => log_user_id r = keyshareserver.id u -> log_time r < now)
         (log_entry_records (tabs w)) ->
  0 < amount ->
  let w1 := snd (keyshareserver.AddLog now u event
                   (match param with Some p => Some (Ok p) | None => None end) w) in
  exists older,
    myirmaserver.Logs (keyshareserver.id u) 0 amount w1
    = (Ok (Slice (myirmaserver.mkLogEntry now event param :: older)), w1).
Proof.
  intros Hf Hlater Hamount. cbv zeta.
  set (row := mkLog now event param (keyshareserver.id u)).
  assert (Hadd : keyshareserver.AddLog now u event
                   (match param with Some p => Some (Ok p) | None => None end) w
                 = (Ok tt, set_tabs w (with_logs (tabs w)
                                         (log_entry_records (tabs w) ++ [row])))).
  { unfold keyshareserver.AddLog, bind.
    destruct param as [p|]; now rewrite (ExecPool_ok _ _ w Hf). }
  rewrite Hadd. cbn [snd]. set (w1 := set_tabs w _).
  unfold myirmaserver.Logs, keyshare.QueryIterate, bind.
  rewrite (Query_ok _ _ w1 Hf).
  unfold myirmaserver.select_logs. cbn [tabs w1 set_tabs log_entry_records with_logs].
  change (0 <? 0) with false.
  destruct (Z.ltb_spec amount 0) as [?|_]; [lia|].
  rewrite List.filter_app. cbn [List.filter log_user_id row].
  fold row. rewrite Z.eqb_refl.
  unfold myirmaserver.order_by_time_desc. rewrite fold_left_app. cbn [fold_left].
  fold (myirmaserver.order_by_time_desc
          (List.filter (fun r => log_user_id r =? keyshareserver.id u)
                       (log_entry_records (tabs w)))).
  rewrite insert_desc_latest.
  2:{ apply order_by_time_desc_Forall, filter_Forall.
      eapply Forall_impl; [exact Hlater|].
      intros r Hr Hid. apply Hr. now apply Z.eqb_eq. }
  change (Z.to_nat 0) with 0%nat. cbn [skipn].
  destruct (Z.to_nat amount) as [|n] eqn:En; [lia|].
  cbn [firstn map log_time log_event log_param row].
  rewrite iterate_logs. unfold ret. cbn [elems app map entry_of_row].
  eexists. reflexivity.
Qed.

(** The first PIN failure of user 7 is logged at [t = 50]. *)
Lemma AddLog_then_Logs_witness :
  exists older,
    myirmaserver.Logs 7 0 11
      (snd (keyshareserver.AddLog 50 sample.handle 2 None sample.fresh_world))
    = (Ok (Slice (myirmaserver.mkLogEntry 50 2 None :: older)),
       snd (keyshareserver.AddLog 50 sample.handle 2 None sample.fresh_world)).
Proof.
  apply (AddLog_then_Logs sample.fresh_world sample.handle 50 2 None 11).
  - reflexivity.
  - constructor.
  - lia.
Defined.

Lemma count_none {A} (cond : A -> bool) (t : list A) :
  Forall (fun r => cond r = false) t -> count cond t = 0.
Proof. intros H. unfold count. now rewrite (filter_none _ _ H). Qed.

Lemma count_positive_exists {A} (cond : A -> bool) (t : list A) :
  0 < count cond t -> existsb cond t = true.
Proof.
  induction t as [|r t IH]; [unfold count; cbn; lia|].
  rewrite count_cons. cbn [existsb]. destruct (cond r); [reflexivity|].
  intros H. apply IH. lia.
Qed.

Lemma restore_has_active uid mail (t : list EmailRow) :
  existsb (email_is uid mail) t = true ->
  existsb (fun e => email_is uid mail e && is_null (emails_delete_on e))
          (update (email_is uid mail) (email_set_delete_on None) t) = true.
Proof.
  induction t as [|r t IH]; [discriminate|]. cbn [existsb update map].
  fold (update (email_is uid mail) (email_set_delete_on None) t).
  destruct (email_is uid mail r) eqn:Hr; cbn [orb].
  - intros _. now rewrite email_is_set_delete_on, Hr.
  - intros H. rewrite Hr, (IH H). cbn [andb orb]. reflexivity.
Qed.

Lemma AddEmail_has_active uid mail (w : World) :
  faults w = [] ->
  has_active_binding uid mail (tabs (snd (myirmaserver.AddEmail uid mail w))) = true.
Proof.
  intros Hf. rewrite (AddEmail_eq uid mail w Hf). cbn [snd]. unfold has_active_binding.
  destruct (Z.eqb_spec (count (email_is uid mail) (emails (tabs w))) 1) as [E|E];
    cbn [tabs set_tabs exec_stmt emails with_emails].
  - apply restore_has_active, count_positive_exists. lia.
  - rewrite existsb_app. cbn [existsb]. rewrite email_is_self. cbn.
    now rewrite orb_true_r.
Qed.

Lemma AddEmail_ok_world uid mail (w : World) :
  faults w = [] ->
  let w' := snd (myirmaserver.AddEmail uid mail w) in
  myirmaserver.AddEmail uid mail w = (Ok tt, w')
  /\ faults w' = [] /\ pend w' = pend w /\ logged w' = logged w
  /\ email_verification_tokens (tabs w') = email_verification_tokens (tabs w).
Proof.
  intros Hf. cbv zeta. rewrite (AddEmail_eq uid mail w Hf). cbn [snd].
  destruct (count (email_is uid mail) (emails (tabs w)) =? 1); now repeat split.
Qed.

(** A verification token the keyshare server stores is redeemable in
    MyIRMA for the next 24 hours: [VerifyEmailToken] returns the user's
    id, the address is bound to the user with no removal scheduled, and
    the transaction holds the deletion of the token. *)
Theorem AddEmailVerification_then_VerifyEmailToken (w : World) u mail tok now now' :
  faults w = [] ->
  pend w = [] ->
  Forall (fun r => String.eqb (evt_token r) tok = false)
         (email_verification_tokens (tabs w)) ->
  now' <= now + 86400 ->
  let w1 := snd (keyshareserver.AddEmailVerification now u mail tok w) in
  let r := myirmaserver.VerifyEmailToken now' (Some openTx) tok w1 in
  fst r = Ok (keyshareserver.id u)
  /\ has_active_binding (keyshareserver.id u) mail (tabs (snd r)) = true
  /\ pend (snd r) = [DeleteVerificationToken tok]
  /\ logged (snd r) = logged w.
Proof.
  intros Hf Hp Hfresh Hnow. cbv zeta.
  set (new := mkVerificationToken tok mail (keyshareserver.id u) (now + 86400)).
  assert (Hadd : keyshareserver.AddEmailVerification now u mail tok w
                 = (Ok tt, set_tabs w (with_verification_tokens (tabs w)
                      (email_verification_tokens (tabs w) ++ [new])))).
  { unfold keyshareserver.AddEmailVerification, bind. now rewrite (Exec_ok _ w Hf). }
  rewrite Hadd. cbn [snd]. set (w1 := set_tabs w _).
  assert (Hnew : String.eqb (evt_token new) tok && (now' <=? evt_expiry new) = true).
  { cbn [evt_token evt_expiry new]. rewrite String.eqb_refl.
    now rewrite (proj2 (Z.leb_le _ _) Hnow). }
  destruct (AddEmail_ok_world (keyshareserver.id u) mail w1 Hf)
    as (Hemail & Hf2 & Hp2 & Hl2 & Hv2).
  pose proof (AddEmail_has_active (keyshareserver.id u) mail w1 Hf) as Hactive.
  set (w2 := snd (myirmaserver.AddEmail (keyshareserver.id u) mail w1)) in *.
  assert (Hp1 : pend w1 = []) by exact Hp.
  assert (Hv1 : email_verification_tokens (tabs w1)
                = email_verification_tokens (tabs w) ++ [new]) by reflexivity.
  assert (Hview2 : view openTx w2 = tabs w2)
    by (cbn [view]; now rewrite Hp2, Hp1).
  assert (Hrun : myirmaserver.VerifyEmailToken now' (Some openTx) tok w1
                 = (Ok (keyshareserver.id u), write openTx (DeleteVerificationToken tok) w2)).
  { unfold myirmaserver.VerifyEmailToken, keyshare.QueryScan, keyshare.ExecCount,
      bind, try. cbn [keyshare.assert_sqlTx ret].
    rewrite (Query_tx_ok openTx _ w1 Hf).
    cbn [view]. rewrite Hp1. cbn [replay fold_left].
    unfold myirmaserver.select_verification_token. rewrite Hv1.
    rewrite List.filter_app. cbn [List.filter]. rewrite Hnew.
    rewrite filter_none.
    2:{ eapply Forall_weaken_cond; [|exact Hfresh]. intros r Hr. cbn beta. now rewrite Hr. }
    unfold new at 1. cbn [app map evt_user_id evt_email]. unfold ret at 1.
    rewrite Hemail.
    rewrite (Exec_tx_ok openTx _ w2 Hf2). rewrite Hview2. cbn [rows_affected].
    rewrite Hv2, Hv1.
    rewrite count_app, (count_none _ _ Hfresh), count_cons.
    cbn [evt_token new]. rewrite String.eqb_refl. reflexivity. }
  rewrite Hrun. cbn [fst snd write]. split; [reflexivity|]. split; [exact Hactive|].
  split.
  - cbn [pend set_pend]. now rewrite Hp2, Hp1.
  - cbn [logged set_pend]. now rewrite Hl2.
Qed.

(** Scenario S2: the keyshare server stores "tok1" for user 7 at
    [t = 100] and MyIRMA redeems it at [t = 200]. *)
Lemma AddEmailVerification_then_VerifyEmailToken_witness :
  fst (myirmaserver.VerifyEmailToken 200 (Some openTx) "tok1"
         (snd (keyshareserver.AddEmailVerification 100 sample.handle "a@x" "tok1"
                 sample.fresh_world)))
    = Ok 7.
Proof.
  apply (AddEmailVerification_then_VerifyEmailToken
           sample.fresh_world sample.handle "a@x" "tok1" 100 200).
  - reflexivity.
  - reflexivity.
  - constructor.
  - lia.
Defined.

End AcrossStores.

(** ** The MyIRMA store, continued *)

Section MyirmaStore.

Import myirmaserver.

(** An UPDATE whose SET clause falsifies its WHERE clause selects nothing
    afterwards. *)
Lemma update_kills {A} (c : A -> bool) (set : A -> A) (t : list A) :
  (forall r, c (set r) = false) ->
  Forall (fun r => c r = false) (update c set t).
Proof.
  intros Hset. induction t as [|r t IH]; [constructor|]. cbn [update map].
  constructor; [|exact IH]. destruct (c r) eqn:E; [apply Hset|exact E].
Qed.

(** [RemoveUser] succeeds once: after a successful call every further
    [RemoveUser] of the same id reports [ErrUserNotFound] and changes
    nothing, so the deletion date is not pushed back. *)
Theorem RemoveUser_once now uid delay (w w1 : World) :
  faults w = [] ->
  RemoveUser now uid delay w = (Ok tt, w1) ->
  forall now' delay', RemoveUser now' uid delay' w1 = (Err ErrUserNotFound, w1).
Proof.
  intros Hf Hrem now' delay'.
  pose proof (RemoveUser_ok now uid delay w w1 Hf Hrem) as ->.
  unfold RemoveUser, keyshare.ExecUser, keyshare.ExecCount, bind.
  rewrite Exec_ok by exact Hf. cbn [rows_affected exec_stmt tabs set_tabs users with_users].
  assert (Hgone : Forall (fun r => remove_user_where uid r = false)
                    (update (remove_user_where uid) (remove_user_set (now + delay))
                            (users (tabs w)))).
  { apply update_kills. intros r. unfold remove_user_where.
    cbn [users_coredata remove_user_set is_not_null]. apply andb_false_r. }
  rewrite (count_none _ _ Hgone), (update_none _ _ _ Hgone).
  reflexivity.
Qed.

(** Scenario S5. *)
Lemma RemoveUser_once_witness :
  RemoveUser 5000 7 1000 sample.deleted_world = (Err ErrUserNotFound, sample.deleted_world).
Proof.
  apply (RemoveUser_once 1000 7 1000 sample.fresh_world sample.deleted_world);
    reflexivity.
Defined.

(** [RemoveEmail] succeeds once: after a successful call every further
    [RemoveEmail] of the same address reports that no row was affected and
    changes nothing, so the removal date is not pushed back. *)
Theorem RemoveEmail_once now uid mail delay (w w1 : World) :
  faults w = [] ->
  RemoveEmail now uid mail delay w = (Ok tt, w1) ->
  forall now' delay',
    RemoveEmail now' uid mail delay' w1
    = (Err (Errorf "Unexpected number of affected rows %d for email removal" 0), w1).
Proof.
  intros Hf Hrem now' delay'.
  destruct (RemoveEmail_ok now uid mail delay w w1 Hf Hrem) as [_ ->].
  unfold RemoveEmail, keyshare.ExecCount, bind.
  rewrite Exec_ok by exact Hf. cbn [rows_affected exec_stmt tabs set_tabs emails with_emails].
  assert (Hgone : Forall (fun r => remove_email_where uid mail r = false)
                    (update (remove_email_where uid mail)
                            (email_set_delete_on (Some (now + delay)))
                            (emails (tabs w)))).
  { apply update_kills. intros r. unfold remove_email_where.
    cbn [emails_delete_on email_set_delete_on is_null is_not_null negb].
    apply andb_false_r. }
  rewrite (count_none _ _ Hgone), (update_none _ _ _ Hgone).
  reflexivity.
Qed.

(** Scenario S4: "e@x" is scheduled for removal once. *)
Lemma RemoveEmail_once_witness :
  fst (RemoveEmail 2000 7 "e@x" 86400
         (snd (RemoveEmail 1000 7 "e@x" 86400 sample.email_world)))
    = Err (Errorf "Unexpected number of affected rows %d for email removal" 0).
Proof.
  rewrite (RemoveEmail_once 1000 7 "e@x" 86400 sample.email_world
             (snd (RemoveEmail 1000 7 "e@x" 86400 sample.email_world)));
    reflexivity.
Defined.

Lemma QueryScan_tx_ok {A} tx (q : select A) (w : World) :
  faults w = [] ->
  keyshare.QueryScan tx q w =
    match q (view tx w) with
    | Ok [] => (Err ErrNoRows, w)
    | Ok (row :: _) => (Ok row, w)
    | Err e => (Err e, w)
    end.
Proof.
  intros Hf. unfold keyshare.QueryScan, bind. rewrite (Query_tx_ok tx q w Hf).
  now destruct (q (view tx w)) as [[|row rows]|e].
Qed.

Lemma QueryUser_tx_ok {A} tx (q : select A) (w : World) :
  faults w = [] ->
  keyshare.QueryUser tx q w =
    match q (view tx w) with
    | Ok [] => (Err ErrUserNotFound, w)
    | Ok (row :: _) => (Ok row, w)
    | Err (Panic msg) => (Err (Panic msg), w)
    | Err ErrNoRows => (Err ErrUserNotFound, w)
    | Err e => (Err e, w)
    end.
Proof.
  intros Hf. unfold keyshare.QueryUser, try. rewrite (QueryScan_tx_ok tx q w Hf).
  destruct (q (view tx w)) as [[|row rows]|e]; try reflexivity. now destruct e.
Qed.

Lemma expired_login_token tok now (t : Tables) :
  Forall (fun r => String.eqb (elt_token r) tok = true -> elt_expiry r < now)
         (email_login_tokens t) ->
  select_login_token_email tok now t = [].
Proof.
  intros H. unfold select_login_token_email. rewrite filter_none; [reflexivity|].
  eapply Forall_impl; [exact H|]. intros r Hr. cbn beta.
  destruct (String.eqb (elt_token r) tok) eqn:E; [|reflexivity].
  cbn [andb]. apply Z.leb_gt. now apply Hr.
Qed.

Lemma filter_null_eqb {A} (c : A -> bool) (f : A -> string) (t : list A) :
  List.filter (fun x => c x && null_eqb (f x) None) t = [].
Proof.
  apply filter_none, Forall_forall. intros x _. apply andb_false_r.
Qed.

(** A token past its expiry is as good as unknown, and the attempt to use
    it changes nothing: [VerifyEmailToken] reports [ErrTokenNotFound]
    without adding the address, [TryUserLoginToken] and
    [LoginTokenCandidates] report [ErrUserNotFound], and the token row
    stays. *)
Theorem expired_tokens_are_rejected now tok (w : World) :
  faults w = [] ->
  (Forall (fun r => String.eqb (evt_token r) tok = true -> evt_expiry r < now)
          (email_verification_tokens (view openTx w)) ->
   VerifyEmailToken now (Some openTx) tok w = (Err ErrTokenNotFound, w))
  /\ (Forall (fun r => String.eqb (elt_token r) tok = true -> elt_expiry r < now)
             (email_login_tokens (view openTx w)) ->
      forall name,
        TryUserLoginToken now (Some openTx) tok name w = (Err ErrUserNotFound, w))
  /\ (Forall (fun r => String.eqb (elt_token r) tok = true -> elt_expiry r < now)
             (email_login_tokens (tabs w)) ->
      LoginTokenCandidates now tok w = (Err ErrUserNotFound, w)).
Proof.
  intros Hf. split; [|split].
  - intros Hexp. unfold VerifyEmailToken, bind, try. cbn [keyshare.assert_sqlTx ret].
    rewrite (QueryScan_tx_ok openTx _ w Hf).
    unfold select_verification_token. rewrite filter_none; [reflexivity|].
    eapply Forall_impl; [exact Hexp|]. intros r Hr. cbn beta.
    destruct (String.eqb (evt_token r) tok) eqn:E; [|reflexivity].
    cbn [andb]. apply Z.leb_gt. now apply Hr.
  - intros Hexp name. unfold TryUserLoginToken, bind. cbn [keyshare.assert_sqlTx ret].
    rewrite (QueryUser_tx_ok openTx _ w Hf).
    unfold select_login_user. rewrite (expired_login_token tok now _ Hexp).
    cbn [scalar]. now rewrite filter_null_eqb.
  - intros Hexp. unfold LoginTokenCandidates, keyshare.QueryIterate, bind.
    rewrite (Query_ok _ _ w Hf).
    unfold select_candidates. rewrite (expired_login_token tok now _ Hexp).
    cbn [scalar]. now rewrite filter_null_eqb.
Qed.

(** Scenario S3 one second after the hour: "tok2" has expired at 3700. *)
Lemma expired_tokens_are_rejected_witness :
  TryUserLoginToken 3701 (Some openTx) "tok2" "bob" sample.shared_world
    = (Err ErrUserNotFound, sample.shared_world)
  /\ LoginTokenCandidates 3701 "tok2" sample.shared_world
     = (Err ErrUserNotFound, sample.shared_world).
Proof.
  destruct (expired_tokens_are_rejected 3701 "tok2" sample.shared_world eq_refl)
    as (_ & Htry & Hcand).
  split.
  - apply Htry. constructor; [intros _; reflexivity|constructor].
  - apply Hcand. constructor; [intros _; reflexivity|constructor].
Defined.

Lemma active_earlier d now now' :
  active d now' = true -> now <= now' -> active d now = true.
Proof.
  unfold active, null_geb, is_null, is_not_null. destruct d as [v|]; [|reflexivity].
  cbn. rewrite !orb_false_r. intros H Hle.
  apply Z.leb_le in H. apply Z.leb_le. lia.
Qed.

Lemma filter_map_head {A} (P : A -> bool) (f : A -> Z) (l : list A) x v :
  In x l -> P x = true ->
  (forall y, In y l -> P y = true -> f y = v) ->
  exists rest, map f (List.filter P l) = v :: rest.
Proof.
  induction l as [|y l IH]; [intros []|]. intros Hin Hx Hall. cbn [List.filter].
  destruct (P y) eqn:Hy.
  - cbn [map]. rewrite (Hall y (or_introl eq_refl) Hy). eauto.
  - apply IH; [|exact Hx|intros z Hz; apply Hall; now right].
    destruct Hin as [->|Hin]; [congruence|exact Hin].
Qed.

Lemma join_In (t : Tables) u e :
  In u (users t) -> In e (emails t) -> users_id u = emails_user_id e ->
  In (u, e) (users_join_emails t).
Proof.
  intros Hu He Hid. unfold users_join_emails. apply List.in_flat_map.
  exists u. split; [exact Hu|]. apply List.in_map. apply List.filter_In.
  split; [exact He|]. now apply Z.eqb_eq.
Qed.

Lemma join_fst_In (t : Tables) ue :
  In ue (users_join_emails t) -> In (fst ue) (users t).
Proof.
  unfold users_join_emails. intros H. apply List.in_flat_map in H as (u & Hu & H).
  apply List.in_map_iff in H as (e & <- & _). exact Hu.
Qed.

(** A login token is mailed only to an address that some user holds at
    the time, and is then good for 60 minutes: [AddEmailLoginToken]
    reports [ErrEmailNotFound] and stores nothing for an address without
    an active binding; otherwise it stores the token, and
    [TryUserLoginToken] with the username of a holder of the address
    returns that user's id and deletes the token. *)
Theorem AddEmailLoginToken_then_TryUserLoginToken (w : World) mail tok now :
  faults w = [] ->
  (Forall (fun r => String.eqb (emails_email r) mail = true ->
                    active (emails_delete_on r) now = false)
          (emails (view openTx w)) ->
   AddEmailLoginToken now (Some openTx) mail tok w = (Err ErrEmailNotFound, w))
  /\
  (forall name uid now' urow erow,
     Forall (fun r => String.eqb (elt_token r) tok = false)
            (email_login_tokens (view openTx w)) ->
     In urow (users (view openTx w)) ->
     users_username urow = name ->
     users_id urow = uid ->
     In erow (emails (view openTx w)) ->
     emails_user_id erow = uid ->
     emails_email erow = mail ->
     active (emails_delete_on erow) now' = true ->
     Forall (fun r => users_username r = name -> users_id r = uid)
            (users (view openTx w)) ->
     now <= now' <= now + 3600 ->
     let w1 := write openTx (InsertLoginToken tok mail (now + 3600)) w in
     AddEmailLoginToken now (Some openTx) mail tok w = (Ok tt, w1)
     /\ TryUserLoginToken now' (Some openTx) tok name w1
        = (Ok uid, write openTx (DeleteLoginToken tok) w1)).
Proof.
  intros Hf. split.
  - intros Hnone. unfold AddEmailLoginToken, bind, try. cbn [keyshare.assert_sqlTx ret].
    rewrite (QueryScan_tx_ok openTx _ w Hf).
    unfold select_email_exists. rewrite filter_none; [reflexivity|].
    eapply Forall_impl; [exact Hnone|]. intros r Hr. cbn beta.
    destruct (String.eqb (emails_email r) mail) eqn:E; [|reflexivity].
    cbn [andb]. now apply Hr.
  - intros name uid now' urow erow Hfresh Hu Hname Huid He Heid Hmail Hact Hown Hnow.
    cbv zeta. set (t := view openTx w) in *.
    set (w1 := write openTx (InsertLoginToken tok mail (now + 3600)) w).
    assert (Hadd : AddEmailLoginToken now (Some openTx) mail tok w = (Ok tt, w1)).
    { unfold AddEmailLoginToken, keyshare.ExecCount, bind, try.
      cbn [keyshare.assert_sqlTx ret].
      rewrite (QueryScan_tx_ok openTx _ w Hf). fold t.
      destruct (filter_map_head
                  (fun r => String.eqb (emails_email r) mail
                            && active (emails_delete_on r) now)
                  (fun _ => 1) (emails t) erow 1 He) as [rest Hrows].
      { rewrite Hmail, String.eqb_refl. cbn [andb].
        apply (active_earlier _ now now' Hact). lia. }
      { reflexivity. }
      unfold select_email_exists. rewrite Hrows. cbn [firstn].
      rewrite (Exec_tx_ok openTx _ w Hf). reflexivity. }
    split; [exact Hadd|].
    assert (Hf1 : faults w1 = []) by exact Hf.
    assert (Hv1 : view openTx w1 = exec_stmt (InsertLoginToken tok mail (now + 3600)) t)
      by apply view_write.
    assert (Hsub : select_login_token_email tok now'
                     (exec_stmt (InsertLoginToken tok mail (now + 3600)) t) = [mail]).
    { unfold select_login_token_email.
      cbn [exec_stmt email_login_tokens with_login_tokens].
      rewrite List.filter_app, filter_none.
      - cbn [List.filter elt_token elt_expiry app]. rewrite String.eqb_refl.
        rewrite (proj2 (Z.leb_le now' (now + 3600))) by lia. reflexivity.
      - eapply Forall_weaken_cond; [|exact Hfresh]. intros r Hr. cbn beta.
        now rewrite Hr. }
    unfold TryUserLoginToken, keyshare.ExecCount, bind. cbn [keyshare.assert_sqlTx ret].
    rewrite (QueryUser_tx_ok openTx _ w1 Hf1), Hv1.
    unfold select_login_user. rewrite Hsub. cbn [scalar].
    destruct (filter_map_head
                (fun ue => String.eqb (users_username (fst ue)) name
                           && active (emails_delete_on (snd ue)) now'
                           && null_eqb (emails_email (snd ue)) (Some mail))
                (fun ue => users_id (fst ue))
                (users_join_emails t) (urow, erow) uid) as [ids Hids].
    { apply join_In; [exact Hu|exact He|congruence]. }
    { cbn [fst snd null_eqb]. now rewrite Hname, Hmail, !String.eqb_refl, Hact. }
    { intros ue Hin Hp.
      apply andb_true_iff in Hp as [Hp _]. apply andb_true_iff in Hp as [Hp _].
      apply String.eqb_eq in Hp.
      apply join_fst_In in Hin.
      exact (proj1 (List.Forall_forall _ _) Hown _ Hin Hp). }
    change (users_join_emails (exec_stmt (InsertLoginToken tok mail (now + 3600)) t))
      with (users_join_emails t).
    rewrite Hids.
    rewrite (Exec_tx_ok openTx _ w1 Hf1), Hv1. cbn [rows_affected].
    cbn [exec_stmt email_login_tokens with_login_tokens].
    rewrite count_app, (count_none _ _ Hfresh), count_cons.
    cbn [elt_token]. rewrite String.eqb_refl. reflexivity.
Qed.

(** Scenario S3: "tok2" is mailed to "shared@x" at [t = 100] and bob
    redeems it at [t = 200]. *)
Lemma AddEmailLoginToken_then_TryUserLoginToken_witness :
  let w := sample.world_of
             (mkTables [mkUser 1 "bob" "en" (Some []) 0 0 0 None;
                        mkUser 2 "carol" "en" (Some []) 0 0 0 None]
                       [mkEmail 1 "shared@x" None; mkEmail 2 "shared@x" None]
                       [] [] []) in
  fst (TryUserLoginToken 200 (Some openTx) "tok2" "bob"
         (snd (AddEmailLoginToken 100 (Some openTx) "shared@x" "tok2" w)))
    = Ok 1.
Proof.
  cbv zeta.
  destruct (AddEmailLoginToken_then_TryUserLoginToken
              (sample.world_of
                 (mkTables [mkUser 1 "bob" "en" (Some []) 0 0 0 None;
                            mkUser 2 "carol" "en" (Some []) 0 0 0 None]
                           [mkEmail 1 "shared@x" None; mkEmail 2 "shared@x" None]
                           [] [] []))
              "shared@x" "tok2" 100 eq_refl) as [_ H].
  destruct (H "bob" 1 200 (mkUser 1 "bob" "en" (Some []) 0 0 0 None)
              (mkEmail 1 "shared@x" None)) as [Hadd Htry].
  - constructor.
  - left. reflexivity.
  - reflexivity.
  - reflexivity.
  - left. reflexivity.
  - reflexivity.
  - reflexivity.
  - reflexivity.
  - constructor; [intros _; reflexivity|].
    constructor; [intros H0; discriminate H0|constructor].
  - lia.
  - rewrite Hadd. cbn [snd]. rewrite Htry. reflexivity.
Defined.

Lemma iterate_user_emails (rows : list (string * bool)) (info : UserInformationData) :
  keyshare.iterate
    (fun row result =>
       Ok (mkUserInformation (Username result)
             (append (Emails result) (mkUserEmail (fst row) (snd row)))
             (language result) (DeleteInProgress result)))
    rows info
  = Ok (mkUserInformation (Username info)
          (match rows with
           | [] => Emails info
           | _ => Slice (elems (Emails info)
                         ++ map (fun row => mkUserEmail (fst row) (snd row)) rows)
           end)
          (language info) (DeleteInProgress info)).
Proof.
  revert info. induction rows as [|row rows IH]; intros info; [now destruct info|].
  cbn [keyshare.iterate]. rewrite IH. unfold append.
  cbn [Username Emails language DeleteInProgress elems map].
  destruct rows; [reflexivity|]. now rewrite <- app_assoc.
Qed.

(** [UserInformation] reports the account of the given id, soft-deleted
    or not, with exactly the addresses bound to it at the time, in table
    order: an address whose removal date has passed is left out, one whose
    removal is scheduled is flagged.  The list is the nil slice when there
    is none. *)
Theorem UserInformation_lists_active_addresses now uid (w : World) pre row post :
  faults w = [] ->
  only_row uid pre row post (tabs w) ->
  exists info,
    UserInformation now uid w = (Ok info, w)
    /\ Username info = users_username row
    /\ DeleteInProgress info = is_null (users_coredata row)
    /\ elems (Emails info) = map user_email_of_row (active_rows uid now (tabs w))
    /\ (active_rows uid now (tabs w) = [] -> Emails info = nilSlice).
Proof.
  intros Hf (Hu & Hid & Hpre & Hpost).
  unfold UserInformation, keyshare.QueryIterate, bind.
  rewrite (QueryUser_tx_ok nilTx _ w Hf). cbn [view].
  unfold select_user_information. rewrite Hu.
  rewrite (filter_one _ pre post row);
    try (eapply Forall_weaken_cond; [apply other_id_eqb|assumption]);
    try (now rewrite Hid, Z.eqb_refl).
  cbn [map]. rewrite (Query_ok _ _ w Hf).
  unfold select_user_emails. rewrite iterate_user_emails. unfold ret.
  eexists. split; [reflexivity|].
  cbn [Username DeleteInProgress Emails].
  split; [reflexivity|]. split; [reflexivity|].
  fold (active_rows uid now (tabs w)).
  destruct (active_rows uid now (tabs w)) as [|r rs]; cbn [map elems app].
  - now split.
  - split; [|discriminate]. now rewrite map_map.
Qed.

(** At [t = 1000] only the address in its grace period is listed. *)
Lemma UserInformation_lists_active_addresses_witness :
  exists info,
    UserInformation 1000 7 grace_world = (Ok info, grace_world)
    /\ elems (Emails info) = [mkUserEmail "e@x" true].
Proof.
  destruct (UserInformation_lists_active_addresses 1000 7 grace_world
              [] sample.fresh []) as (info & Hrun & _ & _ & Hemails & _).
  - reflexivity.
  - split; [reflexivity|]. split; [reflexivity|]. split; constructor.
  - exists info. split; [exact Hrun|exact Hemails].
Defined.

(** *** The log window *)

Lemma insert_desc_times r (s : list LogRow) :
  descending (map log_time s) ->
  descending (map log_time (insert_desc r s)).
Proof.
  induction s as [|x s IH]; cbn [insert_desc map descending].
  - intros _. split; [constructor|exact I].
  - intros [Hx Hs]. destruct (Z.ltb_spec (log_time x) (log_time r)) as [Hlt|Hge];
      cbn [map descending].
    + split; [|split; assumption].
      constructor; [lia|]. eapply Forall_impl; [exact Hx|]. intros y Hy. cbn beta in *. lia.
    + split; [|now apply IH].
      apply (proj2 (List.Forall_map log_time (fun y => y <= log_time x) _)).
      apply insert_desc_Forall; [exact Hge|].
      apply (proj1 (List.Forall_map log_time (fun y => y <= log_time x) _)). exact Hx.
Qed.

Lemma order_by_time_desc_times (rows : list LogRow) :
  descending (map log_time (order_by_time_desc rows)).
Proof.
  unfold order_by_time_desc.
  assert (H : forall acc, descending (map log_time acc) ->
                descending (map log_time
                  (fold_left (fun acc r => insert_desc r acc) rows acc))).
  { induction rows as [|r rows IH]; intros acc Hacc; [exact Hacc|].
    cbn [fold_left]. apply IH. now apply insert_desc_times. }
  apply H. exact I.
Qed.

Lemma window_Forall {A} (P : A -> Prop) n m (l : list A) :
  Forall P l -> Forall P (firstn n (skipn m l)).
Proof.
  intros H. assert (Hs : Forall P (skipn m l)).
  { revert l H. induction m as [|m IH]; intros l H; [exact H|].
    destruct H as [|x l Hx Hl]; [constructor|]. cbn [skipn]. now apply IH. }
  clear H. revert Hs. generalize (skipn m l). clear l. intros l.
  revert l. induction n as [|n IH]; intros l H; [constructor|].
  destruct H as [|x l Hx Hl]; [constructor|]. cbn [firstn]. constructor; [exact Hx|].
  now apply IH.
Qed.

Lemma descending_skipn n (l : list Z) : descending l -> descending (skipn n l).
Proof.
  revert l. induction n as [|n IH]; intros l; [now intros|].
  destruct l as [|x l]; [now intros|]. cbn [skipn descending]. intros [_ H]. now apply IH.
Qed.

Lemma descending_firstn n (l : list Z) : descending l -> descending (firstn n l).
Proof.
  revert l. induction n as [|n IH]; intros l; [now intros|].
  destruct l as [|x l]; [now intros|]. cbn [firstn descending]. intros [Hx H].
  split; [|now apply IH]. apply (window_Forall _ n 0 l Hx).
Qed.

(** [Logs] returns one page of the user's log: at most [amount] entries,
    latest first, each made of a row of that user; and a negative offset is
    an error of the database. *)
Theorem Logs_window uid offset amount (w : World) :
  faults w = [] ->
  (0 <= offset -> 0 <= amount ->
   exists entries,
     Logs uid offset amount w = (Ok entries, w)
     /\ len entries <= amount
     /\ descending (map Timestamp (elems entries))
     /\ Forall (fun e => exists r, In r (log_entry_records (tabs w))
                                   /\ log_user_id r = uid
                                   /\ e = mkLogEntry (log_time r) (log_event r) (log_param r))
               (elems entries))
  /\ (offset < 0 ->
      Logs uid offset amount w = (Err (ErrDriver "OFFSET must not be negative"), w)).
Proof.
  intros Hf. split.
  - intros Hoff Ham. unfold Logs, keyshare.QueryIterate, bind.
    rewrite (Query_ok _ _ w Hf). unfold select_logs.
    destruct (Z.ltb_spec offset 0) as [?|_]; [lia|].
    destruct (Z.ltb_spec amount 0) as [?|_]; [lia|].
    set (window := firstn (Z.to_nat amount) (skipn (Z.to_nat offset)
                     (order_by_time_desc
                        (List.filter (fun r => log_user_id r =? uid)
                                     (log_entry_records (tabs w)))))).
    rewrite iterate_logs. unfold ret.
    assert (Hel : elems (match map (fun r => (log_time r, log_event r, log_param r)) window with
                         | [] => nilSlice
                         | _ => Slice (elems nilSlice
                                       ++ map entry_of_row
                                            (map (fun r => (log_time r, log_event r, log_param r))
                                                 window))
                         end)
                  = map (fun r => mkLogEntry (log_time r) (log_event r) (log_param r)) window).
    { destruct window as [|r rs]; [reflexivity|]. cbn [map elems app].
      now rewrite map_map. }
    eexists. split; [reflexivity|]. unfold len. rewrite Hel.
    split; [|split].
    + rewrite length_map. unfold window. rewrite length_firstn. lia.
    + rewrite map_map. cbn [Timestamp].
      change (map (fun x => log_time x) window) with (map log_time window).
      unfold window. rewrite <- !firstn_map, <- !skipn_map.
      apply descending_firstn, descending_skipn, order_by_time_desc_times.
    + apply (proj2 (List.Forall_map _ _ _)). unfold window.
      apply window_Forall, order_by_time_desc_Forall, filter_Forall.
      apply List.Forall_forall. intros r Hr Hid. exists r.
      split; [exact Hr|]. split; [now apply Z.eqb_eq|reflexivity].
  - intros Hneg. unfold Logs, keyshare.QueryIterate, bind.
    rewrite (Query_ok _ _ w Hf). unfold select_logs.
    destruct (Z.ltb_spec offset 0) as [_|?]; [reflexivity|lia].
Qed.

(** The second page of size 2 of a log of three entries. *)
Lemma Logs_window_witness :
  exists entries, Logs 7 2 2 log_world = (Ok entries, log_world) /\ len entries <= 2.
Proof.
  destruct (Logs_window 7 2 2 log_world eq_refl) as [H _].
  destruct (H ltac:(lia) ltac:(lia)) as (entries & Hrun & Hlen & _).
  exists entries. split; [exact Hrun|exact Hlen].
Defined.

(** *** The transaction adapter *)

(** [Tx] runs [f] only inside a transaction it has begun, and ends that
    transaction: if the BEGIN fails, [f] is not run and an internal error
    is written; if [f] reports an error, the error is written and the
    transaction is rolled back, so that none of the writes [f] made on it
    reaches the committed tables; if [f] reports none, the transaction is
    committed, all its writes taking effect together, or, when the COMMIT
    fails, none of them and an internal error is written. *)
Theorem Tx_outcomes {S} (vars : S)
    (f : keyshare.Tx -> S -> M (option ServerError * string * S)) (w : World) :
  (forall m fs,
     faults w = Some m :: fs ->
     Tx vars f w =
       (Ok vars,
        set_written
          (set_logged (set_faults w fs) (logged w ++ ["Error starting DB transaction"]))
          (written w ++ [WriteError ErrorInternal m])))
  /\ (forall w1 e msg v w2,
        BeginTx w = (Ok openTx, w1) ->
        f (Some openTx) vars w1 = (Ok (Some e, msg, v), w2) ->
        fst (Tx vars f w) = Ok v
        /\ tabs (snd (Tx vars f w)) = tabs w2
        /\ written (snd (Tx vars f w)) = written w2 ++ [WriteError e msg]
        /\ (next_ok w2 = true -> pend (snd (Tx vars f w)) = []))
  /\ (forall w1 msg v w2,
        BeginTx w = (Ok openTx, w1) ->
        f (Some openTx) vars w1 = (Ok (None, msg, v), w2) ->
        fst (Tx vars f w) = Ok v
        /\ (next_ok w2 = true ->
            tabs (snd (Tx vars f w)) = view openTx w2
            /\ pend (snd (Tx vars f w)) = []
            /\ written (snd (Tx vars f w)) = written w2)
        /\ (forall m fs,
              faults w2 = Some m :: fs ->
              tabs (snd (Tx vars f w)) = tabs w2
              /\ written (snd (Tx vars f w))
                 = written w2 ++ [WriteError ErrorInternal m])).
Proof.
  split; [|split].
  - intros m fs Hf. unfold Tx, try, BeginTx, bind, roundtrip. now rewrite Hf.
  - intros w1 e msg v w2 Hb Hrun. unfold Tx, try, bind. rewrite Hb, Hrun.
    unfold Rollback, bind, roundtrip, next_ok.
    destruct (faults w2) as [|[m|] fs]; cbn; repeat split; congruence.
  - intros w1 msg v w2 Hb Hrun. unfold Tx, try, bind. rewrite Hb, Hrun.
    unfold Commit, bind, roundtrip, next_ok.
    destruct (faults w2) as [|[m|] fs]; cbn.
    + split; [reflexivity|]. split; [now intros _|]. intros m fs' [=].
    + split; [reflexivity|]. split; [intros [=]|]. intros m' fs' [= <- <-]. now split.
    + split; [reflexivity|]. split; [now intros _|]. intros m fs' [=].
Qed.

(** A handler that deletes "tok1" on the transaction and then reports an
    error: the token is still there afterwards. *)
Lemma Tx_outcomes_witness :
  let f := fun (tx : keyshare.Tx) (_ : unit) =>
             let* _ := keyshare.ExecCount openTx (DeleteVerificationToken "tok1") in
             ret (Some ErrorInvalidRequest, "no", tt) in
  tabs (snd (Tx tt f (sample.verification_world [])))
    = tabs (sample.verification_world []).
Proof.
  cbv zeta.
  destruct (Tx_outcomes tt
              (fun (tx : keyshare.Tx) (_ : unit) =>
                 let* _ := keyshare.ExecCount openTx (DeleteVerificationToken "tok1") in
                 ret (Some ErrorInvalidRequest, "no", tt))
              (sample.verification_world [])) as (_ & H & _).
  destruct (H (sample.verification_world []) ErrorInvalidRequest "no" tt
              (write openTx (DeleteVerificationToken "tok1")
                 (sample.verification_world []))) as (_ & Ht & _).
  - reflexivity.
  - reflexivity.
  - rewrite Ht. reflexivity.
Defined.

End MyirmaStore.

(** ** The console's handlers *)

Section ConsoleMore.

Import myirmaserver.

(** *** Reads of the database *)

Lemma roundtrip_read : database_read roundtrip.
Proof.
  intros w. unfold roundtrip. destruct (faults w) as [|[m|] fs] eqn:E; cbn.
  - split; [discriminate|]. exists []. destruct w; cbn in *; now subst.
  - split; [discriminate|]. now exists fs.
  - split; [discriminate|]. now exists fs.
Qed.

Lemma read_bind {A B} (m : M A) (k : A -> M B) :
  database_read m -> (forall a, database_read (k a)) -> database_read (bind m k).
Proof.
  intros Hm Hk w. unfold bind. destruct (Hm w) as [Hp [fs Hs]].
  destruct (m w) as [[a|e] w']; cbn [fst snd] in *; subst w'.
  - destruct (Hk a (set_faults w fs)) as [Hp' [fs' Hs']].
    split; [exact Hp'|]. exists fs'. now rewrite Hs'.
  - split; [|now exists fs]. intros msg [= ->]. now apply (Hp msg).
Qed.

Lemma read_try {A B} (m : M A) (k : result A -> M B) :
  database_read m ->
  (forall r, (forall msg, r <> Err (Panic msg)) -> database_read (k r)) ->
  database_read (try m k).
Proof.
  intros Hm Hk w. unfold try. destruct (Hm w) as [Hp [fs Hs]].
  destruct (m w) as [r w']; cbn [fst snd] in *; subst w'.
  destruct (Hk r Hp (set_faults w fs)) as [Hp' [fs' Hs']].
  destruct r as [a|e].
  - split; [exact Hp'|]. exists fs'. now rewrite Hs'.
  - destruct e; try (split; [exact Hp'|exists fs'; now rewrite Hs']).
    exfalso. now apply (Hp msg).
Qed.

Lemma read_ret {A} (a : A) : database_read (ret a).
Proof. intros w. split; [discriminate|]. exists (faults w). now destruct w. Qed.

Lemma read_fail {A} (e : error) :
  (forall msg, e <> Panic msg) -> database_read (@fail A e).
Proof.
  intros He w. split; [intros msg [= ->]; now apply (He msg)|].
  exists (faults w). now destruct w.
Qed.

Lemma Query_read {A} (q : select A) :
  (forall t msg, q t <> Err (Panic msg)) -> database_read (Query nilTx None q).
Proof.
  intros Hq. unfold Query. apply read_bind; [apply roundtrip_read|]. intros _ w.
  cbn [view]. pose proof (Hq (tabs w)) as H.
  destruct (q (tabs w)) as [rows|e]; cbn [fst snd].
  - split; [discriminate|]. exists (faults w). now destruct w.
  - split; [intros msg [= ->]; now apply (H msg)|]. exists (faults w). now destruct w.
Qed.

Lemma QueryUser_read {A} (q : select A) :
  (forall t msg, q t <> Err (Panic msg)) -> database_read (keyshare.QueryUser nilTx q).
Proof.
  intros Hq. unfold keyshare.QueryUser, keyshare.QueryScan.
  apply read_try.
  - apply read_bind; [now apply Query_read|]. intros [|row rows];
      [now apply read_fail|apply read_ret].
  - intros [row|e] Hr; [apply read_ret|].
    destruct e; try (now apply read_fail). exfalso. now apply (Hr msg).
Qed.

Lemma QueryIterate_read {A S} (q : select A) (f : A -> S -> result S) (acc : S) :
  (forall t msg, q t <> Err (Panic msg)) ->
  (forall row acc, exists acc', f row acc = Ok acc') ->
  database_read (keyshare.QueryIterate nilTx q f acc).
Proof.
  intros Hq Hf. unfold keyshare.QueryIterate.
  apply read_bind; [now apply Query_read|]. intros rows.
  assert (H : exists acc', keyshare.iterate f rows acc = Ok acc').
  { revert acc. induction rows as [|row rows IH]; intros acc; cbn; [now exists acc|].
    destruct (Hf row acc) as [acc' ->]. apply IH. }
  destruct H as [acc' ->]. apply read_ret.
Qed.

Lemma UserID_read name : database_read (UserID name).
Proof. apply QueryUser_read. intros t msg. discriminate. Qed.

Lemma UserInformation_read now uid : database_read (UserInformation now uid).
Proof.
  unfold UserInformation. apply read_bind.
  - apply QueryUser_read. intros t msg. discriminate.
  - intros [[un lang] dip]. apply QueryIterate_read.
    + intros t msg. discriminate.
    + intros row acc. eexists. reflexivity.
Qed.


Lemma scalar_no_panic {A} (rows : list A) msg : scalar rows <> Err (Panic msg).
Proof. destruct rows as [|x [|y rest]]; discriminate. Qed.

Lemma LoginTokenCandidates_read now tok : database_read (LoginTokenCandidates now tok).
Proof.
  unfold LoginTokenCandidates. apply read_bind.
  - apply QueryIterate_read.
    + intros t msg. unfold select_candidates.
      pose proof (scalar_no_panic (select_login_token_email tok now t)) as H.
      destruct (scalar (select_login_token_email tok now t)) as [sub|e]; [discriminate|].
      intros [= ->]. now apply (H msg).
    + intros row acc. eexists. reflexivity.
  - intros c. destruct (len c =? 0); [now apply read_fail|apply read_ret].
Qed.


(** *** The session guard *)

Lemma sessionFromCookie_logged_in now conf r (w : World) s :
  logged_in now r w = Some s ->
  exists tok,
    Cookie r = Some tok /\ userID s <> None /\
    sessionFromCookie now conf r w =
      (Ok (Some (set_expiry (now + SessionLifetime conf) s)),
       set_sessions w (<[tok := set_expiry (now + SessionLifetime conf) s]> (sessions w))).
Proof.
  unfold logged_in, sessionFromCookie. destruct (Cookie r) as [tok|]; [|discriminate].
  destruct (sessions w !! tok) as [s0|] eqn:E; [|discriminate].
  destruct (Z.leb_spec now (expiry s0)) as [He|He]; [|discriminate].
  destruct (userID s0) as [uid|] eqn:Eu; [|discriminate]. cbn. intros [= <-].
  exists tok. split; [reflexivity|]. split; [congruence|].
  now apply get_hit.
Qed.

Lemma sessionFromCookie_anonymous now conf r (w : World) :
  logged_in now r w = None ->
  exists w', (sessionFromCookie now conf r w = (Ok None, w')
              \/ exists s, userID s = None
                           /\ sessionFromCookie now conf r w = (Ok (Some s), w'))
             /\ tabs w' = tabs w /\ pend w' = pend w /\ written w' = written w
             /\ logged w' = logged w.
Proof.
  unfold logged_in, sessionFromCookie. destruct (Cookie r) as [tok|].
  2:{ intros _. exists w. repeat split. now left. }
  unfold store.get.
  destruct (sessions w !! tok) as [s0|] eqn:E.
  2:{ intros _. exists w. repeat split. now left. }
  destruct (now <=? expiry s0).
  2:{ intros _. exists w. repeat split. now left. }
  destruct (userID s0) as [uid|] eqn:Eu; [discriminate|]. intros _.
  eexists. split; [right; eexists; split; [|reflexivity]; reflexivity|]. now repeat split.
Qed.

(** The middleware's guard: a request that is not logged in is answered
    with "not logged in" and the handler behind the middleware is not
    run; a request that is logged in reaches the handler, with the
    session it is logged in with, its expiry extended. *)
Theorem sessionMiddleware_guard now conf (next : Sessiondata -> M unit) r (w : World) :
  (logged_in now r w = None ->
   let w' := snd (sessionMiddleware now conf next r w) in
   fst (sessionMiddleware now conf next r w) = Ok tt
   /\ written w' = written w ++ [WriteError ErrorInvalidRequest "not logged in"]
   /\ logged w' = logged w ++ ["Malformed request: user not logged in"]
   /\ tabs w' = tabs w /\ pend w' = pend w)
  /\ (forall s tok,
        logged_in now r w = Some s -> Cookie r = Some tok ->
        let s' := set_expiry (now + SessionLifetime conf) s in
        userID s' <> None
        /\ sessionMiddleware now conf next r w
           = next s' (set_sessions w (<[tok := s']> (sessions w)))).
Proof.
  split.
  - intros H. destruct (sessionFromCookie_anonymous now conf r w H)
      as (w' & Hs & Ht & Hp & Hw & Hl).
    unfold sessionMiddleware, bind.
    destruct Hs as [->|(s & Hu & ->)]; [|unfold is_null, is_not_null; rewrite Hu];
      cbn; now rewrite Ht, Hp, Hw, Hl.
  - intros s tok H Hc.
    destruct (sessionFromCookie_logged_in now conf r w s H) as (tok' & Hc' & Hu & Hs).
    assert (tok' = tok) by congruence. subst tok'. split; [exact Hu|].
    unfold sessionMiddleware, bind. rewrite Hs.
    cbn [userID set_expiry]. unfold is_null, is_not_null.
    destruct (userID s); [reflexivity|congruence].
Qed.

Lemma sessionMiddleware_guard_witness :
  written (snd (sessionMiddleware 20 sample.conf (handleUserInfo 20 sample.conf)
                  sample.cookie sample.anonymous_world))
  = written sample.anonymous_world
      ++ [WriteError ErrorInvalidRequest "not logged in"].
Proof.
  destruct (sessionMiddleware_guard 20 sample.conf (handleUserInfo 20 sample.conf)
              sample.cookie sample.anonymous_world) as [H _].
  destruct (H eq_refl) as (_ & Hw & _). exact Hw.
Defined.


(** *** Behind the guard *)






(** *** Logging out *)

(** POST /logout clears the user of the session that the request's
    cookie names, and keeps the session: in the state it leaves, the
    session is still in the store under its token, with its expiry
    extended and no user, so that a request with the cookie is logged in
    at no time from [now] on, for as long as nothing sets the user of that
    session again.  The sessions under other tokens are as they were; the
    response clears the cookie and carries status 204; the database is not
    involved. *)
Theorem handleLogout_clears_user now conf r (w : World) :
  store_ok w ->
  let w' := snd (handleLogout now conf r w) in
  fst (handleLogout now conf r w) = Ok tt
  /\ (forall tok s,
        Cookie r = Some tok -> sessions w !! tok = Some s -> now <= expiry s ->
        sessions w' !! tok
        = Some (set_userID None (set_expiry (now + SessionLifetime conf) s)))
  /\ (forall now', now <= now' -> logged_in now' r w' = None)
  /\ (forall tok, Cookie r <> Some tok -> sessions w' !! tok = sessions w !! tok)
  /\ written w' = written w ++ [SetCookie "" (-1); WriteHeader 204]
  /\ tabs w' = tabs w /\ pend w' = pend w /\ faults w' = faults w.
Proof.
  intros Hok. unfold handleLogout, logoutUser, sessionFromCookie, logged_in, bind.
  destruct (Cookie r) as [tok|] eqn:Ec.
  2:{ cbn. rewrite <- app_assoc. split; [reflexivity|].
      split; [intros tok s [=]|]. now repeat split. }
  unfold store.get. destruct (sessions w !! tok) as [s|] eqn:E.
  2:{ cbn. rewrite E, <- app_assoc. split; [reflexivity|].
      split; [intros tok' s [= <-]; congruence|]. now repeat split. }
  destruct (Z.leb_spec now (expiry s)) as [He|He].
  - pose proof (Hok tok s E) as Ht.
    cbn. rewrite Ht, <- app_assoc.
    split; [reflexivity|]. split; [|split; [|split; [|now repeat split]]].
    + intros tok' s' [= <-] Hs' _. assert (s' = s) by congruence. subst s'.
      rewrite lookup_alter_eq, lookup_insert_eq. cbn.
      unfold set_userID, set_expiry. cbn. now rewrite Ht.
    + intros now' _. rewrite lookup_alter_eq, lookup_insert_eq. cbn.
      now rewrite andb_false_r.
    + intros tok' Hne. assert (tok <> tok') by congruence.
      now rewrite lookup_alter_ne, lookup_insert_ne.
  - cbn. rewrite E, <- app_assoc.
    split; [reflexivity|]. split; [|split; [|now repeat split]].
    + intros tok' s' [= <-] Hs' Hle. assert (s' = s) by congruence. subst s'. lia.
    + intros now' Hn. destruct (Z.leb_spec now' (expiry s)); [lia|reflexivity].
Qed.

(** User 7 logs out at [t = 20]: the session stays, without a user. *)
Lemma handleLogout_clears_user_witness :
  sessions (snd (handleLogout 20 sample.conf sample.cookie sample.console_world))
    !! "tokA" = Some (mkSession "tokA" None 320 None "")
  /\ logged_in 50 sample.cookie (snd (handleLogout 20 sample.conf sample.cookie
                                        sample.console_world)) = None.
Proof.
  assert (Hok : store_ok sample.console_world).
  { intros tok s. unfold sample.console_world. cbn [sessions].
    destruct (decide (tok = "tokA")) as [->|Hne].
    - rewrite lookup_insert_eq. now intros [= <-].
    - rewrite lookup_insert_ne by congruence. now rewrite lookup_empty. }
  destruct (handleLogout_clears_user 20 sample.conf sample.cookie
              sample.console_world Hok) as (_ & Hs & H & _).
  split.
  - apply (Hs "tokA" sample.session7); [reflexivity|reflexivity|].
    cbn. lia.
  - apply H. lia.
Defined.

(** *** Polling for the outcome of a disclosure *)

(** A logged-in session with a pending error: the next POST /checksession
    answers with that error and clears it, and the one after it, while
    the session lasts, answers "ok". *)
Theorem handleCheckSession_reports_pending_error_once
    now now' conf tok s uid e (w : World) :
  sessions w !! tok = Some s -> token s = tok -> now <= expiry s ->
  userID s = Some uid -> pendingError s = Some e ->
  now <= now' <= now + SessionLifetime conf ->
  let r := mkRequest (Some tok) in
  let w1 := snd (handleCheckSession now conf r w) in
  let w2 := snd (handleCheckSession now' conf r w1) in
  written w1 = written w ++ [WriteError e (pendingErrorMessage s)]
  /\ written w2 = written w1 ++ [WriteString "ok"]
  /\ sessions w2 !! tok
     = Some (mkSession tok (Some uid) (now' + SessionLifetime conf) None "").
Proof.
  intros H Ht He Hu Hp Hn. cbv zeta. subst tok.
  set (tok := token s) in *.
  assert (H1 : handleCheckSession now conf (mkRequest (Some tok)) w =
               (Ok tt,
                set_sessions
                  (set_written w (written w ++ [WriteError e (pendingErrorMessage s)]))
                  (<[tok := mkSession tok (Some uid) (now + SessionLifetime conf) None ""]>
                     (sessions w)))).
  { unfold handleCheckSession, sessionFromCookie, bind. cbn [Cookie].
    rewrite (get_hit now _ tok s w H He). cbn [userID set_expiry pendingError].
    rewrite Hu, Hp. cbn. fold tok. unfold assign, set_sessions, set_written. cbn.
    f_equal. f_equal. apply map_eq. intros k.
    destruct (decide (k = tok)) as [->|Hne].
    - rewrite lookup_alter_eq, !lookup_insert_eq.
      unfold set_pendingError, set_expiry. cbn. fold tok. now rewrite Hu.
    - now rewrite lookup_alter_ne, !lookup_insert_ne
        by (intro X; apply Hne; symmetry; exact X). }
  rewrite H1. cbn [snd]. split; [reflexivity|].
  set (s1 := mkSession tok (Some uid) (now + SessionLifetime conf) None "").
  set (w1 := set_sessions _ _).
  assert (Hl : sessions w1 !! tok = Some s1) by (unfold w1; cbn; apply lookup_insert_eq).
  unfold handleCheckSession, sessionFromCookie, bind. cbn [Cookie].
  rewrite (get_hit now' _ tok s1 w1 Hl) by (cbn; lia).
  cbn. split; [reflexivity|]. now rewrite lookup_insert_eq.
Qed.


Lemma handleCheckSession_reports_pending_error_once_witness :
  written (snd (handleCheckSession 40 sample.conf sample.cookie
                  (snd (handleCheckSession 30 sample.conf sample.cookie flagged_world))))
  = (written flagged_world ++ [WriteError ErrorInvalidProofs ""]) ++ [WriteString "ok"].
Proof.
  destruct (handleCheckSession_reports_pending_error_once 30 40 sample.conf "tokA"
              (mkSession "tokA" (Some 7) 320 (Some ErrorInvalidProofs) "") 7
              ErrorInvalidProofs flagged_world)
    as (H1 & H2 & _).
  - vm_compute. reflexivity.
  - reflexivity.
  - cbn. lia.
  - reflexivity.
  - reflexivity.
  - cbn. lia.
  - unfold sample.cookie. cbv zeta in H2. rewrite H2, H1. reflexivity.
Defined.

(** *** The disclosure callback of POST /email/add *)

Lemma logged_in_lookup now tok (w : World) s :
  logged_in now (mkRequest (Some tok)) w = Some s ->
  sessions w !! tok = Some s /\ now <= expiry s /\ userID s <> None.
Proof.
  unfold logged_in. cbn [Cookie]. destruct (sessions w !! tok) as [s0|]; [|discriminate].
  destruct (Z.leb_spec now (expiry s0)); [|discriminate].
  destruct (userID s0) eqn:E; [|discriminate]. cbn. intros [= <-].
  repeat split; [assumption|congruence].
Qed.

(** The callback that ends the disclosure of an e-mail address.  Unless
    the session is logged in and the disclosure is completed and valid, it
    returns without touching the database.  On a logged-in session: an
    incomplete disclosure changes nothing but the session's expiry; an
    invalid one parks [ErrorInvalidProofs] in the session; a valid one,
    when the database carries out the statements, binds the disclosed
    address to the session's user with no removal scheduled and parks no
    error; when the driver fails on the first statement, the tables are
    as they were and the driver's error is parked as an internal error. *)
Theorem processAddEmailIrmaSessionResult_outcomes now conf tok res (w : World) :
  let run := processAddEmailIrmaSessionResult now conf tok res w in
  (logged_in now (mkRequest (Some tok)) w = None
   \/ is_done (result_Status res) = false
   \/ is_valid (result_ProofStatus res) = false ->
   fst run = Ok tt /\ tabs (snd run) = tabs w /\ pend (snd run) = pend w)
  /\ (forall s uid,
        logged_in now (mkRequest (Some tok)) w = Some s ->
        token s = tok -> userID s = Some uid ->
        let s' := set_expiry (now + SessionLifetime conf) s in
        (is_done (result_Status res) = false -> sessions (snd run) !! tok = Some s')
        /\ (is_done (result_Status res) = true ->
            is_valid (result_ProofStatus res) = false ->
            sessions (snd run) !! tok
            = Some (set_pendingError (Some ErrorInvalidProofs) "" s'))
        /\ (forall mail rest more,
              is_done (result_Status res) = true ->
              is_valid (result_ProofStatus res) = true ->
              Disclosed res = (Some mail :: rest) :: more ->
              (faults w = [] ->
               fst run = Ok tt
               /\ has_active_binding uid mail (tabs (snd run)) = true
               /\ sessions (snd run) !! tok = Some s')
              /\ (forall msg fs,
                    faults w = Some msg :: fs ->
                    fst run = Ok tt
                    /\ tabs (snd run) = tabs w
                    /\ sessions (snd run) !! tok
                       = Some (set_pendingError (Some ErrorInternal) msg s')))).
Proof.
  cbv zeta. split.
  - intros H. unfold processAddEmailIrmaSessionResult, bind.
    destruct (logged_in now (mkRequest (Some tok)) w) as [s|] eqn:E.
    + destruct (logged_in_lookup now tok w s E) as (Hl & He & Hu).
      rewrite (get_hit now _ tok s w Hl He). cbn [userID set_expiry].
      destruct (userID s) as [uid|]; [|congruence].
      destruct H as [H|[H|H]]; [discriminate| |].
      * rewrite H. cbn. now repeat split.
      * rewrite H. destruct (is_done (result_Status res)); cbn; now repeat split.
    + destruct (sessionFromCookie_anonymous now conf (mkRequest (Some tok)) w E)
        as (w' & Hs & Ht & Hp & _).
      unfold sessionFromCookie in Hs. cbn [Cookie] in Hs.
      destruct Hs as [->|(s & Hu & ->)]; [|rewrite Hu]; cbn; now repeat split.
  - intros s uid E Ht Hu.
    destruct (logged_in_lookup now tok w s E) as (Hl & He & _).
    unfold processAddEmailIrmaSessionResult, bind.
    rewrite (get_hit now _ tok s w Hl He). cbn [userID set_expiry]. rewrite Hu.
    split; [|split].
    + intros ->. cbn. apply lookup_insert_eq.
    + intros -> ->. cbn. unfold assign. cbn. rewrite Ht, lookup_alter_eq, lookup_insert_eq.
      reflexivity.
    + intros mail rest more -> -> Hd. cbn [negb]. unfold first_disclosed. rewrite Hd.
      set (w1 := set_sessions w _).
      change (ret mail w1) with (Ok mail, w1). cbv beta iota. unfold try. split.
      * intros Hf.
        assert (Hf1 : faults w1 = []) by exact Hf.
        destruct (AddEmail_ok_world uid mail w1 Hf1) as (Hrun & _).
        pose proof (AddEmail_has_active uid mail w1 Hf1) as Hact.
        rewrite Hrun. cbn [fst snd ret]. split; [reflexivity|]. split; [exact Hact|].
        rewrite (AddEmail_eq uid mail w1 Hf1). cbn [snd].
        destruct (count _ _ =? 1); cbn; apply lookup_insert_eq.
      * intros msg fs Hf. unfold AddEmail, keyshare.ExecCount, Exec, bind, roundtrip.
        subst w1. cbn [faults set_sessions]. rewrite Hf. cbn. unfold assign. cbn.
        rewrite Ht, lookup_alter_eq, lookup_insert_eq. now repeat split.
Qed.

Lemma processAddEmailIrmaSessionResult_outcomes_witness :
  has_active_binding 7 "u"
    (tabs (snd (processAddEmailIrmaSessionResult 20 sample.conf "tokA"
                  sample.valid_disclosure sample.console_world))) = true.
Proof.
  destruct (processAddEmailIrmaSessionResult_outcomes 20 sample.conf "tokA"
              sample.valid_disclosure sample.console_world) as [_ H].
  destruct (H sample.session7 7) as (_ & _ & Hv).
  - vm_compute. reflexivity.
  - reflexivity.
  - reflexivity.
  - destruct (Hv "u" [] [] eq_refl eq_refl eq_refl) as [Hok _].
    destruct (Hok eq_refl) as (_ & Hact & _). exact Hact.
Defined.

End ConsoleMore.

Section LastSeen.

Import myirmaserver.

(** *** The update of last_seen without a transaction *)

Lemma lu_ret {A} (a : A) : leaves_users (ret a).
Proof.
  intros w. cbn. repeat split; try discriminate; try tauto.
  exists []. now rewrite app_nil_r.
Qed.

Lemma lu_fail {A} (e : error) : (forall msg, e <> Panic msg) -> leaves_users (@fail A e).
Proof.
  intros He w. cbn. repeat split; try tauto.
  - intros msg [= ->]. now apply (He msg).
  - exists []. now rewrite app_nil_r.
Qed.

Lemma lu_bind {A B} (m : M A) (k : A -> M B) :
  leaves_users m -> (forall a, leaves_users (k a)) -> leaves_users (bind m k).
Proof.
  intros Hm Hk w. unfold bind. destruct (Hm w) as (Hp & Hu & Hs & He & evs & Hw).
  destruct (m w) as [[a|e] w1]; cbn [fst snd] in *.
  - destruct (Hk a w1) as (Hp' & Hu' & Hs' & He' & evs' & Hw').
    split; [exact Hp'|]. split; [congruence|]. split; [tauto|]. split; [congruence|].
    exists (evs ++ evs'). now rewrite Hw', Hw, app_assoc.
  - split; [intros msg [= ->]; now apply (Hp msg)|]. repeat split; try assumption.
    now exists evs.
Qed.

Lemma lu_try {A B} (m : M A) (k : result A -> M B) :
  leaves_users m ->
  (forall r, (forall msg, r <> Err (Panic msg)) -> leaves_users (k r)) ->
  leaves_users (try m k).
Proof.
  intros Hm Hk w. unfold try. destruct (Hm w) as (Hp & Hu & Hs & He & evs & Hw).
  destruct (m w) as [r w1]; cbn [fst snd] in *.
  destruct (Hk r Hp w1) as (Hp' & Hu' & Hs' & He' & evs' & Hw').
  assert (Hall : (forall msg, fst (k r w1) <> Err (Panic msg))
                 /\ users (tabs (snd (k r w1))) = users (tabs w)
                 /\ (forallb spares_users (pend w) = true ->
                     forallb spares_users (pend (snd (k r w1))) = true)
                 /\ entropy (snd (k r w1)) = entropy w
                 /\ exists evs0, written (snd (k r w1)) = written w ++ evs0).
  { split; [exact Hp'|]. split; [congruence|]. split; [tauto|]. split; [congruence|].
    exists (evs ++ evs'). now rewrite Hw', Hw, app_assoc. }
  destruct r as [a|e]; [exact Hall|].
  destruct e; try exact Hall. exfalso. now apply (Hp msg).
Qed.

Lemma lu_roundtrip : leaves_users roundtrip.
Proof.
  intros w. unfold roundtrip.
  destruct (faults w) as [|[m|] fs]; cbn; repeat split; try discriminate; try tauto;
    exists []; now rewrite app_nil_r.
Qed.

Lemma lu_Log msg : leaves_users (Log msg).
Proof.
  intros w. cbn. repeat split; try discriminate; try tauto.
  exists []. now rewrite app_nil_r.
Qed.

Lemma lu_Write e : leaves_users (Write e).
Proof.
  intros w. cbn. repeat split; try discriminate; try tauto. now exists [e].
Qed.

Lemma spares_users_exec (s : stmt) (t : Tables) :
  spares_users s = true -> users (exec_stmt s t) = users t.
Proof. destruct s; try discriminate; reflexivity. Qed.

Lemma spares_users_replay (p : list stmt) (t : Tables) :
  forallb spares_users p = true -> users (replay p t) = users t.
Proof.
  unfold replay. revert t. induction p as [|s p IH]; intros t; [reflexivity|].
  cbn [forallb fold_left]. intros H. apply andb_true_iff in H as [Hs Hp].
  now rewrite (IH _ Hp), (spares_users_exec s t Hs).
Qed.

Lemma lu_Exec tx (s : stmt) : spares_users s = true -> leaves_users (Exec tx s).
Proof.
  intros Hs. unfold Exec. apply lu_bind; [apply lu_roundtrip|]. intros _ w.
  cbn [fst snd]. split; [discriminate|].
  destruct tx; cbn [write tabs pend set_tabs set_pend entropy written].
  - split; [now apply spares_users_exec|]. split; [tauto|]. split; [reflexivity|].
    exists []. now rewrite app_nil_r.
  - split; [reflexivity|]. split; [|split; [reflexivity|]].
    + intros Hp. rewrite forallb_app, Hp. cbn. now rewrite Hs.
    + exists []. now rewrite app_nil_r.
Qed.

Lemma lu_Query {A} tx (q : select A) :
  (forall t msg, q t <> Err (Panic msg)) -> leaves_users (Query tx None q).
Proof.
  intros Hq. unfold Query. apply lu_bind; [apply lu_roundtrip|]. intros _ w.
  pose proof (Hq (view tx w)) as Hn.
  destruct (q (view tx w)) as [rows|e]; cbn [fst snd].
  - split; [discriminate|]. split; [reflexivity|]. split; [tauto|].
    split; [reflexivity|]. exists []. now rewrite app_nil_r.
  - split; [intros msg [= ->]; now apply (Hn msg)|]. split; [reflexivity|].
    split; [tauto|]. split; [reflexivity|]. exists []. now rewrite app_nil_r.
Qed.

Lemma lu_QueryScan {A} tx (q : select A) :
  (forall t msg, q t <> Err (Panic msg)) -> leaves_users (keyshare.QueryScan tx q).
Proof.
  intros Hq. unfold keyshare.QueryScan. apply lu_bind; [now apply lu_Query|].
  intros [|row rows]; [now apply lu_fail|apply lu_ret].
Qed.

Lemma lu_AddEmail uid mail : leaves_users (AddEmail uid mail).
Proof.
  unfold AddEmail, keyshare.ExecCount. apply lu_bind; [now apply lu_Exec|].
  intros aff. destruct (aff =? 1); [apply lu_ret|].
  apply lu_bind; [now apply lu_Exec|]. intros _. apply lu_ret.
Qed.

Lemma lu_VerifyEmailToken now tok :
  leaves_users (VerifyEmailToken now (Some openTx) tok).
Proof.
  unfold VerifyEmailToken. cbn [keyshare.assert_sqlTx].
  apply lu_bind; [apply lu_ret|]. intros tx.
  apply lu_try; [apply lu_QueryScan; intros t msg; discriminate|].
  intros [[uid mail]|e] Hr.
  - apply lu_bind; [apply lu_AddEmail|]. intros _.
    apply lu_try; [unfold keyshare.ExecCount; now apply lu_Exec|].
    intros [aff|e] _.
    + destruct (negb (aff =? 1)); [|apply lu_ret].
      apply lu_bind; [apply lu_Log|]. intros _. apply lu_ret.
    + apply lu_bind; [apply lu_Log|]. intros _. apply lu_ret.
  - destruct e; try (now apply lu_fail). exfalso. now apply (Hr msg).
Qed.


Lemma roundtrip_frame (w : World) :
  exists fs, snd (roundtrip w) = set_faults w fs
             /\ (fst (roundtrip w) = Ok tt \/ exists m, fst (roundtrip w) = Err (ErrDriver m)).
Proof.
  unfold roundtrip. destruct (faults w) as [|[m|] fs] eqn:E; cbn.
  - exists []. split; [destruct w; cbn in *; now subst|now left].
  - exists fs. split; [reflexivity|right; eauto].
  - exists fs. split; [reflexivity|now left].
Qed.

(** What the transaction of POST /verify leaves: [irma.users] as it was,
    and either a result with the response written, or, with the entropy
    source exhausted, a panic. *)
Lemma handleVerifyEmail_transaction now conf tok (w : World)
    (f : keyshare.Tx -> Z -> M (option ServerError * string * Z)) :
  f = (fun tx _ =>
         let? r := VerifyEmailToken now tx tok in
         match r with
         | Err ErrTokenNotFound =>
             let* _ := Log "Unknown email verification token" in
             ret (Some ErrorInvalidRequest, "Unknown email verification token", 0)
         | Err _ =>
             let* _ := Log "Could not verify email token" in
             ret (Some ErrorInvalidRequest, "could not verify email token", 0)
         | Ok id =>
             let* session := store.create now (SessionLifetime conf) in
             let* _ := assign session (set_userID (Some id)) in
             let* _ := setCookie (token session) (SessionLifetime conf) in
             let* _ := Write (WriteHeader 204) in
             ret (None, "", id)
         end) ->
  users (tabs (snd (Tx 0 f w))) = users (tabs w)
  /\ ((exists id, fst (Tx 0 f w) = Ok id
                  /\ exists ev evs, written (snd (Tx 0 f w)) = written w ++ ev :: evs)
      \/ (entropy w = [] /\ exists msg, fst (Tx 0 f w) = Err (Panic msg))).
Proof.
  intros ->.
  match goal with |- context [Tx 0 ?f w] => destruct (Tx 0 f w) as [res wT] eqn:Hrun end.
  cbn [fst snd].
  unfold Tx, BeginTx, Rollback, Commit, try, bind in Hrun.
  destruct (roundtrip_frame w) as (fs & Hw0 & Hr0).
  destruct (roundtrip w) as [r0 w0]. cbn [fst snd] in Hw0, Hr0. subst w0.
  destruct Hr0 as [->|[m ->]].
  2:{ cbn in Hrun. injection Hrun as <- <-. cbn. split; [reflexivity|].
      left. exists 0. split; [reflexivity|]. now eexists _, _. }
  cbv beta iota in Hrun.
  set (w0 := set_pend (set_faults w fs) []) in Hrun.
  destruct (lu_VerifyEmailToken now tok w0) as (Hp & Hu & Hs & He & evs & Hw).
  specialize (Hs eq_refl).
  destruct (VerifyEmailToken now (Some openTx) tok w0) as [r w1].
  cbn [fst snd] in Hp, Hu, Hs, He, Hw.
  change (users (tabs w0)) with (users (tabs w)) in Hu.
  change (entropy w0) with (entropy w) in He.
  change (written w0) with (written w) in Hw.
  assert (Hext : forall ev l, exists ev' evs', (written w ++ evs) ++ ev :: l
                                               = written w ++ ev' :: evs').
  { intros ev l. rewrite <- app_assoc. destruct evs as [|e0 evs]; cbn; now eexists _, _. }
  destruct r as [id|e].
  - unfold store.create in Hrun.
    destruct (entropy w1) as [|stok rest] eqn:Hent.
    { cbn in Hrun. injection Hrun as <- <-. split; [exact Hu|].
      right. split; [congruence|]. eauto. }
    unfold assign, setCookie, Write, ret in Hrun. cbv beta iota in Hrun.
    match type of Hrun with context [roundtrip ?w2] =>
      destruct (roundtrip_frame w2) as (fs2 & Hw2 & Hr2);
      destruct (roundtrip w2) as [r2 w3] end.
    cbn [fst snd] in Hw2, Hr2. subst w3.
    destruct Hr2 as [->|[m ->]]; cbn in Hrun; injection Hrun as <- <-; cbn.
    + split.
      * change (users (replay (pend w1) (tabs w1)) = users (tabs w)).
        now rewrite (spares_users_replay _ _ Hs).
      * left. exists id. split; [reflexivity|]. rewrite Hw, <- app_assoc.
        apply Hext.
    + split; [exact Hu|]. left. exists id. split; [reflexivity|].
      rewrite Hw, <- !app_assoc. cbn. rewrite app_assoc. apply Hext.
  - destruct e; try (exfalso; eapply Hp; reflexivity);
      unfold Log, Write, ret in Hrun; cbv beta iota in Hrun;
      match type of Hrun with context [roundtrip ?w2] =>
        destruct (roundtrip_frame w2) as (fs2 & Hw2 & Hr2);
        destruct (roundtrip w2) as [r2 w3] end;
      cbn [fst snd] in Hw2, Hr2; subst w3;
      (destruct Hr2 as [->|[m ->]]; cbn in Hrun; injection Hrun as <- <-; cbn;
       (split; [exact Hu|]); left; exists 0; (split; [reflexivity|]);
       rewrite Hw; apply Hext).
Qed.

(** The two callers that pass no transaction to [SetSeen] never update
    last_seen: [SetSeen] asserts the transaction's type before it sends
    its UPDATE, which panics on the nil interface.  The disclosure
    callback of the IRMA login therefore never writes to the database,
    whatever the session store, the disclosure and the driver.  POST
    /verify, once the body is parsed, never changes a row of [irma.users]
    and always ends in a panic; unless the entropy source fails while the
    session is created, the panic is that of [SetSeen], raised after the
    transaction adapter has returned and the response has been written. *)
Theorem SetSeen_without_transaction now conf tok :
  (forall res, keeps_database (processLoginIrmaSessionResult now conf tok res))
  /\ (forall w,
        let run := handleVerifyEmail now conf (Ok tok) w in
        users (tabs (snd run)) = users (tabs w)
        /\ (exists msg, fst run = Err (Panic msg))
        /\ (entropy w <> [] ->
            fst run = Err (Panic "interface conversion: keyshare.Tx is nil, not *sql.Tx")
            /\ exists ev evs, written (snd run) = written w ++ ev :: evs)).
Proof.
  split.
  - intros res w. unfold processLoginIrmaSessionResult, bind, store.get.
    destruct (sessions w !! tok) as [s|]; [|now cbn].
    destruct (now <=? expiry s); [|now cbn]. cbn [fst snd].
    destruct (is_done (result_Status res)); [|now cbn].
    destruct (is_valid (result_ProofStatus res)); [|now cbn]. cbn [negb].
    unfold first_disclosed.
    destruct (Disclosed res) as [|[|[name|] rest] more]; try (now cbn).
    set (w1 := set_sessions w _).
    change (ret name w1) with (Ok name, w1). cbv beta iota. unfold try.
    destruct (UserID_read name w1) as [Hp [fs Hs]].
    destruct (UserID name w1) as [[uid|e] w2]; cbn [fst snd] in Hp, Hs; subst w2.
    + now cbn.
    + destruct e; now cbn.
  - intros w. cbv zeta. unfold handleVerifyEmail, bind.
    match goal with |- context [Tx 0 ?f w] =>
      destruct (handleVerifyEmail_transaction now conf tok w f eq_refl) as [Hu H];
      destruct (Tx 0 f w) as [r wT]
    end.
    cbn [fst snd] in Hu, H.
    destruct H as [(id & -> & Hw)|(Hent & msg & ->)]; cbn [fst snd].
    + split; [exact Hu|]. split; [eauto|]. intros _. split; [reflexivity|exact Hw].
    + split; [exact Hu|]. split; [eauto|]. intros Hne. contradiction.
Qed.

(** POST /verify with "tok1" at [t = 100] on a healthy connection. *)
Lemma SetSeen_without_transaction_witness :
  fst (handleVerifyEmail 100 sample.conf (Ok "tok1") (sample.verification_world []))
  = Err (Panic "interface conversion: keyshare.Tx is nil, not *sql.Tx").
Proof.
  destruct (SetSeen_without_transaction 100 sample.conf "tok1") as [_ H].
  destruct (H (sample.verification_world [])) as (_ & _ & Hp).
  destruct Hp as [Hr _]; [discriminate|exact Hr].
Defined.

End LastSeen.

Section TokenLogin.

Import myirmaserver.

(** *** POST /login/token *)



End TokenLogin.

(** ** Handlers that send mail *)

Section Mail.

Import myirmaserver.

Variable SendEmail : Notice -> Mail -> M unit.
Variable LoginEmailBaseURL : string -> string.
Variable econf : EmailConfiguration.

(** *** POST /user/delete *)

(** The account is removed only after the notice has been handed to the
    mailer.  With a mail server configured, if the mailer fails (with an
    error, leaving tables and response alone), the handler answers with
    one internal error, of the mailer or of the lookup before it, and the
    account is not removed.  With no mail server configured no notice is sent, whatever
    the mailer: on a healthy connection, if the UPDATE marks one row, the
    account is soft-deleted with its deletion scheduled [DeleteDelay] days
    ahead, the session is logged out and the answer has status 204; if it
    marks another number of rows (none for an unknown account or one that
    is already being deleted), the answer is the internal error "Could not
    find specified user" and the session is not logged out. *)
Theorem handleDeleteUser_outcomes now conf r s uid (w : World) :
  userID s = Some uid ->
  let run := handleDeleteUser SendEmail econf now conf r s w in
  let removal := RemoveUserUpdate uid (now + 24 * 3600 * DeleteDelay econf) in
  (EmailServer econf <> "" ->
   (forall n m w0, exists e w1,
       SendEmail n m w0 = (Err e, w1) /\ (forall msg, e <> Panic msg)
       /\ tabs w1 = tabs w0 /\ written w1 = written w0) ->
   fst run = Ok tt
   /\ tabs (snd run) = tabs w
   /\ exists msg, written (snd run) = written w ++ [WriteError ErrorInternal msg])
  /\ (EmailServer econf = "" -> faults w = [] ->
      (rows_affected removal (tabs w) = 1 ->
       Cookie r = Some (token s) -> sessions w !! token s = Some s -> now <= expiry s ->
       fst run = Ok tt
       /\ tabs (snd run) = exec_stmt removal (tabs w)
       /\ written (snd run) = written w ++ [SetCookie "" (-1); WriteHeader 204]
       /\ (forall now', logged_in now' r (snd run) = None))
      /\ (rows_affected removal (tabs w) <> 1 ->
          run = (Ok tt,
                 set_written
                   (set_logged (set_tabs w (exec_stmt removal (tabs w)))
                      (logged w ++ ["Problem removing user"]))
                   (written w ++
                    [WriteError ErrorInternal "Could not find specified user"])))).
Proof.
  intros Hu. cbv zeta. split.
  - intros Hon Hdown.
    destruct (handleDeleteUser SendEmail econf now conf r s w) as [res w'] eqn:Hrun.
    unfold handleDeleteUser in Hrun.
    destruct (String.eqb_spec (EmailServer econf) "") as [E|_]; [contradiction|].
    cbn [negb] in Hrun. unfold sendDeleteEmails, deref_userID in Hrun. rewrite Hu in Hrun.
    unfold try at 1 in Hrun. change (bind (ret uid) ?k w) with (k uid w) in Hrun.
    cbv beta in Hrun. unfold try at 1 in Hrun.
    destruct (UserInformation_read now uid w) as [Hp [fs Hs]].
    destruct (UserInformation now uid w) as [[info|e] w1]; cbn [fst snd] in Hp, Hs; subst w1.
    + destruct (Hdown DeleteAccountNotice
                  (mkMail [("Username", Username info)] (map Email (elems (Emails info)))
                     (language info)) (set_faults w fs))
        as (e & w1 & Hsend & He & Ht & Hwr).
      rewrite Hsend in Hrun.
      destruct e; cbn in Hrun;
        try (injection Hrun as <- <-; split; [reflexivity|]; split; [exact Ht|];
             cbn; rewrite Hwr; now eexists).
      exfalso. eapply He. reflexivity.
    + destruct e; cbn in Hrun;
        try (injection Hrun as <- <-; split; [reflexivity|]; split; [reflexivity|];
             cbn; now eexists).
      exfalso. eapply Hp. reflexivity.
  - intros Hoff Hf.
    assert (Hrun : handleDeleteUser SendEmail econf now conf r s w =
                   (let? removed := RemoveUser now uid (24 * 3600 * DeleteDelay econf) in
                    match removed with
                    | Err err =>
                        let* _ := Log "Problem removing user" in
                        Write (WriteError ErrorInternal (Error_string err))
                    | Ok _ =>
                        let* _ := logoutUser now conf r in
                        Write (WriteHeader 204)
                    end) w).
    { unfold handleDeleteUser. rewrite Hoff. cbn [String.eqb negb].
      unfold try at 1. change (ret tt w) with (Ok tt, w). cbv beta iota.
      unfold deref_userID. rewrite Hu. reflexivity. }
    rewrite Hrun. clear Hrun.
    unfold try, RemoveUser, keyshare.ExecUser, keyshare.ExecCount, bind.
    rewrite (Exec_ok _ w Hf). split.
    + intros Hone Hc Hl He. rewrite Hone. cbn [Z.eqb Pos.eqb negb].
      unfold ret, logoutUser, sessionFromCookie, bind. rewrite Hc.
      set (w1 := set_tabs w _).
      assert (Hl1 : sessions w1 !! token s = Some s) by exact Hl.
      rewrite (get_hit now _ (token s) s w1 Hl1 He).
      cbn. rewrite <- app_assoc. repeat split.
      intros now'. unfold logged_in. rewrite Hc. cbn.
      rewrite lookup_alter_eq, lookup_insert_eq. cbn. now rewrite andb_false_r.
    + intros Hne.
      destruct (Z.eqb_spec (rows_affected (RemoveUserUpdate uid
                               (now + 24 * 3600 * DeleteDelay econf)) (tabs w)) 1);
        [contradiction|reflexivity].
Qed.


(** *** POST /email/remove *)

Lemma UserInformation_eq now uid (w : World) pre row post :
  faults w = [] ->
  only_row uid pre row post (tabs w) ->
  UserInformation now uid w =
    (Ok (mkUserInformation (users_username row)
           (match active_rows uid now (tabs w) with
            | [] => nilSlice
            | rows => Slice (map user_email_of_row rows)
            end)
           (users_language row) (is_null (users_coredata row))), w).
Proof.
  intros Hf (Hu & Hid & Hpre & Hpost).
  unfold UserInformation, keyshare.QueryIterate, bind.
  rewrite (QueryUser_tx_ok nilTx _ w Hf). cbn [view].
  unfold select_user_information. rewrite Hu.
  rewrite (filter_one _ pre post row);
    try (eapply Forall_weaken_cond; [apply other_id_eqb|assumption]);
    try (now rewrite Hid, Z.eqb_refl).
  cbn [map]. rewrite (Query_ok _ _ w Hf).
  unfold select_user_emails. rewrite iterate_user_emails. unfold ret.
  cbn [Username DeleteInProgress Emails language elems app].
  fold (active_rows uid now (tabs w)).
  destruct (active_rows uid now (tabs w)) as [|r rs]; [reflexivity|].
  cbn [map]. now rewrite map_map.
Qed.

Lemma validEmail_existsb mail (l : list UserEmail) (acc : bool) :
  fold_left (fun validEmail emailL =>
               if String.eqb mail (Email emailL) then true else validEmail) l acc
  = acc || existsb (fun e => String.eqb mail (Email e)) l.
Proof.
  revert acc. induction l as [|e l IH]; intros acc; cbn [fold_left existsb].
  - now rewrite orb_false_r.
  - rewrite IH. destruct (String.eqb mail (Email e)), acc; reflexivity.
Qed.

(** POST /email/remove checks the address against the addresses the user
    holds before anything else happens.  On a healthy connection, for an
    address that is on none of the user's rows that are not past their
    removal date, the answer is the invalid-request error "Not a valid
    email address for user": no notice is sent, whatever the mailer, and
    the database is not written.  For an address the user holds, with no
    mail server configured and the UPDATE marking one row, the removal of
    the address is scheduled [DeleteDelay] days ahead and the answer
    refreshes the cookie with status 204. *)
Theorem handleRemoveEmail_outcomes now conf s uid mail (w : World) pre row post :
  userID s = Some uid ->
  faults w = [] ->
  only_row uid pre row post (tabs w) ->
  let run := handleRemoveEmail SendEmail econf now conf (Ok mail) s w in
  let held := existsb (fun r => String.eqb mail (emails_email r))
                      (active_rows uid now (tabs w)) in
  let removal := RemoveEmailUpdate uid mail (now + 24 * 3600 * DeleteDelay econf) in
  (held = false ->
   run = (Ok tt,
          set_written
            (set_logged w
               (logged w ++ ["Malformed request: invalid email address to delete"]))
            (written w ++
             [WriteError ErrorInvalidRequest "Not a valid email address for user"])))
  /\ (held = true -> EmailServer econf = "" ->
      rows_affected removal (tabs w) = 1 ->
      fst run = Ok tt
      /\ tabs (snd run) = exec_stmt removal (tabs w)
      /\ written (snd run)
         = written w ++ [SetCookie (token s) (SessionLifetime conf); WriteHeader 204]).
Proof.
  intros Hu Hf Hrow. cbv zeta.
  assert (Hv : forall rows : list EmailRow,
            fold_left (fun validEmail emailL =>
                         if String.eqb mail (Email emailL) then true else validEmail)
                      (elems (match rows with
                              | [] => nilSlice
                              | r :: rs => Slice (map user_email_of_row (r :: rs))
                              end)) false
            = existsb (fun r => String.eqb mail (emails_email r)) rows).
  { intros rows. rewrite validEmail_existsb. cbn [orb].
    destruct rows as [|r rs]; [reflexivity|]. cbn [elems].
    generalize (r :: rs). intros l. induction l as [|x l IH]; [reflexivity|].
    cbn [map existsb]. now rewrite IH. }
  split.
  - intros Hheld.
    unfold handleRemoveEmail, processRemoveEmail, deref_userID. rewrite Hu.
    unfold try at 1. change (bind (ret uid) ?k w) with (k uid w). cbv beta.
    unfold try at 1. rewrite (UserInformation_eq now uid w pre row post Hf Hrow).
    cbv beta iota. cbn [Emails]. rewrite Hv, Hheld. reflexivity.
  - intros Hheld Hoff Hone.
    destruct (handleRemoveEmail SendEmail econf now conf (Ok mail) s w)
      as [res w'] eqn:Hrun.
    unfold handleRemoveEmail, processRemoveEmail, deref_userID in Hrun.
    rewrite Hu in Hrun.
    unfold try at 1 in Hrun. change (bind (ret uid) ?k w) with (k uid w) in Hrun.
    cbv beta in Hrun.
    unfold try at 1 in Hrun.
    rewrite (UserInformation_eq now uid w pre row post Hf Hrow) in Hrun.
    cbv beta iota in Hrun. cbn [Emails] in Hrun. rewrite Hv, Hheld, Hoff in Hrun.
    cbn [negb String.eqb] in Hrun.
    unfold RemoveEmail, keyshare.ExecCount, try, bind in Hrun.
    change (ret tt w) with (Ok tt, w) in Hrun. cbv beta iota in Hrun.
    rewrite (Exec_ok _ w Hf), Hone in Hrun. cbn in Hrun.
    injection Hrun as <- <-. cbn. rewrite <- app_assoc. now repeat split.
Qed.


(** *** POST /login/email *)

(** POST /login/email.  With no mail server configured the answer is the
    internal error "not enabled in configuration" and nothing else
    happens.  Otherwise, on a healthy connection: for an address that no
    user holds the answer is [ErrorUserNotRegistered], no mail is sent,
    whatever the mailer, and no token is stored; for an address somebody
    holds, the mail that is handed to the mailer goes to that address
    only and carries the login URL of the request's language followed by
    the token that the transaction stores, with an expiry of one hour; the
    token is committed if the mailer accepts the mail, and if the mailer
    fails the transaction is rolled back and no token is stored. *)
Theorem handleEmailLogin_outcomes now mail lang (w : World) :
  let run := handleEmailLogin SendEmail LoginEmailBaseURL econf now (Ok (mail, lang)) w in
  (EmailServer econf = "" ->
   run = (Ok tt,
          set_written w
            (written w ++ [WriteError ErrorInternal "not enabled in configuration"])))
  /\ (EmailServer econf <> "" -> faults w = [] ->
      forall tok rest, entropy w = tok :: rest ->
      let w1 := set_entropy (set_pend w []) rest in
      (select_email_exists mail now (tabs w) = Ok [] ->
       run = (Ok tt, set_written w1 (written w ++ [WriteError ErrorUserNotRegistered ""])))
      /\ (forall x xs,
            select_email_exists mail now (tabs w) = Ok (x :: xs) ->
            let stored := InsertLoginToken tok mail (now + 60 * 60) in
            let letter :=
              mkMail [("TokenURL", (LoginEmailBaseURL lang ++ tok)%string)] [mail] lang in
            let w2 := set_pend w1 [stored] in
            (forall e w3,
               SendEmail LoginEmailNotice letter w2 = (Err e, w3) ->
               (forall msg, e <> Panic msg) -> tabs w3 = tabs w2 ->
               fst run = Ok tt /\ tabs (snd run) = tabs w)
            /\ (forall w3,
                  SendEmail LoginEmailNotice letter w2 = (Ok tt, w3) ->
                  faults w3 = [] -> tabs w3 = tabs w2 -> pend w3 = pend w2 ->
                  fst run = Ok tt
                  /\ tabs (snd run) = exec_stmt stored (tabs w)
                  /\ pend (snd run) = []))).
Proof.
  cbv zeta. split.
  - intros Hoff. unfold handleEmailLogin. now rewrite Hoff.
  - intros Hon Hf tok rest He.
    set (w0 := set_pend w []).
    set (w1 := set_entropy w0 rest).
    assert (Hf1 : faults w1 = []) by exact Hf.
    assert (Hb : BeginTx w = (Ok openTx, w0)).
    { unfold BeginTx, bind. now rewrite (roundtrip_ok w Hf). }
    assert (Ht : NewSessionToken w0 = (Ok tok, w1)).
    { unfold NewSessionToken. cbn [entropy w0 set_pend]. now rewrite He. }
    assert (Hq : keyshare.QueryScan openTx (select_email_exists mail now) w1 =
                 match select_email_exists mail now (tabs w) with
                 | Ok [] => (Err ErrNoRows, w1)
                 | Ok (row :: _) => (Ok row, w1)
                 | Err e => (Err e, w1)
                 end) by exact (QueryScan_tx_ok openTx _ w1 Hf1).
    assert (Hhandle : handleEmailLogin SendEmail LoginEmailBaseURL econf now
                        (Ok (mail, lang)) w =
                      match sendLoginEmail SendEmail LoginEmailBaseURL now (Some openTx)
                              (mail, lang) w0 with
                      | (Err (Panic msg), w') => (Err (Panic msg), w')
                      | (Err ErrEmailNotFound, w') =>
                          (Ok tt,
                           set_written (snd (Rollback w'))
                             (written (snd (Rollback w'))
                              ++ [WriteError ErrorUserNotRegistered ""]))
                      | (Err err, w') =>
                          (Ok tt,
                           set_written (snd (Rollback w'))
                             (written (snd (Rollback w'))
                              ++ [WriteError ErrorInternal (Error_string err)]))
                      | (Ok _, w') =>
                          let w'' := set_written w' (written w' ++ [WriteHeader 204]) in
                          match Commit w'' with
                          | (Ok _, w3) => (Ok tt, w3)
                          | (Err (Panic msg), w3) => (Err (Panic msg), w3)
                          | (Err err, w3) =>
                              (Ok tt,
                               set_written
                                 (set_logged w3
                                    (logged w3 ++ ["Error committing DB transaction"]))
                                 (written w3 ++ [WriteError ErrorInternal (Error_string err)]))
                          end
                      end).
    { unfold handleEmailLogin.
      destruct (String.eqb_spec (EmailServer econf) "") as [E|_]; [contradiction|].
      unfold Tx, try, bind. rewrite Hb. cbv beta iota.
      destruct (sendLoginEmail SendEmail LoginEmailBaseURL now (Some openTx) (mail, lang) w0)
        as [[[]|e] w'].
      - unfold ret, Write. cbv beta iota.
        destruct (Commit _) as [[[]|ce] w3]; [reflexivity|]. now destruct ce.
      - assert (Hnp : forall w4 m, fst (Rollback w4) <> Err (Panic m)).
        { intros w4 m. unfold Rollback, bind, roundtrip.
          destruct (faults w4) as [|[m'|] fs]; discriminate. }
        destruct e; try reflexivity; unfold ret, Write; cbv beta iota;
          match goal with |- context [Rollback ?w4] =>
            pose proof (Hnp w4) as Hn; destruct (Rollback w4) as [[[]|re] w5];
              cbn [fst snd] in *; try reflexivity;
              destruct re; try reflexivity; exfalso; eapply Hn; reflexivity
          end. }
    split.
    + intros Hsel. rewrite Hsel in Hq. rewrite Hhandle.
      assert (Hsle : sendLoginEmail SendEmail LoginEmailBaseURL now (Some openTx)
                       (mail, lang) w0 = (Err ErrEmailNotFound, w1)).
      { unfold sendLoginEmail, bind. rewrite Ht. unfold try.
        unfold AddEmailLoginToken, bind, try. cbn [keyshare.assert_sqlTx ret fst].
        rewrite Hq. reflexivity. }
      rewrite Hsle. unfold Rollback, bind, roundtrip. rewrite Hf1. reflexivity.
    + intros x xs Hsel. rewrite Hsel in Hq.
      assert (Hsle : sendLoginEmail SendEmail LoginEmailBaseURL now (Some openTx)
                       (mail, lang) w0
                     = SendEmail LoginEmailNotice
                         (mkMail [("TokenURL", (LoginEmailBaseURL lang ++ tok)%string)]
                                 [mail] lang)
                         (set_pend w1 [InsertLoginToken tok mail (now + 60 * 60)])).
      { unfold sendLoginEmail, bind. rewrite Ht. unfold try.
        unfold AddEmailLoginToken, bind, try. cbn [keyshare.assert_sqlTx ret fst].
        rewrite Hq. unfold keyshare.ExecCount. rewrite (Exec_tx_ok openTx _ w1 Hf1).
        reflexivity. }
      rewrite Hhandle, Hsle. split.
      * intros e w3 Hsend Hnp Htabs. rewrite Hsend.
        assert (Hroll : tabs (snd (Rollback w3)) = tabs w3).
        { unfold Rollback, bind, roundtrip. now destruct (faults w3) as [|[m|] fs]. }
        destruct e; try (exfalso; eapply Hnp; reflexivity);
          (split; [reflexivity|]); cbn [snd tabs set_written]; now rewrite Hroll, Htabs.
      * intros w3 Hsend Hf3 Htabs Hpend. rewrite Hsend. cbv zeta.
        unfold Commit, bind, roundtrip. cbn [faults set_written]. rewrite Hf3.
        cbn. rewrite Hpend, Htabs. cbn. now repeat split.
Qed.

End Mail.

Section MailWitnesses.

Import myirmaserver.

(** The mail server is down: user 7 keeps the account. *)
Lemma handleDeleteUser_outcomes_witness :
  tabs (snd (handleDeleteUser mailer_down mail_on 20 sample.conf sample.cookie
               sample.session7 sample.console_world))
  = tabs sample.console_world.
Proof.
  destruct (handleDeleteUser_outcomes mailer_down mail_on 20 sample.conf sample.cookie
              sample.session7 7 sample.console_world eq_refl) as [H _].
  destruct H as (_ & Ht & _).
  - discriminate.
  - intros n m w0. exists (ErrDriver "dial tcp: connection refused"), w0.
    repeat split. discriminate.
  - exact Ht.
Defined.

(** User 7 holds "e@x" and asks for the removal of "x@y". *)
Lemma handleRemoveEmail_outcomes_witness :
  written (snd (handleRemoveEmail mailer_up mail_on 20 sample.conf (Ok "x@y")
                  sample.session7 sample.email_world))
  = [WriteError ErrorInvalidRequest "Not a valid email address for user"].
Proof.
  destruct (handleRemoveEmail_outcomes mailer_up mail_on 20 sample.conf sample.session7 7
              "x@y" sample.email_world [] sample.fresh []) as [H _].
  - reflexivity.
  - reflexivity.
  - split; [reflexivity|]. split; [reflexivity|]. split; constructor.
  - rewrite (H eq_refl). reflexivity.
Defined.

(** A login mail for "shared@x" at [t = 100]: the token "tokS" is stored. *)
Lemma handleEmailLogin_outcomes_witness :
  email_login_tokens
    (tabs (snd (handleEmailLogin mailer_up (fun _ => "https://example.com/login/") mail_on
                  100 (Ok ("shared@x", "en")) token_login_world)))
  = [mkLoginToken "tok2" "shared@x" 3700; mkLoginToken "tokS" "shared@x" 3700].
Proof.
  destruct (handleEmailLogin_outcomes mailer_up (fun _ => "https://example.com/login/")
              mail_on 100 "shared@x" "en" token_login_world) as [_ H].
  destruct (H ltac:(discriminate) eq_refl "tokS" [] eq_refl) as [_ H2].
  destruct (H2 1 [] eq_refl) as [_ Hok].
  destruct (Hok _ eq_refl eq_refl eq_refl eq_refl) as (_ & Ht & _).
  rewrite Ht. reflexivity.
Defined.

End MailWitnesses.

(** ** Login by mail and the log pages *)

Section LoginByMail.

Import myirmaserver.

(** *** The candidates of a login token *)

Lemma In_filter_named {A} (name : A -> string) (P : A -> bool) (l : list A) (n : string) :
  In n (map name (List.filter P l))
  <-> List.filter (fun x => String.eqb (name x) n && P x) l <> [].
Proof.
  induction l as [|x l IH]; cbn [List.filter map In]; [tauto|].
  destruct (P x) eqn:HP; destruct (String.eqb_spec (name x) n) as [E|E];
    cbn [andb map In].
  - split; [discriminate|]. now left.
  - rewrite <- IH. split; [intros [H|H]; [contradiction|exact H]|now right].
  - exact IH.
  - exact IH.
Qed.

(** The usernames POST /login/token/candidates lists for a token are exactly
    the usernames the token logs in: on a healthy connection, where the
    token is on one row, [TryUserLoginToken] with the token succeeds for a
    username if and only if [LoginTokenCandidates] lists it. *)
Theorem login_candidates_can_log_in now tok (w : World) cands :
  faults w = [] ->
  pend w = [] ->
  rows_affected (DeleteLoginToken tok) (tabs w) = 1 ->
  LoginTokenCandidates now tok w = (Ok cands, w) ->
  forall name,
    In name (map LoginCandidate_Username (elems cands))
    <-> exists uid, fst (TryUserLoginToken now (Some openTx) tok name w) = Ok uid.
Proof.
  intros Hf Hp Hone Hc name.
  assert (Hv : view openTx w = tabs w) by (unfold view; now rewrite Hp).
  unfold LoginTokenCandidates, keyshare.QueryIterate, bind in Hc.
  rewrite (Query_ok _ _ w Hf) in Hc.
  unfold TryUserLoginToken, bind. cbn [keyshare.assert_sqlTx ret].
  rewrite (QueryUser_tx_ok openTx _ w Hf), Hv.
  unfold select_candidates in Hc. unfold select_login_user.
  destruct (scalar (select_login_token_email tok now (tabs w))) as [sub|e];
    [|discriminate].
  set (P := fun ue : UserRow * EmailRow =>
              active (emails_delete_on (snd ue)) now && null_eqb (emails_email (snd ue)) sub)
    in *.
  rewrite (iterate_append (fun row : string * Z => mkLoginCandidate (fst row) (snd row)))
    in Hc.
  assert (Hlist : map LoginCandidate_Username (elems cands)
                  = map (fun ue => users_username (fst ue))
                        (List.filter P (users_join_emails (tabs w)))).
  { destruct (List.filter P (users_join_emails (tabs w))) as [|ue rest];
      cbn [map] in Hc; [discriminate|].
    unfold ret in Hc.
    destruct (len _ =? 0); [discriminate|]. injection Hc as <-.
    cbn [elems app map LoginCandidate_Username fst]. f_equal.
    rewrite !map_map. reflexivity. }
  rewrite Hlist, (In_filter_named (fun ue => users_username (fst ue)) P).
  assert (Hsame : List.filter (fun ue => String.eqb (users_username (fst ue)) name
                                         && active (emails_delete_on (snd ue)) now
                                         && null_eqb (emails_email (snd ue)) sub)
                              (users_join_emails (tabs w))
                  = List.filter (fun x => String.eqb (users_username (fst x)) name && P x)
                                (users_join_emails (tabs w))).
  { apply List.filter_ext. intros ue. unfold P. now rewrite andb_assoc. }
  rewrite Hsame. clear Hsame Hlist Hc.
  generalize (List.filter (fun x : UserRow * EmailRow =>
                             String.eqb (users_username (fst x)) name && P x)
                          (users_join_emails (tabs w))).
  intros [|ue rest]; cbn [map].
  - split; [intros H; now contradiction H|]. intros [uid H]. discriminate.
  - split; [|intros _; discriminate]. intros _.
    unfold keyshare.ExecCount. rewrite (Exec_tx_ok openTx _ w Hf), Hv, Hone.
    cbn. eauto.
Qed.

(** Scenario S3: carol is a candidate of "tok2", and can log in with it. *)
Lemma login_candidates_can_log_in_witness :
  exists uid,
    fst (TryUserLoginToken 100 (Some openTx) "tok2" "carol" sample.shared_world) = Ok uid.
Proof.
  apply (login_candidates_can_log_in 100 "tok2" sample.shared_world
           (Slice [mkLoginCandidate "bob" 0; mkLoginCandidate "carol" 0])
           eq_refl eq_refl eq_refl eq_refl "carol").
  cbn. right. now left.
Defined.

End LoginByMail.

Section LogPages.

Import myirmaserver.

(** *** GET /user/logs/{offset} *)

Lemma Logs_page uid offset amount (w : World) :
  faults w = [] -> 0 <= offset -> 0 <= amount ->
  exists page,
    Z.of_nat (length page) <= amount
    /\ Logs uid offset amount w
       = (Ok (match page with [] => nilSlice | _ => Slice page end), w).
Proof.
  intros Hf Hoff Ham. unfold Logs, keyshare.QueryIterate, bind.
  rewrite (Query_ok _ _ w Hf). unfold select_logs.
  destruct (Z.ltb_spec offset 0) as [?|_]; [lia|].
  destruct (Z.ltb_spec amount 0) as [?|_]; [lia|].
  set (window := firstn (Z.to_nat amount) _).
  rewrite iterate_logs. unfold ret.
  exists (map entry_of_row (map (fun r => (log_time r, log_event r, log_param r)) window)).
  split.
  - rewrite !length_map. unfold window. rewrite length_firstn. lia.
  - destruct window; reflexivity.
Qed.

(** The offset of GET /user/logs/{offset}.  A path segment that is not a
    decimal numeral of a 64-bit int is answered with an invalid-request
    error without the database being asked.  A negative offset passes
    that check and reaches the database, whose error comes back as an
    internal error.  Every other offset is answered with a JSON array of
    at most 11 entries and a refreshed cookie. *)
Theorem handleGetLogs_offsets now conf offsetS s uid (w : World) :
  userID s = Some uid ->
  faults w = [] ->
  let run := handleGetLogs now conf offsetS s w in
  match Atoi offsetS with
  | Err err =>
      run = (Ok tt,
             set_written (set_logged w (logged w ++ ["Malformed offset"]))
               (written w ++ [WriteError ErrorInvalidRequest (Error_string err)]))
  | Ok offset =>
      if offset <? 0 then
        run = (Ok tt,
               set_written (set_logged w (logged w ++ ["Could not load log entries"]))
                 (written w ++ [WriteError ErrorInternal "OFFSET must not be negative"]))
      else
        exists page,
          Z.of_nat (length page) <= 11
          /\ fst run = Ok tt
          /\ written (snd run)
             = written w ++ [SetCookie (token s) (SessionLifetime conf);
                             WriteJson (JArray (map marshal_LogEntry page))]
          /\ tabs (snd run) = tabs w
  end.
Proof.
  intros Hu Hf. cbv zeta. unfold handleGetLogs.
  destruct (Atoi offsetS) as [offset|err]; [|reflexivity].
  unfold deref_userID. rewrite Hu.
  destruct (Z.ltb_spec offset 0) as [Hneg|Hpos].
  - change (bind (ret uid) ?k w) with (k uid w). cbv beta.
    unfold try, Logs, keyshare.QueryIterate, bind.
    rewrite (Query_ok _ _ w Hf). unfold select_logs.
    destruct (Z.ltb_spec offset 0) as [_|?]; [reflexivity|lia].
  - destruct (Logs_page uid offset 11 w Hf Hpos ltac:(lia)) as (page & Hlen & Hrun).
    exists page. split; [exact Hlen|].
    change (bind (ret uid) ?k w) with (k uid w). cbv beta.
    unfold try. rewrite Hrun.
    destruct page; cbn; rewrite <- app_assoc; now repeat split.
Qed.

(** The offset "-1". *)
Lemma handleGetLogs_offsets_witness :
  written (snd (handleGetLogs 20 sample.conf "-1" sample.session7 sample.console_world))
  = [WriteError ErrorInternal "OFFSET must not be negative"].
Proof.
  pose proof (handleGetLogs_offsets 20 sample.conf "-1" sample.session7 7
                sample.console_world eq_refl eq_refl) as H.
  cbv zeta in H. change (Atoi "-1") with (@Ok Z (-1)) in H. cbv beta iota in H.
  change (-1 <? 0) with true in H. cbv iota in H.
  rewrite H. reflexivity.
Defined.

End LogPages.

(** ** The keyshare server's writes *)

Section Isolation.

Import keyshareserver.

(** *** One account at a time *)

Lemma touches_only_refl uid (t : Tables) : touches_only uid t t.
Proof. now split. Qed.

Lemma touches_only_update uid (cond : UserRow -> bool) (set : UserRow -> UserRow)
    (t : Tables) :
  (forall r, cond r = true -> users_id r = uid) ->
  (forall r, users_id (set r) = users_id r) ->
  touches_only uid t (with_users t (update cond set (users t))).
Proof.
  intros Hc Hs. unfold touches_only, other_accounts. cbn [users with_users].
  unfold update. induction (users t) as [|r l [IH1 IH2]]; [now split|].
  cbn [map List.filter]. destruct (cond r) eqn:E.
  - rewrite Hs, (Hc r E), Z.eqb_refl. cbn [negb]. split; [exact IH1|now f_equal].
  - split; [|now f_equal]. destruct (negb (users_id r =? uid)); [now f_equal|exact IH1].
Qed.

Lemma touches_only_stmt uid (s : stmt) (t : Tables) :
  match s with
  | ReservePincheckUpdate _ _ _ p4 _ => p4 = uid
  | ClearPincheckUpdate p1 => p1 = uid
  | SetSeenUpdate _ p2 => p2 = uid
  | _ => False
  end ->
  touches_only uid t (exec_stmt s t).
Proof.
  destruct s; try contradiction; intros ->; cbn [exec_stmt];
    apply touches_only_update; try reflexivity; intros r.
  - unfold reserve_where. intros H.
    apply andb_prop in H as [H _]. apply andb_prop in H as [H _]. now apply Z.eqb_eq.
  - apply Z.eqb_eq.
  - apply Z.eqb_eq.
Qed.

Lemma Exec_touches_only uid (s : stmt) (w : World) :
  touches_only uid (tabs w) (exec_stmt s (tabs w)) ->
  touches_only uid (tabs w) (tabs (snd (Exec nilTx s w))).
Proof.
  intros H. destruct (Exec_cases s w) as [(msg & _ & ->)|[_ ->]];
    [apply touches_only_refl|exact H].
Qed.

(** The keyshare server's writes to [irma.users] act on one account:
    whatever the tables hold and whatever the driver does,
    [ReservePincheck], [ClearPincheck], [UpdateUser] and [SetSeen] for a
    user add and remove no row, and leave the rows of every other account
    as they are. *)
Theorem keyshare_writes_touch_one_account (u : keysharePostgresUser) t1 t2 t3 now
    (w : World) :
  touches_only (id u) (tabs w) (tabs (snd (ReservePincheck t1 t2 t3 u w)))
  /\ touches_only (id u) (tabs w) (tabs (snd (ClearPincheck u w)))
  /\ touches_only (id u) (tabs w) (tabs (snd (UpdateUser u w)))
  /\ touches_only (id u) (tabs w) (tabs (snd (SetSeen now u w))).
Proof.
  split; [|split; [|split]].
  - unfold ReservePincheck, Query, bind, roundtrip.
    assert (Hs : touches_only (id u) (tabs w)
                   (exec_stmt (ReservePincheckUpdate (t1 - 1 - BACKOFF_START) BACKOFF_START
                                 (MAX_PIN_TRIES - 2) (id u) t2) (tabs w)))
      by now apply touches_only_stmt.
    destruct (faults w) as [|[msg|] fs]; cbn [view reserve_returning];
      try apply touches_only_refl;
      (destruct (map _ (List.filter _ (users (tabs _)))) as [|[tries wait] rest];
       cbn [write]; [|exact Hs]);
      match goal with |- context [faults ?w0] => destruct (faults w0) as [|[msg|] fs'] end;
      cbn [view select_pin_block_date];
      try exact Hs;
      (destruct (map _ (List.filter _ (users (tabs _)))); exact Hs).
  - unfold ClearPincheck, bind.
    pose proof (Exec_touches_only (id u) (ClearPincheckUpdate (id u)) w
                  (touches_only_stmt (id u) (ClearPincheckUpdate (id u)) (tabs w) eq_refl)) as H.
    destruct (Exec nilTx (ClearPincheckUpdate (id u)) w) as [[c|e] w1]; cbn [snd] in *;
      [|exact H].
    destruct (c =? 0); exact H.
  - unfold UpdateUser, ExecPool, bind, roundtrip.
    assert (Hs : touches_only (id u) (tabs w)
                   (with_users (tabs w)
                      (update (fun r => users_id r =? id u)
                              (update_user_set (Username u) (Language u) (Coredata u))
                              (users (tabs w)))))
      by (apply touches_only_update; [intros r; apply Z.eqb_eq|reflexivity]).
    destruct (faults w) as [|[msg|] fs]; cbn; try apply touches_only_refl;
      destruct (count _ _ =? 0); exact Hs.
  - unfold SetSeen, bind.
    pose proof (Exec_touches_only (id u) (SetSeenUpdate now (id u)) w
                  (touches_only_stmt (id u) (SetSeenUpdate now (id u)) (tabs w) eq_refl)) as H.
    destruct (Exec nilTx (SetSeenUpdate now (id u)) w) as [[c|e] w1]; cbn [snd] in *;
      [|exact H].
    destruct (c =? 0); exact H.
Qed.

End Isolation.

(** ** The life cycle of an address *)

Section AddressLifeCycle.

Import myirmaserver.

(** *** What the user sees of an address *)

Lemma listed_address now uid (w : World) pre row post (e : EmailRow) :
  faults w = [] ->
  only_row uid pre row post (tabs w) ->
  In e (active_rows uid now (tabs w)) ->
  exists info,
    UserInformation now uid w = (Ok info, w)
    /\ elems (Emails info) = map user_email_of_row (active_rows uid now (tabs w))
    /\ In (user_email_of_row e) (elems (Emails info)).
Proof.
  intros Hf Hrow Hin. rewrite (UserInformation_eq now uid w pre row post Hf Hrow).
  eexists. split; [reflexivity|]. cbn [Emails].
  assert (Hel : elems (match active_rows uid now (tabs w) with
                       | [] => nilSlice
                       | r :: rs => Slice (map user_email_of_row (r :: rs))
                       end)
                = map user_email_of_row (active_rows uid now (tabs w)))
    by now destruct (active_rows uid now (tabs w)).
  rewrite Hel. split; [reflexivity|]. now apply in_map.
Qed.

(** An address that [AddEmail] has bound to a user shows in the user's
    information at once, at any time, with no removal in progress. *)
Theorem AddEmail_then_UserInformation now uid mail (w : World) pre row post :
  faults w = [] ->
  only_row uid pre row post (tabs w) ->
  let w1 := snd (AddEmail uid mail w) in
  exists info,
    UserInformation now uid w1 = (Ok info, w1)
    /\ In (mkUserEmail mail false) (elems (Emails info)).
Proof.
  intros Hf Hrow. cbv zeta.
  destruct (AddEmail_ok_world uid mail w Hf) as (_ & Hf1 & _).
  pose proof (AddEmail_has_active uid mail w Hf) as Hact.
  assert (Hrow1 : only_row uid pre row post (tabs (snd (AddEmail uid mail w)))).
  { rewrite (AddEmail_eq uid mail w Hf). cbn [snd].
    destruct (count _ _ =? 1); exact Hrow. }
  unfold has_active_binding in Hact.
  apply existsb_exists in Hact as (e & Hin & He).
  apply andb_true_iff in He as [Hkey Hnull].
  unfold email_is in Hkey. apply andb_true_iff in Hkey as [Hu Hm].
  apply String.eqb_eq in Hm.
  assert (Hd : emails_delete_on e = None)
    by (destruct (emails_delete_on e); [discriminate|reflexivity]).
  destruct (listed_address now uid _ pre row post e Hf1 Hrow1) as (info & Hrun & _ & Hl).
  - unfold active_rows. apply List.filter_In. split; [exact Hin|].
    rewrite Hu, Hd. reflexivity.
  - exists info. split; [exact Hrun|].
    unfold user_email_of_row in Hl. now rewrite Hm, Hd in Hl.
Qed.

Lemma AddEmail_then_UserInformation_witness :
  exists info,
    UserInformation 50 7 (snd (AddEmail 7 "new@x" sample.email_world))
    = (Ok info, snd (AddEmail 7 "new@x" sample.email_world))
    /\ In (mkUserEmail "new@x" false) (elems (Emails info)).
Proof.
  apply (AddEmail_then_UserInformation 50 7 "new@x" sample.email_world [] sample.fresh []).
  - reflexivity.
  - split; [reflexivity|]. split; [reflexivity|]. split; constructor.
Defined.

(** The grace period of a removed address.  After a successful
    [RemoveEmail] at [now] with [delay], of an address that is on one row
    of the user, the user's information lists the address as being removed
    at every time up to [now + delay], and does not list it at any later
    time. *)
Theorem RemoveEmail_grace_period now uid mail delay (w w1 : World) pre row post :
  faults w = [] ->
  only_row uid pre row post (tabs w) ->
  rows_for uid mail (tabs w) <= 1 ->
  RemoveEmail now uid mail delay w = (Ok tt, w1) ->
  forall t, exists info,
    UserInformation t uid w1 = (Ok info, w1)
    /\ (t <= now + delay -> In (mkUserEmail mail true) (elems (Emails info)))
    /\ (now + delay < t -> Forall (fun e => Email e <> mail) (elems (Emails info))).
Proof.
  intros Hf Hrow Hone Hrem t.
  destruct (RemoveEmail_ok now uid mail delay w w1 Hf Hrem) as [Hcount ->].
  set (t1 := exec_stmt (RemoveEmailUpdate uid mail (now + delay)) (tabs w)).
  assert (Hall : Forall (fun r => email_is uid mail r = true ->
                                  is_null (emails_delete_on r) = true)
                        (emails (tabs w))).
  { apply count_eq_all. fold (remove_email_where uid mail).
    assert (Hle : count (remove_email_where uid mail) (emails (tabs w))
                  <= count (email_is uid mail) (emails (tabs w))).
    { apply count_le. intros r Hr. now apply andb_true_iff in Hr as [Hr _]. }
    unfold rows_for in Hone.
    change (fun r => email_is uid mail r && is_null (emails_delete_on r))
      with (remove_email_where uid mail). lia. }
  assert (Hafter : Forall (fun r => email_is uid mail r = true ->
                                    emails_delete_on r = Some (now + delay))
                          (emails t1)).
  { unfold t1. cbn [exec_stmt emails with_emails]. unfold update.
    apply (proj2 (List.Forall_map _ _ _)).
    eapply Forall_impl; [exact Hall|]. intros r Hr. cbn beta.
    unfold remove_email_where.
    destruct (email_is uid mail r) eqn:Hk; cbn [andb].
    - rewrite (Hr Hk). intros _. reflexivity.
    - intros H. cbn beta in H. congruence. }
  assert (Hex : exists r, In r (emails t1) /\ email_is uid mail r = true).
  { assert (Hpos : existsb (remove_email_where uid mail) (emails (tabs w)) = true)
      by (apply count_positive_exists; lia).
    apply existsb_exists in Hpos as (r & Hin & Hr).
    exists (email_set_delete_on (Some (now + delay)) r). split.
    - unfold t1. cbn [exec_stmt emails with_emails]. unfold update.
      apply in_map_iff. exists r. split; [now rewrite Hr|exact Hin].
    - rewrite email_is_set_delete_on. now apply andb_true_iff in Hr as [Hr _]. }
  assert (Hrow1 : only_row uid pre row post t1) by exact Hrow.
  set (w1 := set_tabs w t1).
  assert (Hf1 : faults w1 = []) by exact Hf.
  rewrite (UserInformation_eq t uid w1 pre row post Hf1 Hrow1).
  eexists. split; [reflexivity|]. cbn [Emails].
  assert (Hel : elems (match active_rows uid t (tabs w1) with
                       | [] => nilSlice
                       | r :: rs => Slice (map user_email_of_row (r :: rs))
                       end)
                = map user_email_of_row (active_rows uid t t1))
    by (change (tabs w1) with t1; now destruct (active_rows uid t t1)).
  rewrite Hel. split.
  - intros Ht. destruct Hex as (r & Hin & Hr).
    pose proof (proj1 (List.Forall_forall _ _) Hafter r Hin Hr) as Hd.
    unfold email_is in Hr. apply andb_true_iff in Hr as [Hu Hm].
    apply String.eqb_eq in Hm.
    replace (mkUserEmail mail true) with (user_email_of_row r)
      by (unfold user_email_of_row; now rewrite Hm, Hd).
    apply in_map. unfold active_rows. apply List.filter_In. split; [exact Hin|].
    rewrite Hu, Hd. cbn [andb]. unfold active, null_geb.
    apply orb_true_iff. left. apply Z.leb_le. lia.
  - intros Ht. apply (proj2 (List.Forall_map _ _ _)).
    apply List.Forall_forall. intros r Hin. unfold active_rows in Hin.
    apply List.filter_In in Hin as [Hin Hact].
    apply andb_true_iff in Hact as [Hu Hact].
    cbn [Email user_email_of_row]. intros Hm.
    assert (Hk : email_is uid mail r = true).
    { unfold email_is. rewrite Hu, Hm. cbn. apply String.eqb_refl. }
    pose proof (proj1 (List.Forall_forall _ _) Hafter r Hin Hk) as Hd.
    rewrite Hd in Hact. unfold active, null_geb in Hact.
    apply orb_true_iff in Hact as [Hact|Hact]; [apply Z.leb_le in Hact; lia|discriminate].
Qed.

(** "e@x" is removed at [t = 2000] with a day of grace. *)
Lemma RemoveEmail_grace_period_witness :
  exists info,
    UserInformation 90000 7 (snd (RemoveEmail 2000 7 "e@x" 86400 sample.email_world))
    = (Ok info, snd (RemoveEmail 2000 7 "e@x" 86400 sample.email_world))
    /\ Forall (fun e => Email e <> "e@x") (elems (Emails info)).
Proof.
  destruct (RemoveEmail_grace_period 2000 7 "e@x" 86400 sample.email_world
              (snd (RemoveEmail 2000 7 "e@x" 86400 sample.email_world))
              [] sample.fresh [] eq_refl) with (t := 90000) as (info & Hrun & _ & Hgone).
  - split; [reflexivity|]. split; [reflexivity|]. split; constructor.
  - vm_compute. discriminate.
  - reflexivity.
  - exists info. split; [exact Hrun|]. apply Hgone. lia.
Defined.

(** [UserID] and [UserInformation] agree: where one row has the id,
    the information of the id that [UserID] finds for a username carries
    that username. *)
Theorem UserID_then_UserInformation now name uid (w : World) pre row post :
  faults w = [] ->
  only_row uid pre row post (tabs w) ->
  UserID name w = (Ok uid, w) ->
  exists info, UserInformation now uid w = (Ok info, w) /\ Username info = name.
Proof.
  intros Hf Hrow Hid.
  rewrite (UserInformation_eq now uid w pre row post Hf Hrow).
  eexists. split; [reflexivity|]. cbn [Username].
  unfold UserID in Hid. rewrite (QueryUser_tx_ok nilTx _ w Hf) in Hid.
  cbn [view] in Hid. unfold select_user_id in Hid.
  destruct (map users_id _) as [|uid' ids] eqn:Hsel; [discriminate|].
  injection Hid as ->.
  assert (Hin : In uid (map users_id
                          (List.filter (fun r => String.eqb (users_username r) name)
                                       (users (tabs w)))))
    by (rewrite Hsel; now left).
  apply in_map_iff in Hin as (r & Hr & Hin).
  apply List.filter_In in Hin as [Hin Hname]. apply String.eqb_eq in Hname.
  destruct Hrow as (Hu & Hrid & Hpre & Hpost).
  rewrite Hu in Hin. apply in_app_or in Hin as [Hin|[<-|Hin]].
  - exfalso. exact (proj1 (List.Forall_forall _ _) Hpre r Hin Hr).
  - exact Hname.
  - exfalso. exact (proj1 (List.Forall_forall _ _) Hpost r Hin Hr).
Qed.

Lemma UserID_then_UserInformation_witness :
  exists info,
    UserInformation 50 7 sample.fresh_world = (Ok info, sample.fresh_world)
    /\ Username info = "u".
Proof.
  apply (UserID_then_UserInformation 50 "u" 7 sample.fresh_world [] sample.fresh []).
  - reflexivity.
  - split; [reflexivity|]. split; [reflexivity|]. split; constructor.
  - reflexivity.
Defined.

End AddressLifeCycle.
